(** * Harmonic Stack: allocation engine and operator oversight

    A shallow embedding of [harmonic_launcher.py] (the slot allocation
    engine) and of [operator_oversight.py] (the context broker), together
    with the properties stated about them.

    Conventions of the embedding.
    - Python [int] is [Z].
    - The allocator is embedded twice.  [Launcher64] follows the
      arithmetic of the interpreter: a [float] is an IEEE 754 binary64
      number, every product, sum, difference and [round] rounds to
      nearest, an [int] that meets a [float] is converted and
      [OverflowError] is raised when it does not fit.  Every property that
      depends on a memory figure is stated there.  [Launcher] reads the
      same code over exact rationals [Q]; it carries the properties of the
      processing order and of the degrees that hold whatever the rounding.
    - A [dict] is a [gmap]; a [dict] entry with fixed keys is a record.
    - A Python [str] is a [string]; one character stands for one code
      point (those below 256 are represented).
    - Code that can raise is written in a small error monad and
      [try]/[except] is a catch combinator.
    - An [async] method is run to completion: the answer of the generation
      service is an argument, and the requests sent are part of the
      result.  Interleavings of concurrent calls are not modelled. *)

From Stdlib Require Import QArith Qround Qminmax Qpower Lqa ZArith Ascii String SpecFloat.
From stdpp Require Import gmap strings list fin_maps pretty sorting.

Local Open Scope Z_scope.

(** ** Python numerics *)

(** [int(x)] on a number: truncation toward zero. *)
Definition py_int (x : Q) : Z := Z.quot (Qnum x) (Zpos (Qden x)).

(** Round half to even, the tie rule of [round]. *)
Definition round_half_even (x : Q) : Z :=
  let f := Qfloor x in
  match (x - inject_Z f ?= 1 # 2)%Q with
  | Lt => f
  | Gt => f + 1
  | Eq => if Z.even f then f else f + 1
  end.

(** [round(x, 1)]. *)
Definition py_round1 (x : Q) : Q := (inject_Z (round_half_even (x * 10)) / 10)%Q.

(** ** harmonic_launcher.py, the allocation over exact rationals *)

Module Launcher.

Record ModelSpec := {
  base_gb : Q;
  kv_gb : Q;
  tier : Z;
  source : string
}.

Definition spec_4b : ModelSpec :=
  {| base_gb := 2.5; kv_gb := 0.3; tier := 1; source := "qwen3:4b" |}.
Definition spec_8b (t : Z) : ModelSpec :=
  {| base_gb := 5.2; kv_gb := 0.5; tier := t; source := "qwen3:8b" |}.
Definition spec_14b : ModelSpec :=
  {| base_gb := 9.3; kv_gb := 0.8; tier := 3; source := "qwen3:14b" |}.
Definition spec_30b : ModelSpec :=
  {| base_gb := 18.0; kv_gb := 1.2; tier := 4; source := "qwen3:30b-a3b" |}.

(** The [MODELS] table, in the order of the source. *)
Definition MODELS_items : list (string * ModelSpec) :=
  [ ("executive", spec_4b);
    ("operator", spec_4b);
    ("technical_director", spec_8b 2);
    ("research_director", spec_8b 2);
    ("creative_director", spec_8b 2);
    ("analyst", spec_8b 3);
    ("coder", spec_14b);
    ("architect", spec_30b);
    ("qwen3:4b", spec_4b);
    ("qwen3:8b", spec_8b 2);
    ("qwen3:14b", spec_14b);
    ("qwen3:30b-a3b", spec_30b) ].

Definition MODELS : gmap string ModelSpec := list_to_map MODELS_items.

(** [MODELS.get(m, MODELS['qwen3:4b'])]. *)
Definition lookup_spec (m : string) : ModelSpec :=
  default spec_4b (MODELS !! m).

Definition PARALLEL_STEPS : list Z := [24; 20; 16; 12; 8; 6; 4; 2; 1].

(** The hardware dictionary.  [gpu_mem_gb] is read with [hardware[...]],
    the other three keys with [hardware.get(key, default)]. *)
Record Hardware := {
  gpu_mem_gb : Q;
  reserve_pct : option Q;
  peak_parallel : option Z;
  max_parallel : option Z
}.

Definition hw_reserve (hw : Hardware) : Q := default 0.15%Q (reserve_pct hw).
Definition hw_peak (hw : Hardware) : Z := default 16 (peak_parallel hw).
Definition hw_max (hw : Hardware) : Z := default 24 (max_parallel hw).

(** One value of the [allocation] dictionary.  The allocated branch of the
    source writes no ['status'] key, the skipped branch writes
    ['skipped']. *)
Record AllocationEntry := {
  parallel : Z;
  memory_gb : Q;
  a_tier : Z;
  a_source : string;
  status : option string
}.

Definition model_memory (model_name : string) (p : Z) : Q :=
  let spec := lookup_spec model_name in
  (base_gb spec + inject_Z p * kv_gb spec)%Q.

(** [available = gpu_mem * (1 - reserve)]. *)
Definition budget (hw : Hardware) : Q := (gpu_mem_gb hw * (1 - hw_reserve hw))%Q.

(** Stable sort by tier, as [list.sort(key=...)] is. *)
Fixpoint insert_by_tier (x : string * ModelSpec) (l : list (string * ModelSpec))
  : list (string * ModelSpec) :=
  match l with
  | [] => [x]
  | y :: l' =>
      if tier (snd x) <=? tier (snd y) then x :: y :: l'
      else y :: insert_by_tier x l'
  end.

Definition sort_by_tier (l : list (string * ModelSpec)) : list (string * ModelSpec) :=
  foldr insert_by_tier [] l.

Definition model_specs (models : list string) : list (string * ModelSpec) :=
  sort_by_tier ((λ m, (m, lookup_spec m)) <$> models).

(** The tier-based target before clamping. *)
Definition tier_target (peak t : Z) : Z :=
  if t =? 1 then peak
  else if t =? 2 then py_int (inject_Z peak * 0.75)
  else if t =? 3 then py_int (inject_Z peak * 0.5)
  else py_int (inject_Z peak * 0.33).

Definition target_parallel (hw : Hardware) (min_parallel t : Z) : Z :=
  Z.max min_parallel (Z.min (tier_target (hw_peak hw) t) (hw_max hw)).

(** The scan [for p in PARALLEL_STEPS]: [continue] above the target,
    [break] below [min_parallel], stop at the first step that fits. *)
Fixpoint scan_steps (steps : list Z) (model_name : string)
    (target min_parallel : Z) (available : Q) : option (Z * Q) :=
  match steps with
  | [] => None
  | p :: rest =>
      if target <? p then scan_steps rest model_name target min_parallel available
      else if p <? min_parallel then None
      else
        let mem_needed := model_memory model_name p in
        if Qle_bool mem_needed available then Some (p, mem_needed)
        else scan_steps rest model_name target min_parallel available
  end.

Definition skipped_entry (spec : ModelSpec) : AllocationEntry :=
  {| parallel := 0; memory_gb := 0; a_tier := tier spec;
     a_source := source spec; status := Some "skipped" |}.

Definition allocated_entry (spec : ModelSpec) (p : Z) (mem_needed : Q)
  : AllocationEntry :=
  {| parallel := p; memory_gb := py_round1 mem_needed; a_tier := tier spec;
     a_source := source spec; status := None |}.

(** The body of the loop over [model_specs]; the state is the pair of the
    [allocation] dictionary and [available]. *)
Definition alloc_model (hw : Hardware) (min_parallel : Z)
    (st : gmap string AllocationEntry * Q) (ms : string * ModelSpec)
  : gmap string AllocationEntry * Q :=
  let '(allocation, available) := st in
  let '(model_name, spec) := ms in
  let target := target_parallel hw min_parallel (tier spec) in
  match scan_steps PARALLEL_STEPS model_name target min_parallel available with
  | Some (p, mem_needed) =>
      (<[model_name := allocated_entry spec p mem_needed]> allocation,
       (available - mem_needed)%Q)
  | None => (<[model_name := skipped_entry spec]> allocation, available)
  end.

(** The loop run over a list of (name, spec) pairs from the initial state. *)
Definition run_specs (hw : Hardware) (min_parallel : Z)
    (l : list (string * ModelSpec)) : gmap string AllocationEntry * Q :=
  fold_left (alloc_model hw min_parallel) l (∅, budget hw).

(** [allocate_stack] with the final value of [available] kept. *)
Definition allocate_run (models : list string) (hw : Hardware) (min_parallel : Z)
  : gmap string AllocationEntry * Q :=
  run_specs hw min_parallel (model_specs models).

Definition allocate_stack (models : list string) (hw : Hardware) (min_parallel : Z)
  : gmap string AllocationEntry :=
  fst (allocate_run models hw min_parallel).

(** *** Notions used to state the properties *)

(** A step is a candidate for a model when the scan may commit it. *)
Definition candidate (model_name : string) (target min_parallel : Z)
    (available : Q) (p : Z) : Prop :=
  p ∈ PARALLEL_STEPS ∧ p ≤ target ∧ min_parallel ≤ p ∧
  (model_memory model_name p <= available)%Q.

(** The row [generic_24gb] of [HARDWARE_PROFILES]. *)
Definition generic_24gb : Hardware :=
  {| gpu_mem_gb := 24; reserve_pct := Some 0.20%Q;
     peak_parallel := Some 4; max_parallel := Some 8 |}.

Definition catalogue_specs : list ModelSpec :=
  [spec_4b; spec_8b 2; spec_8b 3; spec_14b; spec_30b].

(** Every cost of the catalogue is a positive number of tenths of a GB and
    every tier is one of 1, 2, 3, 4. *)
Definition spec_wf (s : ModelSpec) : Prop :=
  ∃ b k : Z, 0 < b ∧ 0 < k ∧
    (base_gb s * 10 == inject_Z b)%Q ∧ (kv_gb s * 10 == inject_Z k)%Q ∧
    1 ≤ tier s ≤ 4.

Definition tier_le (x y : string * ModelSpec) : Prop := tier (snd x) ≤ tier (snd y).



End Launcher.

(** ** operator_oversight.py *)

Module Oversight.

(** *** Python strings *)

Definition NL : string := String (ascii_of_nat 10) EmptyString.

(** [s[:n]] for a non-negative constant [n]. *)
Fixpoint str_take (n : nat) (s : string) : string :=
  match n, s with
  | S n', String c s' => String c (str_take n' s')
  | _, _ => EmptyString
  end.

(** [str.isspace] on the code points below 256. *)
Definition is_space (c : ascii) : bool :=
  match N_of_ascii c with
  | 9 | 10 | 11 | 12 | 13 | 28 | 29 | 30 | 31 | 32 | 133 | 160 => true
  | _ => false
  end%N.

Fixpoint lstrip (s : string) : string :=
  match s with
  | EmptyString => EmptyString
  | String c s' => if is_space c then lstrip s' else s
  end.

Fixpoint rstrip (s : string) : string :=
  match s with
  | EmptyString => EmptyString
  | String c s' =>
      match rstrip s' with
      | EmptyString => if is_space c then EmptyString else String c EmptyString
      | r => String c r
      end
  end.

(** [s.strip()]. *)
Definition strip (s : string) : string := rstrip (lstrip s).

(** Truth value of a string: non-empty. *)
Definition nonempty (s : string) : bool :=
  match s with EmptyString => false | _ => true end.

(** [sep.join(l)]. *)
Fixpoint join (sep : string) (l : list string) : string :=
  match l with
  | [] => EmptyString
  | [x] => x
  | x :: rest => x +:+ sep +:+ join sep rest
  end.

(** [l[-n:]] for a positive constant [n]. *)
Definition last_n {A} (n : nat) (l : list A) : list A := drop (length l - n) l.

(** *** The coordinator's state *)

Record ActivityEvent := {
  ev_task_id : string;
  ev_stage : string;
  ev_model : string;
  ev_category : string;
  ev_detail : string;
  ev_time : string
}.

Record Success := {
  s_category : string;
  s_approach : string;
  s_profile : string;
  s_count : Z
}.

Record Failure := {
  f_category : string;
  f_approach : string
}.

(** The fields of an [OperatorOversight] object; [has_client] tells whether
    [self._client] is set (the httpx client made by [initialize]). *)
Record OperatorOversight := {
  ollama_url : string;
  operator_model : string;
  operator_timeout : Z;
  activity_log : list ActivityEvent;
  successful_approaches : list Success;
  failed_approaches : list Failure;
  active_profiles : gmap string string;
  groups_processed : Z;
  total_suggestions_made : Z;
  has_client : bool
}.

Definition DEFAULT_OPERATOR_MODEL : string := "analyst".
Definition DEFAULT_OPERATOR_TIMEOUT : Z := 30.
Definition DEFAULT_OLLAMA_URL : string := "http://localhost:11434".

(** [__init__]. *)
Definition init (url model : string) (timeout : Z) : OperatorOversight :=
  {| ollama_url := url; operator_model := model; operator_timeout := timeout;
     activity_log := []; successful_approaches := []; failed_approaches := [];
     active_profiles := ∅; groups_processed := 0; total_suggestions_made := 0;
     has_client := false |}.

(** [initialize]: the httpx client is made when httpx can be imported. *)
Definition initialize (httpx_available : bool) (o : OperatorOversight) :=
  {| ollama_url := ollama_url o; operator_model := operator_model o;
     operator_timeout := operator_timeout o; activity_log := activity_log o;
     successful_approaches := successful_approaches o;
     failed_approaches := failed_approaches o;
     active_profiles := active_profiles o;
     groups_processed := groups_processed o;
     total_suggestions_made := total_suggestions_made o;
     has_client := httpx_available |}.

Definition set_activity_log (l : list ActivityEvent) (o : OperatorOversight) :=
  {| ollama_url := ollama_url o; operator_model := operator_model o;
     operator_timeout := operator_timeout o; activity_log := l;
     successful_approaches := successful_approaches o;
     failed_approaches := failed_approaches o;
     active_profiles := active_profiles o;
     groups_processed := groups_processed o;
     total_suggestions_made := total_suggestions_made o;
     has_client := has_client o |}.

Definition set_successful_approaches (l : list Success) (o : OperatorOversight) :=
  {| ollama_url := ollama_url o; operator_model := operator_model o;
     operator_timeout := operator_timeout o; activity_log := activity_log o;
     successful_approaches := l;
     failed_approaches := failed_approaches o;
     active_profiles := active_profiles o;
     groups_processed := groups_processed o;
     total_suggestions_made := total_suggestions_made o;
     has_client := has_client o |}.

Definition set_failed_approaches (l : list Failure) (o : OperatorOversight) :=
  {| ollama_url := ollama_url o; operator_model := operator_model o;
     operator_timeout := operator_timeout o; activity_log := activity_log o;
     successful_approaches := successful_approaches o;
     failed_approaches := l;
     active_profiles := active_profiles o;
     groups_processed := groups_processed o;
     total_suggestions_made := total_suggestions_made o;
     has_client := has_client o |}.

Definition set_active_profiles (m : gmap string string) (o : OperatorOversight) :=
  {| ollama_url := ollama_url o; operator_model := operator_model o;
     operator_timeout := operator_timeout o; activity_log := activity_log o;
     successful_approaches := successful_approaches o;
     failed_approaches := failed_approaches o;
     active_profiles := m;
     groups_processed := groups_processed o;
     total_suggestions_made := total_suggestions_made o;
     has_client := has_client o |}.

Definition set_groups_processed (n : Z) (o : OperatorOversight) :=
  {| ollama_url := ollama_url o; operator_model := operator_model o;
     operator_timeout := operator_timeout o; activity_log := activity_log o;
     successful_approaches := successful_approaches o;
     failed_approaches := failed_approaches o;
     active_profiles := active_profiles o;
     groups_processed := n;
     total_suggestions_made := total_suggestions_made o;
     has_client := has_client o |}.

Definition set_total_suggestions_made (n : Z) (o : OperatorOversight) :=
  {| ollama_url := ollama_url o; operator_model := operator_model o;
     operator_timeout := operator_timeout o; activity_log := activity_log o;
     successful_approaches := successful_approaches o;
     failed_approaches := failed_approaches o;
     active_profiles := active_profiles o;
     groups_processed := groups_processed o;
     total_suggestions_made := n;
     has_client := has_client o |}.

(** *** Observation methods.  [now] is [datetime.now().isoformat()]. *)

Definition observe (o : OperatorOversight) (now task_id stage model category detail : string)
  : OperatorOversight :=
  set_activity_log
    (activity_log o ++
     [ {| ev_task_id := task_id; ev_stage := stage; ev_model := model;
          ev_category := category; ev_detail := str_take 300 detail;
          ev_time := now |} ]) o.

Definition record_profile (o : OperatorOversight) (task_id profile : string)
  : OperatorOversight :=
  set_active_profiles (<[task_id := str_take 500 profile]> (active_profiles o)) o.

Definition record_success (o : OperatorOversight) (category approach : string)
    (count : Z) (profile : string) : OperatorOversight :=
  set_successful_approaches
    (successful_approaches o ++
     [ {| s_category := category; s_approach := str_take 400 approach;
          s_profile := str_take 400 profile; s_count := count |} ]) o.

Definition record_failure (o : OperatorOversight) (category approach : string)
  : OperatorOversight :=
  set_failed_approaches
    (failed_approaches o ++
     [ {| f_category := category; f_approach := str_take 300 approach |} ]) o.

(** *** Briefing generation *)

Definition success_line (s : Success) : string :=
  "  [" +:+ s_category s +:+ "] " +:+ str_take 120 (s_approach s) +:+
  " -> solved " +:+ pretty (s_count s).

Definition _build_activity_summary (o : OperatorOversight) (category : string) : string :=
  let lines1 :=
    match successful_approaches o with
    | [] => []
    | _ =>
        ("SOLVED (" +:+ pretty (length (successful_approaches o)) +:+ " groups so far):")
        :: map success_line (last_n 5 (successful_approaches o))
    end in
  let cat_fails :=
    List.filter (λ f, String.eqb (f_category f) category) (failed_approaches o) in
  let lines2 :=
    match cat_fails with
    | [] => []
    | _ =>
        ("FAILED for " +:+ category +:+ " tasks:")
        :: map (λ f, "  " +:+ str_take 120 (f_approach f)) (last_n 3 cat_fails)
    end in
  let other_fails :=
    last_n 2
      (List.filter (λ f, negb (String.eqb (f_category f) category)) (failed_approaches o)) in
  let lines3 :=
    match other_fails with
    | [] => []
    | _ =>
        "Other failed approaches:"
        :: map (λ f, "  [" +:+ f_category f +:+ "] " +:+ str_take 80 (f_approach f))
             other_fails
    end in
  join NL (lines1 ++ lines2 ++ lines3).

(** *** Exceptions *)

(** The exceptions of the briefing path; all derive from [Exception]. *)
Inductive exn :=
  | TimeoutError
  | TransportError
  | JSONDecodeError
  | AttributeError.

Inductive result (A : Type) :=
  | Ok (a : A)
  | Raise (e : exn).
Arguments Ok {A} a.
Arguments Raise {A} e.

Definition bind {A B} (r : result A) (k : A → result B) : result B :=
  match r with
  | Ok a => k a
  | Raise e => Raise e
  end.

Notation "x <- r ;; k" := (bind r (λ x, k))
  (at level 100, r at next level, right associativity).

(** [try: body except Exception: handler]. *)
Definition try_except {A} (body : result A) (handler : A) : A :=
  match body with
  | Ok a => a
  | Raise _ => handler
  end.

(** *** The generation service *)

(** A decoded JSON value, which is also the type of what [_generate]
    returns: [JNull] is [None]. *)
#[warnings="-register-all"]
Inductive json :=
  | JNull
  | JBool (b : bool)
  | JNum (q : Q)
  | JStr (s : string)
  | JArr (l : list json)
  | JObj (d : list (string * json)).

(** Truth value of a Python object. *)
Definition truthy (v : json) : bool :=
  match v with
  | JNull => false
  | JBool b => b
  | JNum q => negb (Qeq_bool q 0)
  | JStr s => nonempty s
  | JArr l => match l with [] => false | _ => true end
  | JObj d => match d with [] => false | _ => true end
  end.

Fixpoint assoc (key : string) (d : list (string * json)) : option json :=
  match d with
  | [] => None
  | (k, v) :: d' => if String.eqb k key then Some v else assoc key d'
  end.

(** [data.get(key, dflt)]: an [AttributeError] unless [data] is a dict. *)
Definition dict_get (data : json) (key : string) (dflt : json) : result json :=
  match data with
  | JObj d => Ok (default dflt (assoc key d))
  | _ => Raise AttributeError
  end.

(** The request posted to [/api/generate]. *)
Record Request := {
  req_url : string;
  req_model : string;
  req_prompt : string;
  req_system : option string;
  req_stream : bool;
  req_think : bool;
  req_temperature : Q;
  req_num_predict : Z;
  req_timeout : Z
}.

(** What the service does with a request: the post raises, or it answers
    with a status code and a body, whose decoding [resp.json()] raises
    ([None]) or yields a value. *)
Inductive Reply :=
  | PostRaises (e : exn)
  | Response (status_code : Z) (body : option json).

Definition Service := Request → Reply.

Definition make_request (o : OperatorOversight) (prompt system : string) : Request :=
  {| req_url := ollama_url o +:+ "/api/generate";
     req_model := operator_model o;
     req_prompt := prompt;
     req_system := if nonempty system then Some system else None;
     req_stream := false;
     req_think := false;
     req_temperature := 0.3;
     req_num_predict := 512;
     req_timeout := operator_timeout o |}.

Definition post (net : Service) (r : Request) : result (Z * option json) :=
  match net r with
  | PostRaises e => Raise e
  | Response c b => Ok (c, b)
  end.

Definition resp_json (body : option json) : result json :=
  match body with
  | Some data => Ok data
  | None => Raise JSONDecodeError
  end.

(** The [try] block of [_generate]. *)
Definition _generate_body (o : OperatorOversight) (net : Service) (r : Request)
  : result json :=
  if has_client o then
    resp <- post net r ;;
    if fst resp =? 200 then
      data <- resp_json (snd resp) ;;
      result <- dict_get data "response" (JStr "") ;;
      thinking <- dict_get data "thinking" JNull ;;
      if negb (truthy result) && truthy thinking then Ok thinking
      else Ok result
    else Ok JNull
  else
    resp <- post net r ;;
    if fst resp =? 200 then
      data <- resp_json (snd resp) ;;
      dict_get data "response" (JStr "")
    else Ok JNull.

(** [_generate]: the value returned and the requests sent. *)
Definition _generate (o : OperatorOversight) (net : Service) (prompt system : string)
  : json * list Request :=
  let r := make_request o prompt system in
  (try_except (_generate_body o net r) JNull, [r]).

Definition briefing_prompt (activity category : string) (group_size : Z)
    (profile : string) : string :=
  join NL
    [ "You are the Operator coordinating research across multiple task groups.";
      "";
      "Current batch progress:";
      activity;
      "";
      "A new group is about to be researched:";
      "- Category: " +:+ category;
      "- Group size: " +:+ pretty group_size +:+ " tasks";
      "- Profile: " +:+ str_take 300 profile;
      "";
      "In 2-3 sentences, suggest what the worker should consider:";
      "- What worked for similar tasks that might apply here?";
      "- What failed that should be avoided?";
      "- Any patterns you notice across groups?";
      "";
      "Be specific and concise. These are suggestions, not orders." ].

Definition briefing_system : string :=
  "You are the Operator - an executive coordinator for AI research. " +:+
  "Generate brief, specific suggestions to help workers " +:+
  "avoid duplicating effort. Be direct and actionable.".

Definition OPERATOR_NOTES : string := NL +:+ "[Operator notes] ".

(** [briefing.strip()]: an [AttributeError] unless [briefing] is a str. *)
Definition value_strip (v : json) : result string :=
  match v with
  | JStr s => Ok (strip s)
  | _ => Raise AttributeError
  end.

(** The part of [generate_briefing] after [_generate] has returned. *)
Definition use_briefing (o : OperatorOversight) (briefing : json)
  : result (string * OperatorOversight) :=
  if truthy briefing then
    stripped <- value_strip briefing ;;
    if 20 <? Z.of_nat (String.length stripped) then
      Ok (OPERATOR_NOTES +:+ stripped,
          set_total_suggestions_made (total_suggestions_made o + 1) o)
    else Ok (EmptyString, o)
  else Ok (EmptyString, o).

(** [generate_briefing]: the text, the new state and the requests sent. *)
Definition generate_briefing (o : OperatorOversight) (net : Service)
    (task_id category profile : string) (group_size : Z)
  : string * OperatorOversight * list Request :=
  match successful_approaches o, failed_approaches o with
  | [], [] => (EmptyString, o, [])
  | _, _ =>
      let activity := _build_activity_summary o category in
      if negb (nonempty (strip activity)) then (EmptyString, o, [])
      else
        let prompt := briefing_prompt activity category group_size profile in
        let '(briefing, sent) := _generate o net prompt briefing_system in
        let '(text, o') := try_except (use_briefing o briefing) (EmptyString, o) in
        (text, o', sent)
  end.

(** *** Main entry point *)

(** Tier 1: the mechanical lines. *)
Definition mechanical (o : OperatorOversight) (category : string) : list string :=
  let relevant_successes :=
    List.filter (λ s, String.eqb (s_category s) category) (successful_approaches o) in
  let m1 :=
    match relevant_successes with
    | [] => []
    | _ =>
        "Prior successes for similar tasks:"
        :: map (λ s, "  - " +:+ str_take 150 (s_approach s) +:+ " (solved " +:+
                     pretty (s_count s) +:+ ")")
             (take 3 relevant_successes)
    end in
  let cat_failures :=
    List.filter (λ f, String.eqb (f_category f) category) (failed_approaches o) in
  let m2 :=
    match cat_failures with
    | [] => []
    | _ =>
        "Prior failures (avoid):"
        :: map (λ f, "  - " +:+ str_take 100 (f_approach f)) (take 3 cat_failures)
    end in
  m1 ++ m2.

(** [[p for p in [mech_text, briefing] if p.strip()]] joined by a blank line. *)
Definition join_parts (mech_text briefing : string) : string :=
  join (NL +:+ NL)
    (List.filter (λ p, nonempty (strip p)) [mech_text; briefing]).

Definition total_approaches (o : OperatorOversight) : Z :=
  Z.of_nat (length (successful_approaches o)) + Z.of_nat (length (failed_approaches o)).

Definition get_context (o : OperatorOversight) (net : Service)
    (task_id category profile : string) (group_size : Z)
  : string * OperatorOversight * list Request :=
  let o1 := set_groups_processed (groups_processed o + 1) o in
  let mech_text := join NL (mechanical o1 category) in
  let '(briefing, o2, sent) :=
    if 2 <=? total_approaches o1
    then generate_briefing o1 net task_id category profile group_size
    else (EmptyString, o1, []) in
  (join_parts mech_text briefing, o2, sent).

(** *** Sequences of calls *)

Inductive Call :=
  | Observe (now task_id stage model category detail : string)
  | RecordProfile (task_id profile : string)
  | RecordSuccess (category approach : string) (count : Z) (profile : string)
  | RecordFailure (category approach : string)
  | GetContext (net : Service) (task_id category profile : string) (group_size : Z).

Definition call (o : OperatorOversight) (c : Call) : OperatorOversight :=
  match c with
  | Observe now task_id stage model category detail =>
      observe o now task_id stage model category detail
  | RecordProfile task_id profile => record_profile o task_id profile
  | RecordSuccess category approach count profile =>
      record_success o category approach count profile
  | RecordFailure category approach => record_failure o category approach
  | GetContext net task_id category profile group_size =>
      snd (fst (get_context o net task_id category profile group_size))
  end.

Definition run (o : OperatorOversight) (calls : list Call) : OperatorOversight :=
  fold_left call calls o.

(** A call that records no approach. *)
Definition records_nothing (c : Call) : Prop :=
  match c with
  | RecordSuccess _ _ _ _ | RecordFailure _ _ => False
  | _ => True
  end.

(** The caps of the stored texts. *)
Definition within_caps (o : OperatorOversight) : Prop :=
  Forall (λ e, (String.length (ev_detail e) ≤ 300)%nat) (activity_log o) ∧
  Forall (λ s, (String.length (s_approach s) ≤ 400)%nat ∧
               (String.length (s_profile s) ≤ 400)%nat) (successful_approaches o) ∧
  Forall (λ f, (String.length (f_approach f) ≤ 300)%nat) (failed_approaches o) ∧
  map_Forall (λ _ p, (String.length p ≤ 500)%nat) (active_profiles o).

(** Reduce the field reads of an updated state, and nothing else. *)
Ltac fields_simpl :=
  cbn [observe record_profile record_success record_failure
       set_activity_log set_successful_approaches set_failed_approaches
       set_active_profiles set_groups_processed set_total_suggestions_made
       activity_log successful_approaches failed_approaches active_profiles
       groups_processed total_suggestions_made
       ev_detail s_approach s_profile f_approach].

Definition starts_nonspace (s : string) : Prop :=
  match s with
  | EmptyString => False
  | String c _ => is_space c = false
  end.

(** The fields that [get_context] leaves alone. *)
Definition same_records (o o' : OperatorOversight) : Prop :=
  activity_log o' = activity_log o ∧
  successful_approaches o' = successful_approaches o ∧
  failed_approaches o' = failed_approaches o ∧
  active_profiles o' = active_profiles o.

Definition same_config (o o' : OperatorOversight) : Prop :=
  ollama_url o' = ollama_url o ∧ operator_model o' = operator_model o ∧
  operator_timeout o' = operator_timeout o ∧ has_client o' = has_client o.

(** Sample states and services. *)
Definition new_operator : OperatorOversight :=
  init DEFAULT_OLLAMA_URL DEFAULT_OPERATOR_MODEL DEFAULT_OPERATOR_TIMEOUT.

Definition two_failures : OperatorOversight :=
  record_failure
    (record_failure new_operator "spatial" "BFS flood fill")
    "spatial" "pixel-by-pixel comparison".

Definition padded_reply : string := "      Try a flood fill.      ".

Definition padded_service : Service :=
  λ _, Response 200 (Some (JObj [("response"%string, JStr padded_reply)])).

Definition long_reply : string := "Rotate the grid first, then recolour.".

Definition long_service : Service :=
  λ _, Response 200 (Some (JObj [("response"%string, JStr long_reply)])).

Definition thinking_only_service : Service :=
  λ _, Response 200
         (Some (JObj [("response"%string, JStr EmptyString);
                      ("thinking"%string, JStr "Reuse the rotation approach.")])).

(** A string of [n] copies of a character. *)
Fixpoint str_repeat (c : ascii) (n : nat) : string :=
  match n with
  | O => EmptyString
  | S n' => String c (str_repeat c n')
  end.

End Oversight.

(** ** harmonic_launcher.py: detection and start-up *)

Module Startup.
Import Launcher.

(** *** Python strings, continued *)

(** [pat in s]. *)
Fixpoint contains (pat s : string) : bool :=
  String.prefix pat s ||
  match s with
  | EmptyString => false
  | String _ s' => contains pat s'
  end.

Fixpoint str_map (f : ascii → ascii) (s : string) : string :=
  match s with
  | EmptyString => EmptyString
  | String c s' => String (f c) (str_map f s')
  end.

(** [str.lower] on the code points below 256. *)
Definition lower_char (c : ascii) : ascii :=
  let n := N_of_ascii c in
  if ((65 <=? n) && (n <=? 90))%N then ascii_of_N (n + 32)
  else if ((192 <=? n) && (n <=? 222) && negb (n =? 215))%N then ascii_of_N (n + 32)
  else c.

Definition lower (s : string) : string := str_map lower_char s.

(** [str.upper] on the code points below 256.  The three characters whose
    upper case is outside that range or is two characters long (181, 223
    and 255) are left alone; none of them is, or becomes, a character of
    the pattern that the source tests on the result. *)
Definition upper_char (c : ascii) : ascii :=
  let n := N_of_ascii c in
  if ((97 <=? n) && (n <=? 122))%N then ascii_of_N (n - 32)
  else if ((224 <=? n) && (n <=? 254) && negb (n =? 247))%N then ascii_of_N (n - 32)
  else c.

Definition upper (s : string) : string := str_map upper_char s.

(** *** Hardware profiles *)

(** One value of [HARDWARE_PROFILES]. *)
Record HardwareProfile := {
  hp_name : string;
  hp_gpu_mem_gb : Q;
  hp_peak_parallel : Z;
  hp_max_parallel : Z;
  hp_reserve_pct : Q;
  hp_env : gmap string string
}.

Definition hsa_env : gmap string string :=
  {[ "HSA_OVERRIDE_GFX_VERSION"%string := "11.0.0"%string ]}.

Definition dgx_spark : HardwareProfile :=
  {| hp_name := "NVIDIA DGX Spark (GB10)"; hp_gpu_mem_gb := 128;
     hp_peak_parallel := 16; hp_max_parallel := 32;
     hp_reserve_pct := 0.15; hp_env := ∅ |}.
Definition evo_x2_92gb : HardwareProfile :=
  {| hp_name := "AMD Ryzen AI MAX+ 395 (92GB GPU)"; hp_gpu_mem_gb := 92;
     hp_peak_parallel := 12; hp_max_parallel := 16;
     hp_reserve_pct := 0.15; hp_env := hsa_env |}.
Definition evo_x2_64gb : HardwareProfile :=
  {| hp_name := "AMD Ryzen AI MAX+ 395 (64GB GPU)"; hp_gpu_mem_gb := 64;
     hp_peak_parallel := 8; hp_max_parallel := 12;
     hp_reserve_pct := 0.15; hp_env := hsa_env |}.
Definition generic_48gb : HardwareProfile :=
  {| hp_name := "Generic 48GB GPU"; hp_gpu_mem_gb := 48;
     hp_peak_parallel := 8; hp_max_parallel := 12;
     hp_reserve_pct := 0.20; hp_env := ∅ |}.
Definition generic_24gb_profile : HardwareProfile :=
  {| hp_name := "Generic 24GB GPU"; hp_gpu_mem_gb := 24;
     hp_peak_parallel := 4; hp_max_parallel := 8;
     hp_reserve_pct := 0.20; hp_env := ∅ |}.
Definition generic_16gb : HardwareProfile :=
  {| hp_name := "Generic 16GB GPU"; hp_gpu_mem_gb := 16;
     hp_peak_parallel := 4; hp_max_parallel := 6;
     hp_reserve_pct := 0.20; hp_env := ∅ |}.

Definition HARDWARE_PROFILES_items : list (string * HardwareProfile) :=
  [ ("dgx_spark", dgx_spark);
    ("evo_x2_92gb", evo_x2_92gb);
    ("evo_x2_64gb", evo_x2_64gb);
    ("generic_48gb", generic_48gb);
    ("generic_24gb", generic_24gb_profile);
    ("generic_16gb", generic_16gb) ].

Definition HARDWARE_PROFILES : gmap string HardwareProfile :=
  list_to_map HARDWARE_PROFILES_items.

(** The dictionary that [detect_hardware] and [main] build: the keys
    ['profile'] and ['detected'] and the keys of a profile. *)
Record Detected := {
  d_profile : string;
  d_detected : string;
  d_hw : HardwareProfile
}.

(** [hw = HARDWARE_PROFILES[profile].copy(); hw['gpu_mem_gb'] = mem]. *)
Definition with_gpu_mem (mem : Q) (p : HardwareProfile) : HardwareProfile :=
  {| hp_name := hp_name p; hp_gpu_mem_gb := mem;
     hp_peak_parallel := hp_peak_parallel p; hp_max_parallel := hp_max_parallel p;
     hp_reserve_pct := hp_reserve_pct p; hp_env := hp_env p |}.

(** *** Hardware detection *)

(** What [detect_nvidia_gpu] returns when it finds a GPU. *)
Record NvidiaInfo := { nv_name : string; nv_memory_gb : Q }.

(** What [detect_amd_gpu] returns when it finds a GPU. *)
Record AmdInfo := { amd_name : string; amd_memory_gb : option Q }.

(** What the machine answers to the probes: [platform.system()], the
    content of [/etc/hostname] ([None] when reading it raises), the
    [k]-th call of [detect_nvidia_gpu], the output of the PowerShell query
    ([None] when it raises), the return code and output of [rocm-smi]
    ([None] when it raises), and [detect_system_memory()]. *)
Record Probes := {
  system : string;
  hostname_file : option string;
  nvidia_gpu : nat → option NvidiaInfo;
  powershell_gpu : option string;
  rocm_smi : option (Z * string);
  system_memory : Q
}.

Definition detect_amd_gpu (pr : Probes) : option AmdInfo :=
  if String.eqb (system pr) "Windows" then
    match powershell_gpu pr with
    | Some stdout =>
        if contains "Radeon" stdout then
          if contains "8060S" stdout || contains "MAX+" (upper stdout) then
            Some {| amd_name := "AMD Radeon 8060S (Ryzen AI MAX+)";
                    amd_memory_gb := None |}
          else None
        else None
    | None => None
    end
  else
    match rocm_smi pr with
    | Some (returncode, stdout) => None
    | None => None
    end.

Definition of_profile (key detected : string) (p : HardwareProfile) : Detected :=
  {| d_profile := key; d_detected := detected; d_hw := p |}.

(** The part of [detect_hardware] after the DGX Spark checks; [calls] is
    the number of calls of [detect_nvidia_gpu] made so far. *)
Definition detect_generic (pr : Probes) (calls : nat) : Detected :=
  match detect_amd_gpu pr with
  | Some amd =>
      if Qle_bool 120 (system_memory pr)
      then of_profile "evo_x2_92gb" (amd_name amd) evo_x2_92gb
      else of_profile "evo_x2_64gb" (amd_name amd) evo_x2_64gb
  | None =>
      match nvidia_gpu pr calls with
      | Some nvidia =>
          let mem := nv_memory_gb nvidia in
          if Qle_bool 100 mem
          then of_profile "dgx_spark" (nv_name nvidia) (with_gpu_mem mem dgx_spark)
          else if Qle_bool 40 mem
          then of_profile "generic_48gb" (nv_name nvidia) (with_gpu_mem mem generic_48gb)
          else if Qle_bool 20 mem
          then of_profile "generic_24gb" (nv_name nvidia)
                 (with_gpu_mem mem generic_24gb_profile)
          else of_profile "generic_16gb" (nv_name nvidia) (with_gpu_mem mem generic_16gb)
      | None =>
          if Qle_bool 120 (system_memory pr)
          then of_profile "evo_x2_92gb" "Unknown (128GB RAM)" evo_x2_92gb
          else if Qle_bool 60 (system_memory pr)
          then of_profile "evo_x2_64gb" "Unknown (64GB RAM)" evo_x2_64gb
          else of_profile "generic_24gb" "Unknown" generic_24gb_profile
      end
  end.

Definition hostname_is_dgx (content : string) : bool :=
  let hostname := lower (Oversight.strip content) in
  contains "dgx" hostname || contains "spark" hostname.

Definition detect_hardware (pr : Probes) : Detected :=
  if String.eqb (system pr) "Linux" then
    if match hostname_file pr with
       | Some content => hostname_is_dgx content
       | None => false
       end
    then of_profile "dgx_spark" "DGX Spark (hostname)" dgx_spark
    else
      match nvidia_gpu pr 0 with
      | Some nvidia =>
          if contains "GB10" (nv_name nvidia)
          then of_profile "dgx_spark" (nv_name nvidia) dgx_spark
          else detect_generic pr 1
      | None => detect_generic pr 1
      end
  else detect_generic pr 0.

(** *** Starting the server *)

(** The environment that [start_ollama] passes to the server. *)
Definition start_env (environ : gmap string string) (hardware_env : gmap string string)
    (max_parallel : Z) : gmap string string :=
  map_fold (λ key val env, <[key := val]> env)
    (<["OLLAMA_NUM_PARALLEL"%string := pretty max_parallel]> environ)
    hardware_env.

(** The start-up wait of [start_ollama]: up to [fuel] rounds of one second
    of sleep and one call of [check_ollama_running]; [poll k] is the answer
    of the call number [k].  Returns the result and the number of calls
    made. *)
Fixpoint wait_rounds (fuel : nat) (poll : nat → bool) (k : nat) : bool * nat :=
  match fuel with
  | O => (false, k)
  | S fuel' => if poll k then (true, S k) else wait_rounds fuel' poll (S k)
  end.

Definition wait_for_startup (poll : nat → bool) : bool * nat :=
  wait_rounds 30 poll 0.

(** *** The parallel setting of [main] *)

(** [max(l)]; [None] stands for the [ValueError] on an empty sequence. *)
Definition py_max (l : list Z) : option Z :=
  match l with
  | [] => None
  | x :: rest => Some (foldl Z.max x rest)
  end.

(** [max(cfg.get('parallel', 1) for cfg in allocation.values())]. *)
Definition max_parallel_setting (allocation : gmap string AllocationEntry) : option Z :=
  py_max ((λ kv, parallel (snd kv)) <$> map_to_list allocation).

(** *** Notions used to state the properties *)


(** What [detect_hardware] can return: a profile of the table under its
    own key, with the memory of the table or, on the generic NVIDIA path,
    the memory that [detect_nvidia_gpu] reported. *)
Definition from_table (pr : Probes) (d : Detected) : Prop :=
  ∃ p, (d_profile d, p) ∈ HARDWARE_PROFILES_items ∧
       (d_hw d = p
        ∨ ∃ k nvidia, (k ≤ 1)%nat ∧ nvidia_gpu pr k = Some nvidia ∧
                      d_hw d = with_gpu_mem (nv_memory_gb nvidia) p ∧
                      d_detected d = nv_name nvidia).

Ltac table_entry :=
  unfold HARDWARE_PROFILES_items; repeat (first [by left | right]).

End Startup.

(** ** operator_oversight.py: reporting *)

Module Reporting.
Import Oversight.

(** The dictionary returned by [summary]. *)
Record Summary := {
  sum_groups_processed : Z;
  sum_successful_approaches : nat;
  sum_failed_approaches : nat;
  sum_suggestions_generated : Z;
  sum_profiles_cached : nat;
  sum_total_observations : nat
}.

Definition summary (o : OperatorOversight) : Summary :=
  {| sum_groups_processed := groups_processed o;
     sum_successful_approaches := length (successful_approaches o);
     sum_failed_approaches := length (failed_approaches o);
     sum_suggestions_generated := total_suggestions_made o;
     sum_profiles_cached := size (active_profiles o);
     sum_total_observations := length (activity_log o) |}.

(** The number of calls of a list that satisfy a test. *)
Definition count_calls (test : Call → bool) (calls : list Call) : nat :=
  length (List.filter test calls).

Definition is_observe (c : Call) : bool :=
  match c with Observe _ _ _ _ _ _ => true | _ => false end.
Definition is_record_profile (c : Call) : bool :=
  match c with RecordProfile _ _ => true | _ => false end.
Definition is_record_success (c : Call) : bool :=
  match c with RecordSuccess _ _ _ _ => true | _ => false end.
Definition is_record_failure (c : Call) : bool :=
  match c with RecordFailure _ _ => true | _ => false end.
Definition is_get_context (c : Call) : bool :=
  match c with GetContext _ _ _ _ _ => true | _ => false end.

(** The successes and the failures of one category. *)
Definition successes_of (o : OperatorOversight) (category : string) : list Success :=
  List.filter (λ s, String.eqb (s_category s) category) (successful_approaches o).
Definition failures_of (o : OperatorOversight) (category : string) : list Failure :=
  List.filter (λ f, String.eqb (f_category f) category) (failed_approaches o).

(** The items and the two blocks of the tier-1 lines. *)
Definition success_item (s : Success) : string :=
  "  - " +:+ str_take 150 (s_approach s) +:+ " (solved " +:+ pretty (s_count s) +:+ ")".

Definition failure_item (f : Failure) : string :=
  "  - " +:+ str_take 100 (f_approach f).

Definition success_block (l : list Success) : list string :=
  match l with
  | [] => []
  | _ => "Prior successes for similar tasks:"%string :: map success_item (take 3 l)
  end.

Definition failure_block (l : list Failure) : list string :=
  match l with
  | [] => []
  | _ => "Prior failures (avoid):"%string :: map failure_item (take 3 l)
  end.

(** What a call appends to the activity log, to the successes and to the
    failures. *)
Definition event_of (c : Call) : option ActivityEvent :=
  match c with
  | Observe now task_id stage model category detail =>
      Some {| ev_task_id := task_id; ev_stage := stage; ev_model := model;
              ev_category := category; ev_detail := str_take 300 detail;
              ev_time := now |}
  | _ => None
  end.

Definition success_of (c : Call) : option Success :=
  match c with
  | RecordSuccess category approach count profile =>
      Some {| s_category := category; s_approach := str_take 400 approach;
              s_profile := str_take 400 profile; s_count := count |}
  | _ => None
  end.

Definition failure_of (c : Call) : option Failure :=
  match c with
  | RecordFailure category approach =>
      Some {| f_category := category; f_approach := str_take 300 approach |}
  | _ => None
  end.

(** The profile of the last [record_profile] call for a task. *)
Definition last_profile (task_id : string) (calls : list Call) : option string :=
  foldl (λ acc c,
           match c with
           | RecordProfile t profile =>
               if String.eqb t task_id then Some profile else acc
           | _ => acc
           end) None calls.

(** The answers of the service that give no briefing: the post raises,
    the status is not 200, the body does not decode, or it decodes to
    something that is not an object. *)
Definition service_fails (r : Reply) : Prop :=
  match r with
  | PostRaises _ => True
  | Response status_code body =>
      status_code ≠ 200 ∨
      match body with
      | None => True
      | Some (JObj _) => False
      | Some _ => True
      end
  end.

End Reporting.

(** ** Python numbers as the interpreter computes them *)

Module Binary64.

(** A Python [float] is an IEEE 754 binary64 number.  [spec_float] is the
    standard library's description of such numbers, with the operations
    rounding to nearest, ties to even. *)
Definition float : Type := spec_float.
Definition prec : Z := 53.
Definition emax : Z := 1024.

(** The float nearest to an integer. *)
Definition of_Z (n : Z) : float := binary_normalize prec emax n 0 false.

(** An integer as an unrounded significand with exponent 0. *)
Definition raw (n : Z) : float :=
  match n with
  | Z0 => S754_zero false
  | Zpos p => S754_finite false p 0
  | Zneg p => S754_finite true p 0
  end.

(** The float nearest to [n / d]. *)
Definition of_ratio (n : Z) (d : positive) : float :=
  SFdiv prec emax (raw n) (S754_finite false d 0).

(** A decimal literal of the source, read as Python reads it: the float
    nearest to [n / 10 ^ places], so that [decimal 25 1] is [2.5] and
    [decimal 15 2] is [0.15]. *)
Definition decimal (n : Z) (places : positive) : float :=
  of_ratio n (10 ^ places)%positive.

Definition fadd : float → float → float := SFadd prec emax.
Definition fsub : float → float → float := SFsub prec emax.
Definition fmul : float → float → float := SFmul prec emax.

(** The real number that a zero or a finite float stands for. *)
Definition to_Q (x : float) : Q :=
  match x with
  | S754_finite s m e => (inject_Z (cond_Zopp s (Zpos m)) * 2 ^ e)%Q
  | _ => 0%Q
  end.

(** [x <= y]: false when either side is a NaN, otherwise the order of the
    values, the infinities at both ends. *)
Definition fle (x y : float) : bool :=
  match x, y with
  | S754_nan, _ | _, S754_nan => false
  | S754_infinity true, _ => true
  | _, S754_infinity false => true
  | S754_infinity false, _ => false
  | _, S754_infinity true => false
  | _, _ => Qle_bool (to_Q x) (to_Q y)
  end.

(** The exceptions that arithmetic can raise. *)
Inductive error :=
  | OverflowError
  | ValueError.

Inductive result (A : Type) :=
  | Ok (a : A)
  | Raise (e : error).
Arguments Ok {A} a.
Arguments Raise {A} e.

Definition bind {A B} (r : result A) (k : A → result B) : result B :=
  match r with
  | Ok a => k a
  | Raise e => Raise e
  end.

Notation "x <- r ;; k" := (bind r (λ x, k))
  (at level 100, r at next level, right associativity).

Definition is_Ok {A} (r : result A) : Prop := ∃ a, r = Ok a.

(** The conversion of an [int] operand that meets a [float] operand:
    correctly rounded, [OverflowError] when the result is out of range. *)
Definition float_of_int (n : Z) : result float :=
  match of_Z n with
  | S754_infinity _ => Raise OverflowError
  | x => Ok x
  end.

(** [int(x)]: truncation toward zero. *)
Definition int_of_float (x : float) : result Z :=
  match x with
  | S754_nan => Raise ValueError
  | S754_infinity _ => Raise OverflowError
  | S754_zero _ => Ok 0
  | S754_finite s m e => Ok (cond_Zopp s (Z.shiftl (Zpos m) e))
  end.

(** A dictionary value that is an [int] in some places and a [float] in
    others. *)
Inductive number :=
  | Int (n : Z)
  | Float (x : float).

Definition to_float (v : number) : result float :=
  match v with
  | Int n => float_of_int n
  | Float x => Ok x
  end.


(** [round(x, 1)]: the value is rounded to a whole number of tenths, ties
    to even, and the result is the float nearest to that decimal; an
    infinity or a NaN is returned as it is. *)
Definition round1 (x : float) : float :=
  match x with
  | S754_finite s _ _ =>
      let n := round_half_even (to_Q x * 10) in
      if n =? 0 then S754_zero s else of_ratio n 10
  | _ => x
  end.


(** [0 <= x]: a zero, a positive float or plus infinity. *)
Definition nonneg (x : float) : Prop := fle (of_Z 0) x = true.

End Binary64.

(** ** harmonic_launcher.py, the allocation in the code's arithmetic *)

Module Launcher64.
Import Binary64.

Record ModelSpec := {
  base_gb : float;
  kv_gb : float;
  tier : Z;
  source : string
}.

Definition spec_4b : ModelSpec :=
  {| base_gb := decimal 25 1; kv_gb := decimal 3 1; tier := 1;
     source := "qwen3:4b" |}.
Definition spec_8b (t : Z) : ModelSpec :=
  {| base_gb := decimal 52 1; kv_gb := decimal 5 1; tier := t;
     source := "qwen3:8b" |}.
Definition spec_14b : ModelSpec :=
  {| base_gb := decimal 93 1; kv_gb := decimal 8 1; tier := 3;
     source := "qwen3:14b" |}.
Definition spec_30b : ModelSpec :=
  {| base_gb := decimal 180 1; kv_gb := decimal 12 1; tier := 4;
     source := "qwen3:30b-a3b" |}.

(** The [MODELS] table, in the order of the source. *)
Definition MODELS_items : list (string * ModelSpec) :=
  [ ("executive", spec_4b);
    ("operator", spec_4b);
    ("technical_director", spec_8b 2);
    ("research_director", spec_8b 2);
    ("creative_director", spec_8b 2);
    ("analyst", spec_8b 3);
    ("coder", spec_14b);
    ("architect", spec_30b);
    ("qwen3:4b", spec_4b);
    ("qwen3:8b", spec_8b 2);
    ("qwen3:14b", spec_14b);
    ("qwen3:30b-a3b", spec_30b) ].

Definition MODELS : gmap string ModelSpec := list_to_map MODELS_items.

(** [MODELS.get(m, MODELS['qwen3:4b'])]. *)
Definition lookup_spec (m : string) : ModelSpec :=
  default spec_4b (MODELS !! m).

Definition PARALLEL_STEPS : list Z := [24; 20; 16; 12; 8; 6; 4; 2; 1].

(** The hardware dictionary, with values of the types that the profile
    table, the detection and [--gpu-mem] give them: [gpu_mem_gb] is an
    [int] or a [float], [reserve_pct] a [float], the degrees are [int]s.
    [gpu_mem_gb] is read with [hardware[...]], the other three keys with
    [hardware.get(key, default)]. *)
Record Hardware := {
  gpu_mem_gb : number;
  reserve_pct : option float;
  peak_parallel : option Z;
  max_parallel : option Z
}.

Definition hw_reserve (hw : Hardware) : float :=
  default (decimal 15 2) (reserve_pct hw).
Definition hw_peak (hw : Hardware) : Z := default 16 (peak_parallel hw).
Definition hw_max (hw : Hardware) : Z := default 24 (max_parallel hw).

(** One value of the [allocation] dictionary.  The allocated branch writes
    a rounded float under ['memory_gb'] and no ['status'] key, the skipped
    branch writes the [int] 0 and ['skipped']. *)
Record AllocationEntry := {
  parallel : Z;
  memory_gb : number;
  a_tier : Z;
  a_source : string;
  status : option string
}.

(** [spec['base_gb'] + (parallel * spec['kv_gb'])]. *)
Definition model_memory (model_name : string) (p : Z) : result float :=
  let spec := lookup_spec model_name in
  x <- float_of_int p ;;
  Ok (fadd (base_gb spec) (fmul x (kv_gb spec))).

(** [available = gpu_mem * (1 - reserve)]. *)
Definition budget (hw : Hardware) : result float :=
  g <- to_float (gpu_mem_gb hw) ;;
  Ok (fmul g (fsub (of_Z 1) (hw_reserve hw))).

(** Stable sort by tier, as [list.sort(key=...)] is. *)
Fixpoint insert_by_tier (x : string * ModelSpec) (l : list (string * ModelSpec))
  : list (string * ModelSpec) :=
  match l with
  | [] => [x]
  | y :: l' =>
      if tier (snd x) <=? tier (snd y) then x :: y :: l'
      else y :: insert_by_tier x l'
  end.

Definition sort_by_tier (l : list (string * ModelSpec)) : list (string * ModelSpec) :=
  foldr insert_by_tier [] l.

Definition model_specs (models : list string) : list (string * ModelSpec) :=
  sort_by_tier ((λ m, (m, lookup_spec m)) <$> models).

(** [int(peak_parallel * f)]. *)
Definition scaled (peak : Z) (f : float) : result Z :=
  x <- float_of_int peak ;;
  int_of_float (fmul x f).

(** The tier-based target before clamping. *)
Definition tier_target (peak t : Z) : result Z :=
  if t =? 1 then Ok peak
  else if t =? 2 then scaled peak (decimal 75 2)
  else if t =? 3 then scaled peak (decimal 5 1)
  else scaled peak (decimal 33 2).

Definition target_parallel (hw : Hardware) (min_parallel t : Z) : result Z :=
  target <- tier_target (hw_peak hw) t ;;
  Ok (Z.max min_parallel (Z.min target (hw_max hw))).

(** The scan [for p in PARALLEL_STEPS]: [continue] above the target,
    [break] below [min_parallel], stop at the first step that fits. *)
Fixpoint scan_steps (steps : list Z) (model_name : string)
    (target min_parallel : Z) (available : float) : result (option (Z * float)) :=
  match steps with
  | [] => Ok None
  | p :: rest =>
      if target <? p then scan_steps rest model_name target min_parallel available
      else if p <? min_parallel then Ok None
      else
        mem_needed <- model_memory model_name p ;;
        if fle mem_needed available then Ok (Some (p, mem_needed))
        else scan_steps rest model_name target min_parallel available
  end.

Definition skipped_entry (spec : ModelSpec) : AllocationEntry :=
  {| parallel := 0; memory_gb := Int 0; a_tier := tier spec;
     a_source := source spec; status := Some "skipped" |}.

Definition allocated_entry (spec : ModelSpec) (p : Z) (mem_needed : float)
  : AllocationEntry :=
  {| parallel := p; memory_gb := Float (round1 mem_needed); a_tier := tier spec;
     a_source := source spec; status := None |}.

(** The state of the loop: the [allocation] dictionary and [available]. *)
Definition State : Type := gmap string AllocationEntry * float.

(** The body of the loop over [model_specs]. *)
Definition alloc_model (hw : Hardware) (min_parallel : Z)
    (st : State) (ms : string * ModelSpec) : result State :=
  let '(allocation, available) := st in
  let '(model_name, spec) := ms in
  target <- target_parallel hw min_parallel (tier spec) ;;
  found <- scan_steps PARALLEL_STEPS model_name target min_parallel available ;;
  match found with
  | Some (p, mem_needed) =>
      Ok (<[model_name := allocated_entry spec p mem_needed]> allocation,
          fsub available mem_needed)
  | None => Ok (<[model_name := skipped_entry spec]> allocation, available)
  end.

(** The loop from a given state: an exception ends it. *)
Fixpoint run_from (hw : Hardware) (min_parallel : Z)
    (l : list (string * ModelSpec)) (st : State) : result State :=
  match l with
  | [] => Ok st
  | x :: l' =>
      st' <- alloc_model hw min_parallel st x ;;
      run_from hw min_parallel l' st'
  end.

(** The budget is computed, then the loop is run from the empty
    dictionary. *)
Definition run_specs (hw : Hardware) (min_parallel : Z)
    (l : list (string * ModelSpec)) : result State :=
  available <- budget hw ;;
  run_from hw min_parallel l (∅, available).

(** [allocate_stack] with the final value of [available] kept. *)
Definition allocate_run (models : list string) (hw : Hardware) (min_parallel : Z)
  : result State :=
  run_specs hw min_parallel (model_specs models).

Definition allocate_stack (models : list string) (hw : Hardware) (min_parallel : Z)
  : result (gmap string AllocationEntry) :=
  st <- allocate_run models hw min_parallel ;;
  Ok (fst st).

(** *** Notions used to state the properties *)


(** A step is a candidate for a model when the scan may commit it: it is
    within the target, not below the minimum, and its memory fits what is
    available. *)
Definition candidate (model_name : string) (target min_parallel : Z)
    (available : float) (p : Z) : Prop :=
  p ∈ PARALLEL_STEPS ∧ p ≤ target ∧ min_parallel ≤ p ∧
  ∃ mem, model_memory model_name p = Ok mem ∧ fle mem available = true.

(** What one turn of the loop does to the state, for a model with a given
    target: the largest candidate is committed and its memory taken from
    what is available, or, without a candidate, the skipped entry is
    written and nothing is taken. *)
Definition turn (name : string) (spec : ModelSpec) (target min_parallel : Z)
    (st st' : State) : Prop :=
  (∃ p mem,
     candidate name target min_parallel (snd st) p ∧
     (∀ q, candidate name target min_parallel (snd st) q → q ≤ p) ∧
     model_memory name p = Ok mem ∧
     fst st' = <[name := allocated_entry spec p mem]> (fst st) ∧
     snd st' = fsub (snd st) mem)
  ∨ ((∀ q, ¬ candidate name target min_parallel (snd st) q) ∧
     fst st' = <[name := skipped_entry spec]> (fst st) ∧
     snd st' = snd st).

(** Reading the outcome of a run: the entry of a model, what is left
    available, the sum of the memory of the entries; nothing when the run
    raised. *)
Definition entry_of (r : result State) (name : string) : option AllocationEntry :=
  match r with
  | Ok st => fst st !! name
  | Raise _ => None
  end.



(** The fraction of the peak degree that the specification gives a tier. *)
Definition spec_fraction (t : Z) : Q :=
  if t =? 1 then 1 else if t =? 2 then 0.75 else if t =? 3 then 0.5 else 0.33.

Definition tier_le (x y : string * ModelSpec) : Prop := tier (snd x) ≤ tier (snd y).

Definition catalogue_specs : list ModelSpec :=
  [spec_4b; spec_8b 2; spec_8b 3; spec_14b; spec_30b].

(** An entry that the loop can write for a model: the skipped entry, or
    the entry of a step with the memory of the model at that step. *)
Definition written_for (name : string) (e : AllocationEntry) : Prop :=
  e = skipped_entry (lookup_spec name)
  ∨ ∃ p mem, p ∈ PARALLEL_STEPS ∧ model_memory name p = Ok mem ∧
             e = allocated_entry (lookup_spec name) p mem.

(** The rows of [HARDWARE_PROFILES], with the keys that [allocate_stack]
    reads. *)
Definition profile (gpu_mem : Z) (reserve : float) (peak maxp : Z) : Hardware :=
  {| gpu_mem_gb := Int gpu_mem; reserve_pct := Some reserve;
     peak_parallel := Some peak; max_parallel := Some maxp |}.

Definition HARDWARE_PROFILES : list (string * Hardware) :=
  [ ("dgx_spark", profile 128 (decimal 15 2) 16 32);
    ("evo_x2_92gb", profile 92 (decimal 15 2) 12 16);
    ("evo_x2_64gb", profile 64 (decimal 15 2) 8 12);
    ("generic_48gb", profile 48 (decimal 20 2) 8 12);
    ("generic_24gb", profile 24 (decimal 20 2) 4 8);
    ("generic_16gb", profile 16 (decimal 20 2) 4 6) ].

Definition generic_24gb : Hardware := profile 24 (decimal 20 2) 4 8.

(** The row [dgx_spark] with the memory overridden, as [--gpu-mem] does. *)
Definition dgx_spark (gpu_mem : Z) : Hardware := profile gpu_mem (decimal 15 2) 16 32.

(** The default model stack of [main]. *)
Definition default_models : list string :=
  [ "executive"; "operator";
    "technical_director"; "research_director"; "creative_director";
    "coder"; "analyst" ].

End Launcher64.

(** ** harmonic_launcher.py: the plan of [main] *)

Module Planning.
Import Binary64 Launcher64.

(** The float nearest to a rational. *)
Definition float_of_Q (q : Q) : float := of_ratio (Qnum q) (Qden q).

(** How [allocate_stack] reads a profile dictionary.  The memory that
    [detect_nvidia_gpu] reports is the float [int(mem_mb) / 1024]; the
    memory sizes of the table are [int]s that a float holds exactly, so
    that reading them as floats changes no product. *)
Definition hardware_of (p : Startup.HardwareProfile) : Hardware :=
  {| gpu_mem_gb := Float (float_of_Q (Startup.hp_gpu_mem_gb p));
     reserve_pct := Some (float_of_Q (Startup.hp_reserve_pct p));
     peak_parallel := Some (Startup.hp_peak_parallel p);
     max_parallel := Some (Startup.hp_max_parallel p) |}.

(** [hardware['gpu_mem_gb'] = args.gpu_mem]. *)
Definition with_gpu_mem (g : Z) (hw : Hardware) : Hardware :=
  {| gpu_mem_gb := Int g; reserve_pct := reserve_pct hw;
     peak_parallel := peak_parallel hw; max_parallel := max_parallel hw |}.

(** The arguments of [main] that decide the plan; [--gpu-mem] is parsed
    with [type=int]. *)
Record Args := {
  arg_profile : option string;
  arg_models : option (list string);
  arg_gpu_mem : option Z
}.

(** [args.models] if it is a non-empty list, else the default stack. *)
Definition main_models (args : Args) : list string :=
  match arg_models args with
  | Some (m :: rest) => m :: rest
  | _ => default_models
  end.

(** The hardware that [main] plans for.  [--profile] has the keys of
    [HARDWARE_PROFILES] as its [choices]: with any other value, the empty
    string included, the argument parser exits and there is no plan
    ([None]).  [--gpu-mem 0] is falsy and overrides nothing. *)
Definition main_hardware (args : Args) (pr : Startup.Probes) : option Hardware :=
  let chosen :=
    match arg_profile args with
    | Some key => hardware_of <$> Startup.HARDWARE_PROFILES !! key
    | None => Some (hardware_of (Startup.d_hw (Startup.detect_hardware pr)))
    end in
  match chosen with
  | Some hw =>
      match arg_gpu_mem args with
      | Some g => if g =? 0 then Some hw else Some (with_gpu_mem g hw)
      | None => Some hw
      end
  | None => None
  end.

(** [max(cfg.get('parallel', 1) for cfg in allocation.values())], which
    raises [ValueError] on an empty allocation. *)
Definition max_parallel_setting (allocation : gmap string AllocationEntry) : result Z :=
  match Startup.py_max ((λ kv, parallel (snd kv)) <$> map_to_list allocation) with
  | Some m => Ok m
  | None => Raise ValueError
  end.

(** The allocation and the server's parallel setting computed by [main]
    on the path that plans (without [--detect], which returns before). *)
Definition main_plan (args : Args) (pr : Startup.Probes)
  : option (result (gmap string AllocationEntry * Z)) :=
  match main_hardware args pr with
  | Some hw =>
      Some (allocation <- allocate_stack (main_models args) hw 1 ;;
            setting <- max_parallel_setting allocation ;;
            Ok (allocation, setting))
  | None => None
  end.

(** *** Notions used to state the properties *)

(** The peak degrees of [HARDWARE_PROFILES]. *)
Definition table_peaks : list Z := [4; 8; 12; 16].

End Planning.

(** ** Facts about the numerics *)


(** ** Facts about the allocator *)

Module LauncherFacts.
Import Launcher.

(** *** The catalogue *)

Lemma MODELS_lookup_items (m : string) (s : ModelSpec) :
  MODELS !! m = Some s → (m, s) ∈ MODELS_items.
Proof. unfold MODELS. apply elem_of_list_to_map_2. Qed.

Lemma lookup_spec_catalogue (m : string) : lookup_spec m ∈ catalogue_specs.
Proof.
  unfold lookup_spec. destruct (MODELS !! m) as [s|] eqn:E; simpl.
  - apply MODELS_lookup_items in E. unfold MODELS_items in E.
    repeat (apply elem_of_cons in E as [E|E];
            [injection E as _ ->; unfold catalogue_specs; set_solver|]).
    by apply elem_of_nil in E.
  - unfold catalogue_specs; set_solver.
Qed.

Lemma lookup_spec_wf (m : string) : spec_wf (lookup_spec m).
Proof.
  pose proof (lookup_spec_catalogue m) as H. unfold catalogue_specs in H.
  repeat (apply elem_of_cons in H as [->|H]);
    [ exists 25, 3 | exists 52, 5 | exists 52, 5 | exists 93, 8 | exists 180, 12 | by apply elem_of_nil in H ];
    (simpl; split_and!; first [lia | reflexivity]).
Qed.




(** *** The scan over the steps *)




(** *** Running the loop *)







(** *** The processing order *)

Lemma insert_by_tier_perm x l : insert_by_tier x l ≡ₚ x :: l.
Proof.
  induction l as [|y l IH]; cbn [insert_by_tier]; [done|].
  destruct (tier (snd x) <=? tier (snd y)); [done|].
  rewrite IH. apply Permutation_swap.
Qed.

Lemma sort_by_tier_perm l : sort_by_tier l ≡ₚ l.
Proof.
  induction l as [|x l IH]; [done|].
  cbn [sort_by_tier foldr]. rewrite insert_by_tier_perm. by f_equiv.
Qed.

Lemma insert_by_tier_app_low x A B :
  (∀ b, b ∈ B → tier (snd x) ≤ tier (snd b)) →
  insert_by_tier x (A ++ B) = insert_by_tier x A ++ B.
Proof.
  intros HB. induction A as [|a A IH]; cbn [insert_by_tier app].
  - destruct B as [|b B]; [done|]. cbn [insert_by_tier].
    assert (tier (snd x) ≤ tier (snd b)) as ->%Z.leb_le by (apply HB; by left).
    done.
  - destruct (tier (snd x) <=? tier (snd a)); [done|]. by rewrite IH.
Qed.

Lemma insert_by_tier_app_high x A B :
  (∀ a, a ∈ A → tier (snd a) < tier (snd x)) →
  insert_by_tier x (A ++ B) = A ++ insert_by_tier x B.
Proof.
  intros HA. induction A as [|a A IH]; cbn [insert_by_tier app]; [done|].
  assert (tier (snd a) < tier (snd x)) as ->%Z.leb_gt by (apply HA; by left).
  rewrite IH; [done|]. intros a' Ha'. apply HA. by right.
Qed.

(** The sort puts every pair of tier at most [t] before every pair of a
    higher tier, and keeps the order of the input inside both groups. *)
Lemma sort_by_tier_split (t : Z) l :
  sort_by_tier l
  = sort_by_tier (filter (λ x, tier (snd x) ≤ t) l)
    ++ sort_by_tier (filter (λ x, t < tier (snd x)) l).
Proof.
  induction l as [|x l IH]; [done|].
  cbn [sort_by_tier foldr]. fold (sort_by_tier l). rewrite IH.
  destruct (decide (tier (snd x) ≤ t)) as [Hx|Hx].
  - rewrite (filter_cons_True _ x l Hx).
    rewrite (filter_cons_False (λ x, t < tier (snd x)) x l) by lia.
    cbn [sort_by_tier foldr]. apply insert_by_tier_app_low.
    intros b Hb. rewrite sort_by_tier_perm in Hb.
    apply list_elem_of_filter in Hb as [Hb _]. lia.
  - rewrite (filter_cons_False _ x l Hx).
    rewrite (filter_cons_True (λ x, t < tier (snd x)) x l) by lia.
    cbn [sort_by_tier foldr]. apply insert_by_tier_app_high.
    intros a Ha. rewrite sort_by_tier_perm in Ha.
    apply list_elem_of_filter in Ha as [Ha _]. lia.
Qed.


Lemma filter_specs (P : Z → Prop) `{!∀ t, Decision (P t)} (models : list string) :
  filter (λ x : string * ModelSpec, P (tier (snd x)))
         ((λ m, (m, lookup_spec m)) <$> models)
  = (λ m, (m, lookup_spec m)) <$> filter (λ m, P (tier (lookup_spec m))) models.
Proof.
  induction models as [|m models IH]; [done|].
  rewrite fmap_cons, !filter_cons, IH. cbn [snd].
  by destruct (decide (P (tier (lookup_spec m)))).
Qed.

Lemma model_specs_split (t : Z) models :
  model_specs models
  = model_specs (filter (λ m, tier (lookup_spec m) ≤ t) models)
    ++ model_specs (filter (λ m, t < tier (lookup_spec m)) models).
Proof.
  unfold model_specs.
  rewrite (sort_by_tier_split t).
  pose proof (filter_specs (λ u, u ≤ t) models) as H1.
  pose proof (filter_specs (λ u, t < u) models) as H2.
  cbn beta in H1, H2. by rewrite H1, H2.
Qed.

(** *** Which keys the loop writes *)


(** *** The properties of [allocate_stack] *)


End LauncherFacts.
(** ** Facts about binary64 arithmetic *)

Module Binary64Facts.
Import Binary64.

Lemma bind_Ok {A B} (r : result A) (k : A → result B) (b : B) :
  bind r k = Ok b ↔ ∃ a, r = Ok a ∧ k a = Ok b.
Proof.
  destruct r as [a|e]; cbn [bind]; split.
  - intros H. by exists a.
  - by intros (a' & [= <-] & H).
  - done.
  - by intros (a' & [=] & _).
Qed.

Lemma bind_Raise {A B} (r : result A) (k : A → result B) (e : error) :
  bind r k = Raise e ↔ r = Raise e ∨ ∃ a, r = Ok a ∧ k a = Raise e.
Proof.
  destruct r as [a|e']; cbn [bind]; split.
  - intros H. right. by exists a.
  - intros [[=]|(a' & [= <-] & H)]. done.
  - intros [= ->]. by left.
  - intros [[= ->]|(a' & [=] & _)]. done.
Qed.

Lemma is_Ok_bind {A B} (r : result A) (k : A → result B) :
  is_Ok (bind r k) ↔ ∃ a, r = Ok a ∧ is_Ok (k a).
Proof.
  unfold is_Ok. split.
  - intros (b & (a & Ha & Hb)%bind_Ok). exists a. split; [done|]. by exists b.
  - intros (a & Ha & b & Hb). exists b. apply bind_Ok. by exists a.
Qed.

Lemma Ok_inj {A} (a b : A) : Ok a = Ok b → a = b.
Proof. by intros [= ->]. Qed.

Lemma not_Ok_Raise {A} (e : error) : ¬ is_Ok (@Raise A e).
Proof. by intros (a & [=]). Qed.

(** *** Rounding keeps the sign *)









(** *** Values *)

Lemma pow2_pos (e : Z) : (0 < 2 ^ e)%Q.
Proof. by apply Qpower_0_lt. Qed.

Lemma to_Q_pos (m : positive) (e : Z) : (0 < to_Q (S754_finite false m e))%Q.
Proof.
  cbn [to_Q cond_Zopp]. apply Qmult_lt_0_compat; [|apply pow2_pos].
  unfold Qlt. cbn. lia.
Qed.

Lemma to_Q_neg (m : positive) (e : Z) : (to_Q (S754_finite true m e) < 0)%Q.
Proof.
  pose proof (to_Q_pos m e) as H. cbn [to_Q cond_Zopp] in *.
  assert (inject_Z (- Z.pos m) * 2 ^ e == - (inject_Z (Z.pos m) * 2 ^ e))%Q as ->
    by (rewrite inject_Z_opp; ring).
  lra.
Qed.




(** *** Order *)

Lemma of_Z_0 : of_Z 0 = S754_zero false.
Proof. reflexivity. Qed.


Lemma nonneg_inv (x : float) :
  nonneg x →
  (∃ s, x = S754_zero s) ∨ x = S754_infinity false ∨ ∃ m e, x = S754_finite false m e.
Proof.
  unfold nonneg. rewrite of_Z_0.
  destruct x as [s|[]| |[] m e]; cbn [fle]; try done.
  - intros _. left. by exists s.
  - intros _. right. by left.
  - intros H%Qle_bool_iff. pose proof (to_Q_neg m e). cbn [to_Q] in *. lra.
  - intros _. right. right. by exists m, e.
Qed.


Lemma fle_trans (x y z : float) :
  fle x y = true → fle y z = true → fle x z = true.
Proof.
  destruct x as [sx|[]| |sx mx ex], y as [sy|[]| |sy my ey], z as [sz|[]| |sz mz ez];
    cbn [fle]; try done;
    rewrite ?Qle_bool_iff; intros H1 H2; lra.
Qed.

End Binary64Facts.

(** ** Facts about the allocator *)

Module Launcher64Facts.
Import Binary64 Launcher64 Binary64Facts.

(** *** The catalogue *)

Lemma MODELS_items_lookup (m : string) (s : ModelSpec) :
  MODELS !! m = Some s → (m, s) ∈ MODELS_items.
Proof. unfold MODELS. apply elem_of_list_to_map_2. Qed.

Lemma lookup_spec_in_catalogue (m : string) : lookup_spec m ∈ catalogue_specs.
Proof.
  unfold lookup_spec. destruct (MODELS !! m) as [s|] eqn:E; cbn [from_option id].
  - apply MODELS_items_lookup in E. unfold MODELS_items in E.
    repeat (apply elem_of_cons in E as [E|E];
            [injection E as _ ->; unfold catalogue_specs; set_solver|]).
    by apply elem_of_nil in E.
  - unfold catalogue_specs; set_solver.
Qed.


Lemma tier_in_range (m : string) : 1 ≤ tier (lookup_spec m) ≤ 4.
Proof.
  pose proof (lookup_spec_in_catalogue m) as H. unfold catalogue_specs in H.
  repeat (apply elem_of_cons in H as [->|H]); [..|by apply elem_of_nil in H];
    cbn [tier spec_4b spec_8b spec_14b spec_30b]; lia.
Qed.

Lemma steps_positive (p : Z) : p ∈ PARALLEL_STEPS → 1 ≤ p.
Proof.
  unfold PARALLEL_STEPS. intros H.
  repeat (apply elem_of_cons in H as [->|H]; [lia|]).
  by apply elem_of_nil in H.
Qed.

Lemma steps_descending : StronglySorted Z.gt PARALLEL_STEPS.
Proof.
  unfold PARALLEL_STEPS.
  repeat (apply SSorted_cons; [|repeat constructor; lia]).
  constructor.
Qed.

(** The memory of every model at every step is a positive finite float;
    no conversion of a step overflows. *)
Lemma model_memory_steps (name : string) (p : Z) :
  p ∈ PARALLEL_STEPS →
  ∃ m e, model_memory name p = Ok (S754_finite false m e).
Proof.
  intros Hp. unfold model_memory. cbv zeta.
  pose proof (lookup_spec_in_catalogue name) as Hs.
  revert Hs. generalize (lookup_spec name). intros s Hs.
  unfold catalogue_specs in Hs. unfold PARALLEL_STEPS in Hp.
  repeat (apply elem_of_cons in Hs as [->|Hs]); [..|by apply elem_of_nil in Hs];
    repeat (apply elem_of_cons in Hp as [->|Hp]); try (by apply elem_of_nil in Hp);
    vm_compute; by eexists _, _.
Qed.

Lemma model_memory_of_step (name : string) (p : Z) :
  p ∈ PARALLEL_STEPS →
  model_memory name p
  = Ok (fadd (base_gb (lookup_spec name)) (fmul (of_Z p) (kv_gb (lookup_spec name)))).
Proof.
  intros Hp. unfold model_memory. cbv zeta.
  assert (float_of_int p = Ok (of_Z p)) as ->; [|done].
  unfold PARALLEL_STEPS in Hp.
  repeat (apply elem_of_cons in Hp as [->|Hp]; [reflexivity|]).
  by apply elem_of_nil in Hp.
Qed.

(** *** The scan over the steps *)

Lemma scan_total steps name target minp avail :
  (∀ p, p ∈ steps → is_Ok (model_memory name p)) →
  is_Ok (scan_steps steps name target minp avail).
Proof.
  induction steps as [|q rest IH]; cbn [scan_steps]; intros Hall.
  { by eexists. }
  assert (is_Ok (scan_steps rest name target minp avail)) as Hrest.
  { apply IH. intros p Hp. apply Hall. by right. }
  destruct (target <? q); [done|].
  destruct (q <? minp); [by eexists|].
  destruct (Hall q) as [mem ->]; [by left|]. cbn [bind].
  destruct (fle mem avail); [by eexists|done].
Qed.

Lemma scan_found steps name target minp avail p mem :
  scan_steps steps name target minp avail = Ok (Some (p, mem)) →
  p ∈ steps ∧ p ≤ target ∧ minp ≤ p ∧
  model_memory name p = Ok mem ∧ fle mem avail = true.
Proof.
  induction steps as [|q rest IH]; cbn [scan_steps]; [done|].
  destruct (target <? q) eqn:E1.
  { intros H. destruct (IH H) as (? & ?). split; [by right|done]. }
  destruct (q <? minp) eqn:E2; [done|].
  destruct (model_memory name q) as [mq|e] eqn:Eq; cbn [bind]; [|done].
  destruct (fle mq avail) eqn:E3.
  - intros [= <- <-]. apply Z.ltb_ge in E1, E2.
    repeat split; try done. by left.
  - intros H. destruct (IH H) as (? & ?). split; [by right|done].
Qed.

Lemma scan_found_largest steps name target minp avail p mem :
  StronglySorted Z.gt steps →
  scan_steps steps name target minp avail = Ok (Some (p, mem)) →
  ∀ q mq, q ∈ steps → q ≤ target → minp ≤ q →
          model_memory name q = Ok mq → fle mq avail = true → q ≤ p.
Proof.
  induction 1 as [|x rest Hs IH Hall]; cbn [scan_steps]; [done|].
  rewrite Forall_forall in Hall.
  destruct (target <? x) eqn:E1.
  { intros H q mq Hq Ht Hm Hmq Hf. apply Z.ltb_lt in E1.
    apply elem_of_cons in Hq as [->|Hq]; [lia|]. by apply (IH H q mq). }
  destruct (x <? minp) eqn:E2; [done|].
  destruct (model_memory name x) as [mx|e] eqn:Ex; cbn [bind]; [|done].
  destruct (fle mx avail) eqn:E3.
  - intros [= <- <-] q mq Hq _ _ _ _.
    apply elem_of_cons in Hq as [->|Hq]; [lia|].
    specialize (Hall q Hq). lia.
  - intros H q mq Hq Ht Hm Hmq Hf.
    apply elem_of_cons in Hq as [->|Hq]; [|by apply (IH H q mq)].
    congruence.
Qed.

Lemma scan_none_fits steps name target minp avail :
  StronglySorted Z.gt steps →
  scan_steps steps name target minp avail = Ok None →
  ∀ q mq, q ∈ steps → q ≤ target → minp ≤ q →
          model_memory name q = Ok mq → fle mq avail = false.
Proof.
  induction 1 as [|x rest Hs IH Hall]; cbn [scan_steps].
  { intros _ q mq Hq. by apply elem_of_nil in Hq. }
  rewrite Forall_forall in Hall.
  destruct (target <? x) eqn:E1.
  { intros H q mq Hq Ht Hm Hmq. apply Z.ltb_lt in E1.
    apply elem_of_cons in Hq as [->|Hq]; [lia|]. by apply (IH H q mq). }
  destruct (x <? minp) eqn:E2.
  { intros _ q mq Hq Ht Hm Hmq. apply Z.ltb_lt in E2.
    apply elem_of_cons in Hq as [->|Hq]; [lia|].
    specialize (Hall q Hq). lia. }
  destruct (model_memory name x) as [mx|e] eqn:Ex; cbn [bind]; [|done].
  destruct (fle mx avail) eqn:E3; [done|].
  intros H q mq Hq Ht Hm Hmq.
  apply elem_of_cons in Hq as [->|Hq]; [|by apply (IH H q mq)].
  congruence.
Qed.

(** *** One turn of the loop *)

Lemma alloc_model_unfold hw minp a avail name spec :
  alloc_model hw minp (a, avail) (name, spec)
  = (target <- target_parallel hw minp (tier spec) ;;
     found <- scan_steps PARALLEL_STEPS name target minp avail ;;
     match found with
     | Some (p, mem_needed) =>
         Ok (<[name := allocated_entry spec p mem_needed]> a, fsub avail mem_needed)
     | None => Ok (<[name := skipped_entry spec]> a, avail)
     end).
Proof. reflexivity. Qed.

(** With its target computed, a turn never raises and does what [turn]
    says. *)
Lemma alloc_model_turn hw minp st name spec target :
  target_parallel hw minp (tier spec) = Ok target →
  ∃ st', alloc_model hw minp st (name, spec) = Ok st' ∧
         turn name spec target minp st st'.
Proof.
  intros Ht. destruct st as [a avail]. rewrite alloc_model_unfold, Ht. cbn [bind].
  destruct (scan_total PARALLEL_STEPS name target minp avail) as [found E].
  { intros p Hp. destruct (model_memory_steps name p Hp) as (m & e & ->). by eexists. }
  rewrite E. cbn [bind]. destruct found as [[p mem]|].
  - eexists. split; [reflexivity|]. left. exists p, mem. cbn [fst snd].
    destruct (scan_found _ _ _ _ _ _ _ E) as (Hin & Hle & Hge & Hmem & Hfit).
    split; [|split; [|done]].
    + split; [done|]. split; [done|]. split; [done|]. by exists mem.
    + intros q (Hq & Hqt & Hqm & mq & Hmq & Hfq).
      by apply (scan_found_largest _ _ _ _ _ _ _ steps_descending E q mq).
  - eexists. split; [reflexivity|]. right. cbn [fst snd].
    split; [|done].
    intros q (Hq & Hqt & Hqm & mq & Hmq & Hfq).
    rewrite (scan_none_fits _ _ _ _ _ steps_descending E q mq) in Hfq; done.
Qed.

(** A turn raises exactly when the computation of its target does. *)
Lemma alloc_model_Raise hw minp st name spec e :
  alloc_model hw minp st (name, spec) = Raise e
  ↔ target_parallel hw minp (tier spec) = Raise e.
Proof.
  destruct (target_parallel hw minp (tier spec)) as [target|e'] eqn:Ht.
  - destruct (alloc_model_turn hw minp st name spec target Ht) as (st' & -> & _).
    done.
  - destruct st as [a avail]. rewrite alloc_model_unfold, Ht. cbn [bind].
    split; by intros [= ->].
Qed.

Lemma alloc_model_is_Ok hw minp st name spec :
  is_Ok (alloc_model hw minp st (name, spec))
  ↔ is_Ok (target_parallel hw minp (tier spec)).
Proof.
  destruct (target_parallel hw minp (tier spec)) as [target|e'] eqn:Ht.
  - destruct (alloc_model_turn hw minp st name spec target Ht) as (st' & -> & _).
    split; intros _; by eexists.
  - rewrite (proj2 (alloc_model_Raise hw minp st name spec e') Ht).
    split; intros (? & [=]).
Qed.

(** The turn that a state allows is unique. *)
Lemma turn_lookup name spec target minp st st' :
  turn name spec target minp st st' →
  (∀ other, other ≠ name → fst st' !! other = fst st !! other) ∧
  ∃ e, fst st' !! name = Some e ∧ a_tier e = tier spec ∧ a_source e = source spec.
Proof.
  intros [(p & mem & _ & _ & _ & -> & _)|(_ & -> & _)].
  - split; [intros other Hne; by rewrite lookup_insert_ne|].
    eexists. by rewrite lookup_insert_eq.
  - split; [intros other Hne; by rewrite lookup_insert_ne|].
    eexists. by rewrite lookup_insert_eq.
Qed.

(** *** The loop *)

Lemma run_from_app hw minp l1 l2 st :
  run_from hw minp (l1 ++ l2) st
  = (st' <- run_from hw minp l1 st ;; run_from hw minp l2 st').
Proof.
  revert st. induction l1 as [|x l1 IH]; intros st; [done|].
  cbn [app run_from]. destruct (alloc_model hw minp st x); cbn [bind]; [apply IH|done].
Qed.

Lemma run_app hw minp l1 l2 :
  run_specs hw minp (l1 ++ l2)
  = (st <- run_specs hw minp l1 ;; run_from hw minp l2 st).
Proof.
  unfold run_specs. destruct (budget hw); cbn [bind]; [apply run_from_app|done].
Qed.

Lemma run_snoc hw minp l x :
  run_specs hw minp (l ++ [x])
  = (st <- run_specs hw minp l ;; alloc_model hw minp st x).
Proof.
  rewrite run_app. destruct (run_specs hw minp l) as [st|]; cbn [bind]; [|done].
  cbn [run_from]. by destruct (alloc_model hw minp st x).
Qed.

(** A run that completes has completed on every prefix. *)
Lemma run_specs_prefix hw minp l1 l2 st :
  run_specs hw minp (l1 ++ l2) = Ok st →
  ∃ st1, run_specs hw minp l1 = Ok st1 ∧ run_from hw minp l2 st1 = Ok st.
Proof. rewrite run_app. by intros ?%bind_Ok. Qed.

(** The loop completes when every target can be computed. *)
Lemma run_from_is_Ok hw minp l st :
  is_Ok (run_from hw minp l st)
  ↔ ∀ x, x ∈ l → is_Ok (target_parallel hw minp (tier (snd x))).
Proof.
  revert st. induction l as [|[name spec] l IH]; intros st; cbn [run_from].
  { split; [|by eexists]. intros _ x Hx. by apply elem_of_nil in Hx. }
  rewrite is_Ok_bind. split.
  - intros (st' & E & Hrest) x Hx. apply elem_of_cons in Hx as [->|Hx].
    + cbn [snd]. apply (alloc_model_is_Ok hw minp st name spec). by eexists.
    + by apply (IH st').
  - intros Hall.
    destruct (proj2 (alloc_model_is_Ok hw minp st name spec)) as [st' E].
    { apply (Hall (name, spec)). by left. }
    exists st'. split; [done|]. apply IH. intros x Hx. apply Hall. by right.
Qed.

Lemma run_specs_is_Ok hw minp l :
  is_Ok (run_specs hw minp l)
  ↔ is_Ok (budget hw) ∧ ∀ x, x ∈ l → is_Ok (target_parallel hw minp (tier (snd x))).
Proof.
  unfold run_specs. rewrite is_Ok_bind. split.
  - intros (b & E & H). split; [by eexists|].
    exact (proj1 (run_from_is_Ok hw minp l (∅, b)) H).
  - intros [[b E] H]. exists b. split; [done|]. by apply run_from_is_Ok.
Qed.

Lemma target_parallel_is_Ok hw minp t :
  is_Ok (target_parallel hw minp t) ↔ is_Ok (tier_target (hw_peak hw) t).
Proof.
  unfold target_parallel. rewrite is_Ok_bind. split.
  - intros (x & E & _). by eexists.
  - intros [x E]. exists x. split; [done|]. by eexists.
Qed.

(** Which keys a run writes. *)
Lemma alloc_model_lookup_other hw minp st x st' name :
  alloc_model hw minp st x = Ok st' → name ≠ fst x →
  fst st' !! name = fst st !! name.
Proof.
  destruct x as [m spec]. cbn [fst]. intros E Hne.
  destruct (target_parallel hw minp (tier spec)) as [target|e] eqn:Ht.
  - destruct (alloc_model_turn hw minp st m spec target Ht) as (st2 & E2 & Hturn).
    rewrite E in E2. injection E2 as <-.
    by apply (proj1 (turn_lookup _ _ _ _ _ _ Hturn)).
  - rewrite (proj2 (alloc_model_Raise hw minp st m spec e) Ht) in E. done.
Qed.

Lemma run_from_frame hw minp l st st' name :
  run_from hw minp l st = Ok st' → name ∉ fst <$> l →
  fst st' !! name = fst st !! name.
Proof.
  revert st. induction l as [|x l IH]; intros st; cbn [run_from].
  { by intros [= ->]. }
  intros (st1 & E1 & E2)%bind_Ok Hn.
  rewrite fmap_cons, not_elem_of_cons in Hn. destruct Hn as [Hx Hl].
  rewrite (IH st1 E2 Hl). by apply (alloc_model_lookup_other hw minp st x).
Qed.

Lemma run_from_dom hw minp l st st' name :
  run_from hw minp l st = Ok st' →
  is_Some (fst st' !! name) ↔ is_Some (fst st !! name) ∨ name ∈ fst <$> l.
Proof.
  revert st. induction l as [|[m spec] l IH]; intros st; cbn [run_from].
  { intros [= ->]. rewrite fmap_nil. split; [by left|].
    intros [H|H]; [done|]. by apply elem_of_nil in H. }
  intros (st1 & E1 & E2)%bind_Ok.
  rewrite (IH st1 E2), fmap_cons, elem_of_cons. cbn [fst].
  destruct (decide (name = m)) as [->|Hne].
  - destruct (target_parallel hw minp (tier spec)) as [target|e] eqn:Ht.
    + destruct (alloc_model_turn hw minp st m spec target Ht) as (st2 & E3 & Hturn).
      rewrite E1 in E3. injection E3 as <-.
      destruct (proj2 (turn_lookup _ _ _ _ _ _ Hturn)) as (e & He & _).
      split; [intros _; right; by left|]. intros _. left. by rewrite He.
    + rewrite (proj2 (alloc_model_Raise hw minp st m spec e) Ht) in E1. done.
  - rewrite (alloc_model_lookup_other hw minp st (m, spec) st1 name E1 Hne).
    split; [intros [H|H]; [by left|right; by right]|].
    intros [H|[H|H]]; [by left|done|by right].
Qed.

(** *** The processing order *)

Lemma insert_by_tier_keeps x l : insert_by_tier x l ≡ₚ x :: l.
Proof.
  induction l as [|y l IH]; cbn [insert_by_tier]; [done|].
  destruct (tier (snd x) <=? tier (snd y)); [done|].
  rewrite IH. apply Permutation_swap.
Qed.

Lemma sort_by_tier_keeps l : sort_by_tier l ≡ₚ l.
Proof.
  induction l as [|x l IH]; [done|].
  cbn [sort_by_tier foldr]. rewrite insert_by_tier_keeps. by f_equiv.
Qed.

Lemma insert_by_tier_ascending x l :
  StronglySorted tier_le l → StronglySorted tier_le (insert_by_tier x l).
Proof.
  induction 1 as [|y l Hs IH Hall]; cbn [insert_by_tier].
  { repeat constructor. }
  destruct (tier (snd x) <=? tier (snd y)) eqn:E.
  - apply Z.leb_le in E. constructor; [by constructor|].
    constructor; [done|].
    eapply Forall_impl; [exact Hall|]. unfold tier_le. intros z Hz. lia.
  - apply Z.leb_gt in E. constructor; [done|].
    rewrite insert_by_tier_keeps. constructor; [|done].
    unfold tier_le. lia.
Qed.

Lemma sort_by_tier_ascending l : StronglySorted tier_le (sort_by_tier l).
Proof.
  induction l as [|x l IH]; [constructor|].
  cbn [sort_by_tier foldr]. by apply insert_by_tier_ascending.
Qed.

Lemma insert_by_tier_before x A B :
  (∀ b, b ∈ B → tier (snd x) ≤ tier (snd b)) →
  insert_by_tier x (A ++ B) = insert_by_tier x A ++ B.
Proof.
  intros HB. induction A as [|a A IH]; cbn [insert_by_tier app].
  - destruct B as [|b B]; [done|]. cbn [insert_by_tier].
    assert (tier (snd x) ≤ tier (snd b)) as ->%Z.leb_le by (apply HB; by left).
    done.
  - destruct (tier (snd x) <=? tier (snd a)); [done|]. by rewrite IH.
Qed.

Lemma insert_by_tier_after x A B :
  (∀ a, a ∈ A → tier (snd a) < tier (snd x)) →
  insert_by_tier x (A ++ B) = A ++ insert_by_tier x B.
Proof.
  intros HA. induction A as [|a A IH]; cbn [insert_by_tier app]; [done|].
  assert (tier (snd a) < tier (snd x)) as ->%Z.leb_gt by (apply HA; by left).
  rewrite IH; [done|]. intros a' Ha'. apply HA. by right.
Qed.

(** The sort puts every pair of tier at most [t] before every pair of a
    higher tier, and keeps the order of the input inside both groups. *)
Lemma sort_by_tier_low_high (t : Z) l :
  sort_by_tier l
  = sort_by_tier (filter (λ x, tier (snd x) ≤ t) l)
    ++ sort_by_tier (filter (λ x, t < tier (snd x)) l).
Proof.
  induction l as [|x l IH]; [done|].
  cbn [sort_by_tier foldr]. fold (sort_by_tier l). rewrite IH.
  destruct (decide (tier (snd x) ≤ t)) as [Hx|Hx].
  - rewrite (filter_cons_True _ x l Hx).
    rewrite (filter_cons_False (λ x, t < tier (snd x)) x l) by lia.
    cbn [sort_by_tier foldr]. apply insert_by_tier_before.
    intros b Hb. rewrite sort_by_tier_keeps in Hb.
    apply list_elem_of_filter in Hb as [Hb _]. lia.
  - rewrite (filter_cons_False _ x l Hx).
    rewrite (filter_cons_True (λ x, t < tier (snd x)) x l) by lia.
    cbn [sort_by_tier foldr]. apply insert_by_tier_after.
    intros a Ha. rewrite sort_by_tier_keeps in Ha.
    apply list_elem_of_filter in Ha as [Ha _]. lia.
Qed.

Lemma insert_by_tier_same_tier (t : Z) x l :
  filter (λ y, tier (snd y) = t) (insert_by_tier x l)
  = filter (λ y, tier (snd y) = t) (x :: l).
Proof.
  induction l as [|y l IH]; cbn [insert_by_tier]; [done|].
  destruct (tier (snd x) <=? tier (snd y)) eqn:E; [done|].
  apply Z.leb_gt in E.
  rewrite (filter_cons _ y), IH, !(filter_cons _ x), (filter_cons _ y).
  repeat case_decide; try done; lia.
Qed.

(** Stability: among the pairs of one tier the input order is kept. *)
Lemma sort_by_tier_same_tier (t : Z) l :
  filter (λ y, tier (snd y) = t) (sort_by_tier l)
  = filter (λ y, tier (snd y) = t) l.
Proof.
  induction l as [|x l IH]; [done|].
  cbn [sort_by_tier foldr]. fold (sort_by_tier l).
  rewrite insert_by_tier_same_tier, !(filter_cons _ x), IH. done.
Qed.

Lemma model_specs_pairs models name spec :
  (name, spec) ∈ model_specs models ↔ name ∈ models ∧ spec = lookup_spec name.
Proof.
  unfold model_specs. rewrite sort_by_tier_keeps, list_elem_of_fmap. split.
  - intros (m & [= -> ->] & Hm). done.
  - intros [Hm ->]. by exists name.
Qed.

Lemma model_specs_keys models name :
  name ∈ fst <$> model_specs models ↔ name ∈ models.
Proof.
  rewrite list_elem_of_fmap. split.
  - intros ([m spec] & -> & H%model_specs_pairs). by destruct H.
  - intros H. exists (name, lookup_spec name). split; [done|].
    by apply model_specs_pairs.
Qed.

Lemma filter_pairs (P : Z → Prop) `{!∀ t, Decision (P t)} (models : list string) :
  filter (λ x : string * ModelSpec, P (tier (snd x)))
         ((λ m, (m, lookup_spec m)) <$> models)
  = (λ m, (m, lookup_spec m)) <$> filter (λ m, P (tier (lookup_spec m))) models.
Proof.
  induction models as [|m models IH]; [done|].
  rewrite fmap_cons, !filter_cons, IH. cbn [snd].
  by destruct (decide (P (tier (lookup_spec m)))).
Qed.

Lemma model_specs_low_high (t : Z) models :
  model_specs models
  = model_specs (filter (λ m, tier (lookup_spec m) ≤ t) models)
    ++ model_specs (filter (λ m, t < tier (lookup_spec m)) models).
Proof.
  unfold model_specs.
  rewrite (sort_by_tier_low_high t).
  pose proof (filter_pairs (λ u, u ≤ t) models) as H1.
  pose proof (filter_pairs (λ u, t < u) models) as H2.
  cbn beta in H1, H2. by rewrite H1, H2.
Qed.

(** In a sorted list, what comes before a pair has no higher tier and
    what comes after has no lower tier. *)
Lemma sorted_around (l1 l2 : list (string * ModelSpec)) x :
  StronglySorted tier_le (l1 ++ x :: l2) →
  Forall (λ y, tier (snd y) ≤ tier (snd x)) l1 ∧
  Forall (λ y, tier (snd x) ≤ tier (snd y)) l2.
Proof.
  induction l1 as [|y l1 IH]; cbn [app]; intros H.
  - split; [constructor|]. by apply StronglySorted_inv in H as [_ H].
  - apply StronglySorted_inv in H as [Hs Hall].
    destruct (IH Hs) as [H1 H2]. split; [|done].
    constructor; [|done].
    rewrite Forall_forall in Hall. apply (Hall x).
    apply elem_of_app. right. by left.
Qed.

(** *** What is available is never negative *)





(** *** One turn of a run *)

Lemma run_specs_turn hw minp l name spec st1 target :
  run_specs hw minp l = Ok st1 →
  target_parallel hw minp (tier spec) = Ok target →
  ∃ st2, run_specs hw minp (l ++ [(name, spec)]) = Ok st2 ∧
         turn name spec target minp st1 st2.
Proof.
  intros E Ht.
  destruct (alloc_model_turn hw minp st1 name spec target Ht) as (st2 & E2 & Hturn).
  exists st2. split; [|done]. by rewrite run_snoc, E.
Qed.

Lemma run_specs_split hw minp l1 x l2 st2 :
  run_specs hw minp (l1 ++ [x]) = Ok st2 →
  run_specs hw minp (l1 ++ x :: l2) = run_from hw minp l2 st2.
Proof.
  intros E. rewrite (cons_middle x l1 l2), app_assoc, run_app, E. done.
Qed.

(** What a turn writes under the name of its model. *)
Lemma turn_entry name spec target minp st st' :
  turn name spec target minp st st' →
  ∃ e, fst st' !! name = Some e ∧
       (parallel e = 0 ↔ ∀ q, ¬ candidate name target minp (snd st) q) ∧
       ((e = skipped_entry spec ∧ snd st' = snd st)
        ∨ ∃ p mem, p ∈ PARALLEL_STEPS ∧ model_memory name p = Ok mem ∧
                   fle mem (snd st) = true ∧
                   e = allocated_entry spec p mem ∧ snd st' = fsub (snd st) mem).
Proof.
  intros [(p & mem & Hc & Hmax & Hmem & -> & ->)|(Hnone & -> & ->)].
  - eexists. rewrite lookup_insert_eq. split; [done|].
    destruct Hc as (Hp & Ht & Hm & mem' & Hmem' & Hfit).
    rewrite Hmem in Hmem'. injection Hmem' as <-.
    split.
    + cbn [parallel allocated_entry]. pose proof (steps_positive p Hp). split; [lia|].
      intros Hnone. destruct (Hnone p).
      split; [done|]. split; [done|]. split; [done|]. by exists mem.
    + right. by exists p, mem.
  - eexists. rewrite lookup_insert_eq. split; [done|].
    split; [done|]. by left.
Qed.

(** *** The entries of a run *)

Lemma turn_written name target minp st st' :
  turn name (lookup_spec name) target minp st st' →
  (∀ m e, fst st !! m = Some e → written_for m e) →
  ∀ m e, fst st' !! m = Some e → written_for m e.
Proof.
  intros Hturn Hst m e.
  destruct (decide (m = name)) as [->|Hne].
  - destruct (turn_entry _ _ _ _ _ _ Hturn) as (e' & He' & _ & Hcase).
    rewrite He'. intros [= <-].
    destruct Hcase as [[-> _]|(p & mem & Hp & Hmem & _ & -> & _)].
    + by left.
    + right. by exists p, mem.
  - rewrite (proj1 (turn_lookup _ _ _ _ _ _ Hturn) m Hne). apply Hst.
Qed.

Lemma run_from_written hw minp l st st' :
  (∀ x, x ∈ l → snd x = lookup_spec (fst x)) →
  run_from hw minp l st = Ok st' →
  (∀ m e, fst st !! m = Some e → written_for m e) →
  ∀ m e, fst st' !! m = Some e → written_for m e.
Proof.
  revert st. induction l as [|[name spec] l IH]; intros st Hl; cbn [run_from].
  { by intros [= ->]. }
  intros (st1 & E1 & E2)%bind_Ok Hst.
  apply (IH st1); [intros x Hx; apply Hl; by right|done|].
  assert (spec = lookup_spec name) as -> by (apply (Hl (name, spec)); by left).
  destruct (target_parallel hw minp (tier (lookup_spec name))) as [target|e] eqn:Ht.
  - destruct (alloc_model_turn hw minp st name _ target Ht) as (st2 & E3 & Hturn).
    rewrite E1 in E3. injection E3 as <-. by apply (turn_written _ _ _ _ _ Hturn).
  - rewrite (proj2 (alloc_model_Raise hw minp st name _ e) Ht) in E1. done.
Qed.

Lemma allocate_run_written models hw minp st :
  allocate_run models hw minp = Ok st →
  ∀ m e, fst st !! m = Some e → written_for m e.
Proof.
  unfold allocate_run, run_specs. intros (b & Hb & E)%bind_Ok.
  assert (∀ x, x ∈ model_specs models → snd x = lookup_spec (fst x)) as Hl.
  { intros [name spec] [_ ->]%model_specs_pairs. done. }
  apply (run_from_written hw minp _ _ _ Hl E).
  intros m e. cbn [fst]. by rewrite lookup_empty.
Qed.

Lemma allocate_run_dom models hw minp st name :
  allocate_run models hw minp = Ok st →
  is_Some (fst st !! name) ↔ name ∈ models.
Proof.
  unfold allocate_run, run_specs. intros (b & Hb & E)%bind_Ok.
  rewrite (run_from_dom hw minp _ _ _ name E). cbn [fst].
  rewrite lookup_empty, model_specs_keys. split; [|by right].
  intros [H|H]; [by destruct H|done].
Qed.

Lemma allocate_stack_Ok models hw minp a :
  allocate_stack models hw minp = Ok a
  ↔ ∃ st, allocate_run models hw minp = Ok st ∧ a = fst st.
Proof.
  unfold allocate_stack. rewrite bind_Ok. split.
  - intros (st & E & [= <-]). by exists st.
  - intros (st & E & ->). by exists st.
Qed.

Lemma allocate_stack_is_Ok models hw minp :
  is_Ok (allocate_stack models hw minp)
  ↔ is_Ok (budget hw) ∧
    ∀ m, m ∈ models → is_Ok (tier_target (hw_peak hw) (tier (lookup_spec m))).
Proof.
  unfold allocate_stack. rewrite is_Ok_bind. unfold allocate_run. split.
  - intros (st & E & _).
    destruct (proj1 (run_specs_is_Ok hw minp (model_specs models))) as [Hb Hall];
      [by eexists|].
    split; [done|]. intros m Hm. apply (target_parallel_is_Ok hw minp).
    apply (Hall (m, lookup_spec m)). by apply model_specs_pairs.
  - intros [Hb Hall].
    destruct (proj2 (run_specs_is_Ok hw minp (model_specs models))) as [st E].
    { split; [done|]. intros [m spec] [Hm ->]%model_specs_pairs. cbn [snd].
      apply target_parallel_is_Ok. by apply Hall. }
    exists st. split; [done|]. by eexists.
Qed.

(** *** The targets as fractions of the peak degree *)

Lemma Qfloor_whole (q : Q) (n : Z) : (q == inject_Z n)%Q → Qfloor q = n.
Proof. intros ->. apply Qfloor_Z. Qed.

Lemma scaled_fraction_range (peak : Z) :
  0 ≤ peak ≤ 2000 →
  scaled peak (decimal 75 2) = Ok (Qfloor (0.75 * inject_Z peak)) ∧
  scaled peak (decimal 5 1) = Ok (Qfloor (0.5 * inject_Z peak)) ∧
  scaled peak (decimal 33 2) = Ok (Qfloor (0.33 * inject_Z peak)).
Proof.
  intros Hp.
  assert (forallb (λ n,
            match scaled n (decimal 75 2), scaled n (decimal 5 1),
                  scaled n (decimal 33 2) with
            | Ok a, Ok b, Ok c =>
                (a =? Qfloor (0.75 * inject_Z n)) && (b =? Qfloor (0.5 * inject_Z n))
                && (c =? Qfloor (0.33 * inject_Z n))
            | _, _, _ => false
            end) (seqZ 0 2001) = true) as Hall by (vm_compute; reflexivity).
  rewrite forallb_forall in Hall.
  specialize (Hall peak). rewrite <- list_elem_of_In, elem_of_seqZ in Hall.
  specialize (Hall ltac:(lia)).
  destruct (scaled peak (decimal 75 2)) as [a|]; [|done].
  destruct (scaled peak (decimal 5 1)) as [b|]; [|done].
  destruct (scaled peak (decimal 33 2)) as [c|]; [|done].
  apply andb_prop in Hall as [[Ha%Z.eqb_eq Hb%Z.eqb_eq]%andb_prop Hc%Z.eqb_eq].
  by rewrite Ha, Hb, Hc.
Qed.

Lemma tier_target_fraction (peak t : Z) :
  0 ≤ peak ≤ 2000 →
  tier_target peak t = Ok (Qfloor (spec_fraction t * inject_Z peak)).
Proof.
  intros Hp. destruct (scaled_fraction_range peak Hp) as (H2 & H3 & H4).
  unfold tier_target, spec_fraction.
  destruct (t =? 1).
  { f_equal. symmetry. apply Qfloor_whole. ring. }
  destruct (t =? 2); [done|]. by destruct (t =? 3).
Qed.

(** *** The shipped profiles *)


(** *** The claims *)







(** C3.  The models are processed in ascending order of tier, the models
    of one tier in the order of the input.  When the turn of a model
    comes, every model before it in that order, and so every model of a
    lower tier, has been processed: the state that the turn starts from is
    the state the run over those models ends in, with their entries
    written and their memory taken from what is available; the turn then
    commits the largest step that fits, or skips the model, and the models
    after it, none of a lower tier, are processed from the state it
    leaves.  The entries of the models of tier at most [t] are those of
    the run over these models alone, whatever models of higher tiers the
    list holds.  The result is a function of the list, the hardware and
    [min_parallel]. *)
Theorem allocate_respects_priority models hw minp :
  model_specs models ≡ₚ (λ m, (m, lookup_spec m)) <$> models ∧
  StronglySorted tier_le (model_specs models) ∧
  (∀ t, filter (λ x, tier (snd x) = t) (model_specs models)
        = (λ m, (m, lookup_spec m)) <$> filter (λ m, tier (lookup_spec m) = t) models) ∧
  (∀ l1 name spec l2 st1 target,
     model_specs models = l1 ++ (name, spec) :: l2 →
     run_specs hw minp l1 = Ok st1 →
     target_parallel hw minp (tier spec) = Ok target →
     Forall (λ x, tier (snd x) ≤ tier spec) l1 ∧
     Forall (λ x, tier spec ≤ tier (snd x)) l2 ∧
     ∃ st2, turn name spec target minp st1 st2 ∧
            run_specs hw minp (l1 ++ [(name, spec)]) = Ok st2 ∧
            allocate_run models hw minp = run_from hw minp l2 st2) ∧
  (∀ t st,
     allocate_run models hw minp = Ok st →
     ∃ st_low,
       allocate_run (filter (λ m, tier (lookup_spec m) ≤ t) models) hw minp = Ok st_low ∧
       run_from hw minp (model_specs (filter (λ m, t < tier (lookup_spec m)) models)) st_low
       = Ok st ∧
       ∀ name, tier (lookup_spec name) ≤ t → fst st !! name = fst st_low !! name) ∧
  (∀ r r', allocate_stack models hw minp = r → allocate_stack models hw minp = r' →
           r = r').
Proof.
  split; [|split; [|split; [|split; [|split]]]].
  - unfold model_specs. apply sort_by_tier_keeps.
  - unfold model_specs. apply sort_by_tier_ascending.
  - intros t. unfold model_specs. rewrite sort_by_tier_same_tier.
    pose proof (filter_pairs (λ u, u = t) models) as H. cbn beta in H. exact H.
  - intros l1 name spec l2 st1 target Hl E Ht.
    pose proof (sort_by_tier_ascending ((λ m, (m, lookup_spec m)) <$> models)) as Hs.
    fold (model_specs models) in Hs. rewrite Hl in Hs.
    destruct (sorted_around l1 l2 (name, spec) Hs) as [H1 H2]. cbn [snd] in H1, H2.
    split; [done|]. split; [done|].
    destruct (run_specs_turn hw minp l1 name spec st1 target E Ht) as (st2 & E2 & Hturn).
    exists st2. split; [done|]. split; [done|].
    unfold allocate_run. rewrite Hl. by apply run_specs_split.
  - intros t st E. unfold allocate_run in E.
    rewrite (model_specs_low_high t models) in E.
    apply run_specs_prefix in E as (st_low & E1 & E2).
    exists st_low. split; [done|]. split; [done|].
    intros name Hname. apply (run_from_frame hw minp _ _ _ name E2).
    rewrite model_specs_keys. intros [H _]%list_elem_of_filter. lia.
  - by intros r r' <- <-.
Qed.

Lemma allocate_respects_priority_witness :
  ∃ st,
    allocate_run ["coder"; "executive"]%string generic_24gb 1 = Ok st ∧
    ∃ st_low,
      allocate_run (filter (λ m, tier (lookup_spec m) ≤ 1) ["coder"; "executive"]%string)
                   generic_24gb 1 = Ok st_low ∧
      ∀ name, tier (lookup_spec name) ≤ 1 → fst st !! name = fst st_low !! name.
Proof.
  destruct (allocate_run ["coder"; "executive"]%string generic_24gb 1) as [st|e] eqn:E;
    [|vm_compute in E; discriminate E].
  exists st. split; [reflexivity|].
  destruct (proj1 (proj2 (proj2 (proj2 (proj2
              (allocate_respects_priority ["coder"; "executive"]%string generic_24gb 1)))))
              1 st E) as (st_low & E1 & _ & H).
  exists st_low. split; [exact E1|exact H].
Defined.

(** C4 (amended).  [allocate_stack] returns a map, rather than raising,
    exactly when the budget and the target of the tier of every listed
    model can be computed; the only thing that prevents this is an [int]
    too large to convert to a float.  So it returns for every list of
    models and every hardware description whose [gpu_mem_gb] is a float,
    or an [int] that converts to a float, and whose [peak_parallel] is
    between 0 and 2000 (or such that the targets can be computed).  The
    keys of the map are then the models of the list.  Every entry has a
    positive degree, no status and as memory the rounded memory of the
    model at that degree, or it has degree 0, memory 0 and status
    skipped; the entry written at the turn of a model is the skipped one
    exactly when no step is a candidate for the model with what is
    available at that turn, and it is the entry of the result unless the
    model is listed again later. *)
Theorem allocate_reports_every_model models hw minp :
  (is_Ok (allocate_stack models hw minp)
   ↔ is_Ok (to_float (gpu_mem_gb hw)) ∧
     ∀ m, m ∈ models → is_Ok (tier_target (hw_peak hw) (tier (lookup_spec m)))) ∧
  (is_Ok (to_float (gpu_mem_gb hw)) →
   (0 ≤ hw_peak hw ≤ 2000 ∨ ∀ t, is_Ok (tier_target (hw_peak hw) t)) →
   ∃ a,
     allocate_stack models hw minp = Ok a ∧
     (∀ name, name ∈ models ↔ is_Some (a !! name)) ∧
     (∀ name e, a !! name = Some e →
        (0 < parallel e ∧ status e = None ∧
         ∃ mem, model_memory name (parallel e) = Ok mem ∧
                memory_gb e = Float (round1 mem))
        ∨ (parallel e = 0 ∧ memory_gb e = Int 0 ∧ status e = Some "skipped"%string)) ∧
     (∀ l1 name spec l2,
        model_specs models = l1 ++ (name, spec) :: l2 →
        ∃ st1 st2 target e,
          run_specs hw minp l1 = Ok st1 ∧
          run_specs hw minp (l1 ++ [(name, spec)]) = Ok st2 ∧
          target_parallel hw minp (tier spec) = Ok target ∧
          fst st2 !! name = Some e ∧
          (parallel e = 0 ↔ ∀ p, ¬ candidate name target minp (snd st1) p) ∧
          (name ∉ fst <$> l2 → a !! name = Some e))).
Proof.
  assert (is_Ok (budget hw) ↔ is_Ok (to_float (gpu_mem_gb hw))) as Hbudget.
  { unfold budget. rewrite is_Ok_bind. split.
    - intros (g & Hg & _). by eexists.
    - intros [g Hg]. exists g. split; [done|]. by eexists. }
  split; [by rewrite allocate_stack_is_Ok, Hbudget|].
  intros Hb%Hbudget Hpeak.
  assert (∀ t, is_Ok (tier_target (hw_peak hw) t)) as Ht.
  { destruct Hpeak as [Hrange|Hall]; [|done].
    intros t. rewrite (tier_target_fraction _ t Hrange). by eexists. }
  destruct (proj2 (allocate_stack_is_Ok models hw minp)) as [a Ha].
  { split; [done|]. intros m _. apply Ht. }
  exists a. split; [done|].
  apply allocate_stack_Ok in Ha as (st & E & ->).
  split; [|split].
  - intros name. by rewrite (allocate_run_dom models hw minp st name E).
  - intros name e He.
    destruct (allocate_run_written models hw minp st E name e He)
      as [->|(p & mem & Hp & Hmem & ->)].
    + right. done.
    + left. cbn [parallel status memory_gb allocated_entry].
      pose proof (steps_positive p Hp). split; [lia|]. split; [done|]. by exists mem.
  - intros l1 name spec l2 Hl.
    unfold allocate_run in E. rewrite Hl in E.
    destruct (run_specs_prefix hw minp l1 _ st E) as (st1 & E1 & _).
    destruct (proj2 (target_parallel_is_Ok hw minp (tier spec)) (Ht _)) as [target Htg].
    destruct (run_specs_turn hw minp l1 name spec st1 target E1 Htg) as (st2 & E2 & Hturn).
    destruct (turn_entry _ _ _ _ _ _ Hturn) as (e & He & Hiff & _).
    exists st1, st2, target, e.
    split; [done|]. split; [done|]. split; [done|]. split; [done|]. split; [done|].
    intros Hn. rewrite (run_specs_split hw minp l1 (name, spec) l2 st2 E2) in E.
    by rewrite (run_from_frame hw minp l2 st2 st name E Hn).
Qed.

Lemma allocate_reports_every_model_witness :
  is_Ok (to_float (gpu_mem_gb generic_24gb)) ∧
  (0 ≤ hw_peak generic_24gb ≤ 2000
   ∨ ∀ t, is_Ok (tier_target (hw_peak generic_24gb) t)) ∧
  ∃ a, allocate_stack ["architect"; "executive"; "mystery"]%string generic_24gb 1 = Ok a ∧
       ∀ name, name ∈ ["architect"; "executive"; "mystery"]%string ↔ is_Some (a !! name).
Proof.
  assert (H1 : is_Ok (to_float (gpu_mem_gb generic_24gb)))
    by (eexists; vm_compute; reflexivity).
  assert (H2 : 0 ≤ hw_peak generic_24gb ≤ 2000
               ∨ ∀ t, is_Ok (tier_target (hw_peak generic_24gb) t))
    by (left; vm_compute; split; discriminate).
  split; [exact H1|]. split; [exact H2|].
  destruct (proj2 (allocate_reports_every_model
                     ["architect"; "executive"; "mystery"]%string generic_24gb 1) H1 H2)
    as (a & Ha & Hdom & _).
  exists a. split; [exact Ha|exact Hdom].
Defined.

(** C4 as stated fails: with [--gpu-mem] an [int] beyond the range of a
    float reaches [gpu_mem * (1 - reserve)], which raises
    [OverflowError]; so does a [peak_parallel] of that size at the first
    model whose tier is not 1. *)
Lemma allocate_raises_on_huge_int :
  allocate_stack ["executive"]%string (dgx_spark (10 ^ 309)) 1 = Raise OverflowError ∧
  is_Ok (allocate_stack ["executive"]%string (dgx_spark (10 ^ 308)) 1) ∧
  allocate_stack ["coder"]%string (profile 24 (decimal 20 2) (10 ^ 309) 8) 1
  = Raise OverflowError.
Proof.
  split; [vm_compute; reflexivity|]. split; [|vm_compute; reflexivity].
  eexists. vm_compute. reflexivity.
Qed.



End Launcher64Facts.

(** ** Facts about the coordinator *)

Module OversightFacts.
Import Oversight.

(** *** Strings *)

Lemma str_take_length (n : nat) (s : string) :
  String.length (str_take n s) = Nat.min n (String.length s).
Proof.
  revert s. induction n as [|n IH]; intros [|c s]; cbn; try done.
  by rewrite IH.
Qed.

Lemma str_take_all (n : nat) (s : string) :
  (String.length s ≤ n)%nat → str_take n s = s.
Proof.
  revert s. induction n as [|n IH]; intros [|c s]; cbn; try done; try lia.
  intros H. rewrite IH; [done|lia].
Qed.

Lemma str_take_prefix (n : nat) (s : string) :
  ∃ rest, s = str_take n s +:+ rest.
Proof.
  revert s. induction n as [|n IH]; intros s.
  - exists s. by destruct s.
  - destruct s as [|c s]; [by exists EmptyString|].
    destruct (IH s) as [rest Hr]. exists rest.
    change (String c s = String c (str_take n s +:+ rest)). by f_equal.
Qed.

Lemma str_repeat_length (c : ascii) (n : nat) :
  String.length (str_repeat c n) = n.
Proof. induction n as [|n IH]; cbn; [done|by rewrite IH]. Qed.

Lemma rstrip_cons_nonspace c s :
  is_space c = false → ∃ r, rstrip (String c s) = String c r.
Proof.
  intros Hc. cbn [rstrip]. destruct (rstrip s); [rewrite Hc|]; eauto.
Qed.

Lemma strip_nonempty (s : string) :
  starts_nonspace s → nonempty (strip s) = true.
Proof.
  destruct s as [|c s]; [done|]. cbn [starts_nonspace]. intros Hc.
  unfold strip. cbn [lstrip]. rewrite Hc.
  by destruct (rstrip_cons_nonspace c s Hc) as [r ->].
Qed.

Lemma join_starts_nonspace sep x rest :
  starts_nonspace x → starts_nonspace (join sep (x :: rest)).
Proof.
  destruct x as [|c x]; [done|]. intros Hc.
  destruct rest; cbn; done.
Qed.

Lemma strip_empty : strip EmptyString = EmptyString.
Proof. reflexivity. Qed.

Lemma last_n_nonempty {A} (n : nat) (l : list A) :
  (0 < n)%nat → l ≠ [] → last_n n l ≠ [].
Proof.
  intros Hn Hl. unfold last_n. intros H.
  apply (f_equal length) in H. rewrite length_drop in H. cbn in H.
  destruct l; [done|]. cbn in H. lia.
Qed.

(** *** The activity summary *)

(** With at least one approach recorded the summary is not blank. *)
Lemma summary_not_blank (o : OperatorOversight) (category : string) :
  successful_approaches o ≠ [] ∨ failed_approaches o ≠ [] →
  nonempty (strip (_build_activity_summary o category)) = true.
Proof.
  intros H. apply strip_nonempty. unfold _build_activity_summary.
  destruct (successful_approaches o) as [|s ss] eqn:Es.
  - destruct H as [H|H]; [done|]. cbn [app].
    destruct (List.filter (λ f, String.eqb (f_category f) category)
                (failed_approaches o)) as [|f fs] eqn:Ef.
    + cbn [app].
      assert (Hne : List.filter (λ f, negb (String.eqb (f_category f) category))
                      (failed_approaches o) ≠ []).
      { destruct (failed_approaches o) as [|f fs]; [done|].
        cbn [List.filter] in *.
        destruct (String.eqb (f_category f) category); [done|]. by cbn. }
      pose proof (last_n_nonempty 2 _ ltac:(lia) Hne) as Hl.
      destruct (last_n 2 _) as [|f fs]; [done|].
      by apply join_starts_nonspace.
    + rewrite <- app_comm_cons. by apply join_starts_nonspace.
  - rewrite <- app_comm_cons. by apply join_starts_nonspace.
Qed.

(** *** The briefing *)

Lemma use_briefing_cases (o : OperatorOversight) (v : json) :
  (∃ text, v = JStr text ∧ (20 < String.length (strip text))%nat ∧
     try_except (use_briefing o v) (EmptyString, o)
     = (OPERATOR_NOTES +:+ strip text,
        set_total_suggestions_made (total_suggestions_made o + 1) o))
  ∨ ((∀ text, v = JStr text → (String.length (strip text) ≤ 20)%nat) ∧
     try_except (use_briefing o v) (EmptyString, o) = (EmptyString, o)).
Proof.
  unfold use_briefing.
  destruct v as [|b|q|s|l|d];
    try (right; split; [by intros ? [=]|]; by destruct (truthy _)).
  cbn [truthy]. destruct (nonempty s) eqn:Es.
  - cbn [value_strip bind].
    destruct (20 <? Z.of_nat (String.length (strip s))) eqn:E.
    + left. exists s. apply Z.ltb_lt in E. split_and!; [done|lia|done].
    + right. apply Z.ltb_ge in E. split; [|done]. intros ? [= <-]. lia.
  - right. split; [|done]. intros ? [= <-]. destruct s; [cbn; lia|done].
Qed.

Lemma generate_briefing_unfold o net task_id category profile group_size :
  successful_approaches o ≠ [] ∨ failed_approaches o ≠ [] →
  let req := make_request o
               (briefing_prompt (_build_activity_summary o category)
                  category group_size profile) briefing_system in
  let generated := try_except (_generate_body o net req) JNull in
  generate_briefing o net task_id category profile group_size
  = (fst (try_except (use_briefing o generated) (EmptyString, o)),
     snd (try_except (use_briefing o generated) (EmptyString, o)),
     [req]).
Proof.
  intros H req generated. unfold generate_briefing.
  rewrite (summary_not_blank o category H). cbn [negb].
  unfold _generate. fold req. fold generated.
  destruct (try_except (use_briefing o generated) (EmptyString, o)) as [text o'].
  cbn [fst snd].
  destruct (successful_approaches o), (failed_approaches o); try done.
  by destruct H.
Qed.

(** What [get_context] computes, with the tier-2 part spelled out. *)
Lemma get_context_unfold o net task_id category profile group_size :
  let o1 := set_groups_processed (groups_processed o + 1) o in
  let mech_text := join NL (mechanical o category) in
  get_context o net task_id category profile group_size
  = if 2 <=? total_approaches o then
      let r := generate_briefing o1 net task_id category profile group_size in
      (join_parts mech_text (fst (fst r)), snd (fst r), snd r)
    else (join_parts mech_text EmptyString, o1, []).
Proof.
  cbv zeta. unfold get_context.
  change (total_approaches (set_groups_processed (groups_processed o + 1) o))
    with (total_approaches o).
  change (mechanical (set_groups_processed (groups_processed o + 1) o) category)
    with (mechanical o category).
  destruct (2 <=? total_approaches o); [|done].
  by destruct (generate_briefing _ net task_id category profile group_size)
    as [[briefing o2] sent].
Qed.

Lemma total_approaches_ge_2 (o : OperatorOversight) :
  2 ≤ total_approaches o →
  successful_approaches o ≠ [] ∨ failed_approaches o ≠ [].
Proof.
  unfold total_approaches.
  destruct (successful_approaches o), (failed_approaches o); cbn; intros;
    first [lia | by left | by right].
Qed.

Lemma join_parts_empty : join_parts EmptyString EmptyString = EmptyString.
Proof. reflexivity. Qed.

Lemma get_context_state o net task_id category profile group_size :
  let o' := snd (fst (get_context o net task_id category profile group_size)) in
  groups_processed o' = groups_processed o + 1 ∧
  same_records o o' ∧
  (total_suggestions_made o' = total_suggestions_made o
   ∨ total_suggestions_made o' = total_suggestions_made o + 1) ∧
  same_config o o'.
Proof.
  cbv zeta. rewrite get_context_unfold. cbv zeta.
  destruct (2 <=? total_approaches o) eqn:E; cbn [fst snd].
  - apply Z.leb_le, total_approaches_ge_2 in E.
    rewrite generate_briefing_unfold by exact E. cbv zeta. cbn [fst snd].
    destruct (use_briefing_cases
                (set_groups_processed (groups_processed o + 1) o)
                (try_except
                   (_generate_body (set_groups_processed (groups_processed o + 1) o) net
                      (make_request (set_groups_processed (groups_processed o + 1) o)
                         (briefing_prompt
                            (_build_activity_summary
                               (set_groups_processed (groups_processed o + 1) o) category)
                            category group_size profile) briefing_system)) JNull))
      as [(text & _ & _ & ->)|(_ & ->)]; cbn [fst snd];
      (split; [done|]); (split; [done|]); (split; [|done]); [by right|by left].
  - split; [done|]. split; [done|]. split; [by left|done].
Qed.

Lemma call_keeps_no_approaches (o : OperatorOversight) (c : Call) :
  records_nothing c →
  successful_approaches (call o c) = successful_approaches o ∧
  failed_approaches (call o c) = failed_approaches o.
Proof.
  destruct c; cbn [records_nothing call]; try done.
  intros _.
  by destruct (get_context_state o net task_id category profile group_size)
    as (_ & (_ & -> & -> & _) & _ & _).
Qed.

Lemma run_keeps_no_approaches (calls : list Call) (o : OperatorOversight) :
  Forall records_nothing calls →
  successful_approaches (run o calls) = successful_approaches o ∧
  failed_approaches (run o calls) = failed_approaches o.
Proof.
  intros H. revert o. induction H as [|c calls Hc _ IH]; intros o; [done|].
  unfold run. cbn [fold_left]. fold (run (call o c) calls).
  destruct (IH (call o c)) as [-> ->]. by apply call_keeps_no_approaches.
Qed.

Lemma get_context_no_approaches o net task_id category profile group_size :
  successful_approaches o = [] → failed_approaches o = [] →
  fst (fst (get_context o net task_id category profile group_size)) = EmptyString ∧
  snd (get_context o net task_id category profile group_size) = [].
Proof.
  intros Hs Hf. rewrite get_context_unfold. cbv zeta.
  unfold total_approaches, mechanical. rewrite Hs, Hf. by cbn.
Qed.

(** *** The properties of the coordinator *)

(** C6.  The caps are applied when a text is stored, and a stored text is
    never longer than its cap.  [record_success] stores the first 400
    characters of the approach and of the profile, [record_failure] the
    first 300 characters of the approach, [observe] the first 300
    characters of the detail and [record_profile] the first 500 characters
    of the profile; an approach of length 399, 400 or 401 is stored by
    [record_success] with length 399, 400 or 400.  Every state reached
    from [init] by any calls keeps all stored texts within their caps. *)
Theorem stored_text_within_caps :
  (∀ o category approach count profile,
     successful_approaches (record_success o category approach count profile)
     = successful_approaches o ++
       [ {| s_category := category; s_approach := str_take 400 approach;
            s_profile := str_take 400 profile; s_count := count |} ]) ∧
  (∀ o category approach,
     failed_approaches (record_failure o category approach)
     = failed_approaches o ++
       [ {| f_category := category; f_approach := str_take 300 approach |} ]) ∧
  (∀ o now task_id stage model category detail,
     activity_log (observe o now task_id stage model category detail)
     = activity_log o ++
       [ {| ev_task_id := task_id; ev_stage := stage; ev_model := model;
            ev_category := category; ev_detail := str_take 300 detail;
            ev_time := now |} ]) ∧
  (∀ o task_id profile,
     active_profiles (record_profile o task_id profile) !! task_id
     = Some (str_take 500 profile)) ∧
  (∀ n s,
     String.length (str_take n s) = Nat.min n (String.length s) ∧
     (String.length (str_take n s) ≤ n)%nat ∧
     ((String.length s ≤ n)%nat → str_take n s = s) ∧
     ∃ rest, s = str_take n s +:+ rest) ∧
  (∀ approach,
     (String.length approach = 399%nat → String.length (str_take 400 approach) = 399%nat) ∧
     (String.length approach = 400%nat → String.length (str_take 400 approach) = 400%nat) ∧
     (String.length approach = 401%nat → String.length (str_take 400 approach) = 400%nat)) ∧
  (∀ url model timeout calls, within_caps (run (init url model timeout) calls)).
Proof.
  split_and!.
  - done.
  - done.
  - done.
  - intros o task_id profile. fields_simpl. apply lookup_insert_eq.
  - intros n s. rewrite str_take_length. split_and!; [done|lia| |].
    + apply str_take_all.
    + apply str_take_prefix.
  - intros approach. rewrite str_take_length. split_and!; lia.
  - intros url model timeout calls.
    assert (Hstep : ∀ o c, within_caps o → within_caps (call o c)).
    { intros o c (Hlog & Hs & Hf & Hp).
      destruct c; cbn [call]; unfold within_caps.
      - fields_simpl. split_and!; try done. apply Forall_app. split; [done|].
        apply Forall_singleton. fields_simpl. rewrite str_take_length. lia.
      - fields_simpl. split_and!; try done. apply map_Forall_insert_2; [|done].
        rewrite str_take_length. lia.
      - fields_simpl. split_and!; try done. apply Forall_app. split; [done|].
        apply Forall_singleton. fields_simpl. rewrite !str_take_length. lia.
      - fields_simpl. split_and!; try done. apply Forall_app. split; [done|].
        apply Forall_singleton. fields_simpl. rewrite str_take_length. lia.
      - destruct (get_context_state o net task_id category profile group_size)
          as (_ & (E1 & E2 & E3 & E4) & _ & _).
        by rewrite E1, E2, E3, E4. }
    assert (Hrun : ∀ o, within_caps o → within_caps (run o calls)).
    { induction calls as [|c calls IH]; intros o Ho; [done|].
      unfold run. cbn [fold_left]. apply IH. by apply Hstep. }
    apply Hrun. unfold within_caps, init.
    cbn [activity_log successful_approaches failed_approaches active_profiles].
    split_and!; first [apply Forall_nil_2 | apply map_Forall_empty].
Qed.

Lemma stored_text_within_caps_witness :
  String.length (str_repeat "a" 401) = 401%nat ∧
  String.length (str_take 400 (str_repeat "a" 401)) = 400%nat.
Proof.
  assert (H : String.length (str_repeat "a" 401) = 401%nat)
    by apply str_repeat_length.
  split; [exact H|].
  exact (proj2 (proj2 (proj1 (proj2 (proj2 (proj2 (proj2 (proj2
           stored_text_within_caps))))) (str_repeat "a" 401))) H).
Defined.

(** C7.  When no success and no failure is recorded, [get_context]
    returns the empty string, whatever the task, category, profile, group
    size and service, and sends no request.  This is so in every state
    reached from a new coordinator by calls that record no approach:
    [observe], [record_profile] and [get_context] itself. *)
Theorem get_context_empty_without_approaches :
  (∀ o net task_id category profile group_size,
     successful_approaches o = [] → failed_approaches o = [] →
     fst (fst (get_context o net task_id category profile group_size)) = EmptyString ∧
     snd (get_context o net task_id category profile group_size) = []) ∧
  (∀ url model timeout httpx calls net task_id category profile group_size,
     Forall records_nothing calls →
     fst (fst (get_context (run (initialize httpx (init url model timeout)) calls)
                 net task_id category profile group_size)) = EmptyString).
Proof.
  split.
  - apply get_context_no_approaches.
  - intros url model timeout httpx calls net task_id category profile group_size H.
    destruct (run_keeps_no_approaches calls
                (initialize httpx (init url model timeout)) H) as [Hs Hf].
    by apply get_context_no_approaches.
Qed.

Lemma get_context_empty_without_approaches_witness :
  Forall records_nothing
    [ Observe "12:00" "group_1" "starting" "analyst" "spatial" "";
      RecordProfile "group_1" "Grid rotation with color preservation";
      GetContext long_service "group_1" "spatial" "" 1 ] ∧
  fst (fst (get_context
              (run (initialize true new_operator)
                 [ Observe "12:00" "group_1" "starting" "analyst" "spatial" "";
                   RecordProfile "group_1" "Grid rotation with color preservation";
                   GetContext long_service "group_1" "spatial" "" 1 ])
              long_service "group_2" "spatial" "Similar grid rotation" 10))
  = EmptyString.
Proof.
  assert (H : Forall records_nothing
    [ Observe "12:00" "group_1" "starting" "analyst" "spatial" "";
      RecordProfile "group_1" "Grid rotation with color preservation";
      GetContext long_service "group_1" "spatial" "" 1 ])
    by (repeat apply Forall_cons_2; [exact I..|apply Forall_nil_2]).
  split; [exact H|].
  exact (proj2 get_context_empty_without_approaches
           _ _ _ true _ long_service "group_2"%string "spatial"%string
           "Similar grid rotation"%string 10 H).
Defined.

(** C8 (amended).  [get_context] sends no request while fewer than 2
    approaches are recorded.  With at least 2 it sends exactly one, and the
    tier-2 part is decided by the generated text with its leading and
    trailing whitespace removed: when that stripped text is longer than 20
    characters, [total_suggestions_made] grows by 1 and the part is the
    marker followed by the stripped text; otherwise the part is empty and
    the counter is unchanged. *)
Theorem tier2_briefing_gate o net task_id category profile group_size :
  let result := get_context o net task_id category profile group_size in
  let ctx := fst (fst result) in
  let o' := snd (fst result) in
  let sent := snd result in
  let mech_text := join NL (mechanical o category) in
  let prompt :=
    briefing_prompt (_build_activity_summary o category) category group_size profile in
  let generated := fst (_generate o net prompt briefing_system) in
  (total_approaches o < 2 →
     sent = [] ∧ ctx = join_parts mech_text EmptyString ∧
     total_suggestions_made o' = total_suggestions_made o) ∧
  (2 ≤ total_approaches o →
     sent = [make_request o prompt briefing_system] ∧
     ((∃ text, generated = JStr text ∧
          (20 < String.length (strip text))%nat ∧
          ctx = join_parts mech_text (OPERATOR_NOTES +:+ strip text) ∧
          total_suggestions_made o' = total_suggestions_made o + 1)
      ∨ ((∀ text, generated = JStr text → (String.length (strip text) ≤ 20)%nat) ∧
         ctx = join_parts mech_text EmptyString ∧
         total_suggestions_made o' = total_suggestions_made o))).
Proof.
  cbv zeta. rewrite get_context_unfold. cbv zeta. split.
  - intros Hlt. apply Z.leb_gt in Hlt. rewrite Hlt. done.
  - intros Hge. pose proof Hge as Hne%total_approaches_ge_2.
    apply Z.leb_le in Hge. rewrite Hge.
    rewrite (generate_briefing_unfold
               (set_groups_processed (groups_processed o + 1) o)) by exact Hne.
    cbv zeta. cbn [fst snd]. split; [done|].
    unfold _generate. cbn [fst].
    set (o1 := set_groups_processed (groups_processed o + 1) o).
    set (prompt := briefing_prompt (_build_activity_summary o category)
                     category group_size profile).
    change (briefing_prompt (_build_activity_summary o1 category)
              category group_size profile) with prompt.
    change (make_request o1 prompt briefing_system)
      with (make_request o prompt briefing_system).
    change (_generate_body o1 net (make_request o prompt briefing_system))
      with (_generate_body o net (make_request o prompt briefing_system)).
    destruct (use_briefing_cases o1
                (try_except (_generate_body o net
                               (make_request o prompt briefing_system)) JNull))
      as [(text & Hg & Hlen & ->)|(Hall & ->)]; cbn [fst snd].
    + left. exists text. done.
    + right. done.
Qed.

Lemma tier2_briefing_gate_witness :
  2 ≤ total_approaches two_failures ∧
  snd (get_context two_failures long_service "group_2" "spatial"
         "Similar grid rotation" 10)
  = [make_request two_failures
       (briefing_prompt (_build_activity_summary two_failures "spatial")
          "spatial" 10 "Similar grid rotation") briefing_system].
Proof.
  assert (H : 2 ≤ total_approaches two_failures) by (by vm_compute).
  split; [exact H|].
  exact (proj1 (proj2 (tier2_briefing_gate two_failures long_service
                         "group_2" "spatial" "Similar grid rotation" 10) H)).
Defined.

(** C8 as stated fails on text padded with whitespace: with 2 approaches
    recorded the service answers 29 characters, of which 17 remain after
    stripping; the text is longer than 20 characters, yet the counter is
    not incremented and the result has no tier-2 part. *)
Lemma tier2_briefing_counts_stripped_text :
  let prompt :=
    briefing_prompt (_build_activity_summary two_failures "spatial")
      "spatial" 10 "Similar grid rotation" in
  let result :=
    get_context two_failures padded_service "group_2" "spatial"
      "Similar grid rotation" 10 in
  2 ≤ total_approaches two_failures ∧
  fst (_generate two_failures padded_service prompt briefing_system)
  = JStr padded_reply ∧
  (20 < String.length padded_reply)%nat ∧
  total_suggestions_made (snd (fst result))
  ≠ total_suggestions_made two_failures + 1 ∧
  total_suggestions_made (snd (fst result)) = total_suggestions_made two_failures ∧
  fst (fst result) = join NL (mechanical two_failures "spatial").
Proof. cbv zeta. split_and!; first [by vm_compute | vm_compute; lia]. Qed.

(** *** The briefing generator *)

(** Whatever the service does, [_generate] returns a value and sends one
    request; a failing post, a status other than 200, a body that does not
    decode and a decoded body that is not an object all give [None]. *)
Lemma _generate_failures_give_None o net prompt system :
  let req := make_request o prompt system in
  snd (_generate o net prompt system) = [req] ∧
  (∀ e, net req = PostRaises e → fst (_generate o net prompt system) = JNull) ∧
  (∀ c b, net req = Response c b → c ≠ 200 →
          fst (_generate o net prompt system) = JNull) ∧
  (net req = Response 200 None → fst (_generate o net prompt system) = JNull) ∧
  (∀ data, net req = Response 200 (Some data) →
           (∀ d, data ≠ JObj d) → fst (_generate o net prompt system) = JNull).
Proof.
  cbv zeta. unfold _generate, _generate_body, post. cbn [fst snd].
  split_and!; [done|..].
  - intros e ->. by destruct (has_client o).
  - intros c b -> Hc. apply Z.eqb_neq in Hc. cbn [bind fst]. rewrite Hc.
    by destruct (has_client o).
  - intros ->. by destruct (has_client o).
  - intros data -> Hd. cbn [bind fst snd resp_json Z.eqb Pos.eqb].
    destruct data; try (by destruct (has_client o)). by destruct (Hd d).
Qed.

(** On the httpx path an empty primary text is replaced by a non-empty
    reasoning text. *)
Lemma _generate_httpx_fallback o net prompt system d thinking :
  has_client o = true →
  net (make_request o prompt system) = Response 200 (Some (JObj d)) →
  truthy (default (JStr EmptyString) (assoc "response" d)) = false →
  assoc "thinking" d = Some thinking → truthy thinking = true →
  fst (_generate o net prompt system) = thinking.
Proof.
  intros Hc Hnet Hr Ht Htt. unfold _generate, _generate_body, post.
  rewrite Hc, Hnet. cbn [fst snd bind resp_json dict_get Z.eqb Pos.eqb].
  rewrite Hr, Ht. cbn [from_option id negb andb]. rewrite Htt. done.
Qed.

(** On the aiohttp path the reasoning text is never read. *)
Lemma _generate_aiohttp_primary_only o net prompt system d :
  has_client o = false →
  net (make_request o prompt system) = Response 200 (Some (JObj d)) →
  fst (_generate o net prompt system)
  = default (JStr EmptyString) (assoc "response" d).
Proof.
  intros Hc Hnet. unfold _generate, _generate_body, post.
  rewrite Hc, Hnet. done.
Qed.

(** C9 (the code departs from it).  The service answers with an empty
    primary text and a non-empty reasoning text.  With the httpx client
    [_generate] returns the reasoning text; without it, on the aiohttp
    path, it returns the empty primary text, and the briefing of
    [generate_briefing] is empty instead of carrying the reasoning text. *)
Theorem _generate_aiohttp_drops_thinking :
  let httpx := initialize true two_failures in
  let aiohttp := initialize false two_failures in
  fst (_generate httpx thinking_only_service "prompt" "system")
  = JStr "Reuse the rotation approach." ∧
  fst (_generate aiohttp thinking_only_service "prompt" "system")
  = JStr EmptyString ∧
  fst (fst (generate_briefing httpx thinking_only_service
              "group_2" "spatial" "Similar grid rotation" 10))
  = OPERATOR_NOTES +:+ "Reuse the rotation approach." ∧
  fst (fst (generate_briefing aiohttp thinking_only_service
              "group_2" "spatial" "Similar grid rotation" 10))
  = EmptyString.
Proof. cbv zeta. split_and!; by vm_compute. Qed.

(** C10.  Every call of [get_context] adds exactly 1 to
    [groups_processed], leaves the activity log, the successes, the
    failures and the profile cache as they were, and changes nothing else
    but [total_suggestions_made], which stays or grows by 1. *)
Theorem get_context_frame o net task_id category profile group_size :
  let o' := snd (fst (get_context o net task_id category profile group_size)) in
  groups_processed o' = groups_processed o + 1 ∧
  activity_log o' = activity_log o ∧
  successful_approaches o' = successful_approaches o ∧
  failed_approaches o' = failed_approaches o ∧
  active_profiles o' = active_profiles o ∧
  (total_suggestions_made o' = total_suggestions_made o
   ∨ total_suggestions_made o' = total_suggestions_made o + 1) ∧
  ollama_url o' = ollama_url o ∧
  operator_model o' = operator_model o ∧
  operator_timeout o' = operator_timeout o ∧
  has_client o' = has_client o.
Proof.
  cbv zeta.
  destruct (get_context_state o net task_id category profile group_size)
    as (Hg & (H1 & H2 & H3 & H4) & Ht & (H5 & H6 & H7 & H8)).
  by split_and!.
Qed.

End OversightFacts.

(** ** Further facts about the allocator *)

Module LauncherExtra.
Import Launcher LauncherFacts Startup.

(** *** The processing order, tier by tier *)

Lemma tier_range (m : string) : 1 ≤ tier (lookup_spec m) ≤ 4.
Proof. by destruct (lookup_spec_wf m) as (b & k & _ & _ & _ & _ & H). Qed.

Lemma sort_by_tier_const (t : Z) l :
  (∀ x, x ∈ l → tier (snd x) = t) → sort_by_tier l = l.
Proof.
  induction l as [|x l IH]; intros H; [done|].
  cbn [sort_by_tier foldr]. fold (sort_by_tier l).
  rewrite IH by (intros y Hy; apply H; by right).
  destruct l as [|y l]; [done|]. cbn [insert_by_tier].
  rewrite (H x) by (by left). rewrite (H y) by (right; by left).
  by rewrite Z.leb_refl.
Qed.

Lemma model_specs_const (t : Z) models :
  (∀ m, m ∈ models → tier (lookup_spec m) = t) →
  model_specs models = (λ m, (m, lookup_spec m)) <$> models.
Proof.
  intros H. unfold model_specs. apply (sort_by_tier_const t).
  intros x (m & -> & Hm)%list_elem_of_fmap. by apply H.
Qed.

Lemma model_specs_groups (models : list string) :
  model_specs models
  = ((λ m, (m, lookup_spec m)) <$> filter (λ m, tier (lookup_spec m) = 1) models)
    ++ ((λ m, (m, lookup_spec m)) <$> filter (λ m, tier (lookup_spec m) = 2) models)
    ++ ((λ m, (m, lookup_spec m)) <$> filter (λ m, tier (lookup_spec m) = 3) models)
    ++ ((λ m, (m, lookup_spec m)) <$> filter (λ m, tier (lookup_spec m) = 4) models).
Proof.
  assert (Hstep : ∀ (t : Z) l,
    (∀ m, m ∈ l → t ≤ tier (lookup_spec m)) →
    model_specs l
    = ((λ m, (m, lookup_spec m)) <$> filter (λ m, tier (lookup_spec m) = t) l)
      ++ model_specs (filter (λ m, t < tier (lookup_spec m)) l)).
  { intros t l Hl. rewrite (model_specs_split t l) at 1. f_equal.
    rewrite (model_specs_const t).
    - f_equal. induction l as [|m l IH]; [done|].
      rewrite !filter_cons.
      assert (t ≤ tier (lookup_spec m)) by (apply Hl; by left).
      rewrite IH by (intros m' Hm'; apply Hl; by right).
      repeat case_decide; first [done | lia].
    - intros m [Hm Hin]%list_elem_of_filter. specialize (Hl m Hin). lia. }
  rewrite (Hstep 1) by (intros m _; pose proof (tier_range m); lia). f_equal.
  rewrite (Hstep 2) by (intros m [Hm _]%list_elem_of_filter; lia).
  rewrite !list_filter_filter.
  rewrite (list_filter_iff (λ m, tier (lookup_spec m) = 2 ∧ 1 < tier (lookup_spec m))
             (λ m, tier (lookup_spec m) = 2)) by (intros m; lia).
  f_equal.
  rewrite (Hstep 3) by (intros m [Hm _]%list_elem_of_filter; lia).
  rewrite !list_filter_filter.
  rewrite (list_filter_iff
             (λ m, tier (lookup_spec m) = 3
                   ∧ 2 < tier (lookup_spec m) ∧ 1 < tier (lookup_spec m))
             (λ m, tier (lookup_spec m) = 3)) by (intros m; lia).
  f_equal.
  rewrite (model_specs_const 4).
  - f_equal. apply list_filter_iff. intros m. pose proof (tier_range m). lia.
  - intros m [Hm _]%list_elem_of_filter. pose proof (tier_range m). lia.
Qed.

(** X1.  The processing order of [allocate_stack] is the tier-1 models of
    the input in input order, then the tier-2 models in input order, then
    tier 3, then tier 4, each paired with its spec. *)
Theorem model_specs_by_tier (models : list string) :
  model_specs models
  = ((λ m, (m, lookup_spec m)) <$> filter (λ m, tier (lookup_spec m) = 1) models)
    ++ ((λ m, (m, lookup_spec m)) <$> filter (λ m, tier (lookup_spec m) = 2) models)
    ++ ((λ m, (m, lookup_spec m)) <$> filter (λ m, tier (lookup_spec m) = 3) models)
    ++ ((λ m, (m, lookup_spec m)) <$> filter (λ m, tier (lookup_spec m) = 4) models).
Proof. apply model_specs_groups. Qed.



(** *** Memory and budget along the run *)





(** *** The entries of the result *)


(** *** The parallel setting of the server *)













(** *** More memory *)




End LauncherExtra.

(** ** Facts about detection, start-up and the main plan *)

Module StartupFacts.
Import Launcher LauncherFacts Startup LauncherExtra.

(** *** The environment of the server *)

(** X10.  In the environment that [start_ollama] passes to the server, a
    variable of the hardware profile has the profile's value, also when
    the process environment or the parallel setting define it;
    [OLLAMA_NUM_PARALLEL] is otherwise the decimal text of the parallel
    setting, and every other variable is inherited from the process
    environment. *)
Theorem start_env_lookup (environ hardware_env : gmap string string)
    (max_parallel : Z) (key : string) :
  start_env environ hardware_env max_parallel !! key
  = match hardware_env !! key with
    | Some val => Some val
    | None =>
        if decide (key = "OLLAMA_NUM_PARALLEL"%string)
        then Some (pretty max_parallel)
        else environ !! key
    end.
Proof.
  unfold start_env. revert key.
  apply (map_fold_weak_ind
           (λ r (m : gmap string string), ∀ key,
              r !! key = match m !! key with
                         | Some val => Some val
                         | None =>
                             if decide (key = "OLLAMA_NUM_PARALLEL"%string)
                             then Some (pretty max_parallel)
                             else environ !! key
                         end)).
  - intros key. rewrite lookup_empty, lookup_insert.
    destruct (decide (key = "OLLAMA_NUM_PARALLEL"%string)) as [->|Hne].
    + by rewrite decide_True.
    + by rewrite decide_False.
  - intros i x m r Hi IH key. rewrite !lookup_insert.
    destruct (decide (i = key)) as [->|Hne]; [done|]. apply IH.
Qed.

(** *** Waiting for the server *)

Lemma wait_rounds_spec (fuel : nat) (poll : nat → bool) (k : nat) :
  let r := wait_rounds fuel poll k in
  (fst r = true →
     (k < snd r ≤ k + fuel)%nat ∧ poll (snd r - 1)%nat = true ∧
     ∀ j, (k ≤ j < snd r - 1)%nat → poll j = false) ∧
  (fst r = false →
     snd r = (k + fuel)%nat ∧ ∀ j, (k ≤ j < k + fuel)%nat → poll j = false).
Proof.
  revert k. induction fuel as [|fuel IH]; intros k; cbn [wait_rounds].
  { cbn. split; [done|]. intros _. split; [lia|]. intros j Hj. lia. }
  destruct (poll k) eqn:E; cbn [fst snd].
  - split; [|done]. intros _. split; [lia|].
    replace (S k - 1)%nat with k by lia. split; [done|]. intros j Hj. lia.
  - destruct (IH (S k)) as [IHt IHf]. split.
    + intros Ht. destruct (IHt Ht) as (Hn & Hp & Hall).
      split; [lia|]. split; [done|]. intros j Hj.
      destruct (decide (j = k)) as [->|]; [done|]. apply Hall. lia.
    + intros Hf. destruct (IHf Hf) as (Hn & Hall).
      split; [lia|]. intros j Hj.
      destruct (decide (j = k)) as [->|]; [done|]. apply Hall. lia.
Qed.

(** X11.  The start-up wait of [start_ollama] reports success exactly
    when one of the first 30 checks finds the server running.  It stops at
    the first check that succeeds, and gives up, reporting failure, after
    exactly 30 checks. *)
Theorem wait_for_startup_spec (poll : nat → bool) :
  let started := fst (wait_for_startup poll) in
  let checks := snd (wait_for_startup poll) in
  (started = true ↔ ∃ k, (k < 30)%nat ∧ poll k = true) ∧
  (1 ≤ checks ≤ 30)%nat ∧
  (started = true →
     poll (checks - 1)%nat = true ∧ ∀ j, (j < checks - 1)%nat → poll j = false) ∧
  (started = false → checks = 30%nat).
Proof.
  cbv zeta. unfold wait_for_startup.
  destruct (wait_rounds_spec 30 poll 0) as [Ht Hf].
  destruct (fst (wait_rounds 30 poll 0)) eqn:E.
  - destruct (Ht eq_refl) as (Hn & Hp & Hall). split; [|split; [|split]].
    + split; [|done]. intros _. exists (snd (wait_rounds 30 poll 0) - 1)%nat.
      split; [lia|done].
    + lia.
    + intros _. split; [done|]. intros j Hj. apply Hall. lia.
    + done.
  - destruct (Hf eq_refl) as (Hn & Hall). split; [|split; [|split]].
    + split; [done|]. intros (k & Hk & Hp). rewrite Hall in Hp by lia. done.
    + lia.
    + done.
    + intros _. lia.
Qed.

(** *** Hardware detection *)

Lemma profiles_wf (key : string) (p : HardwareProfile) :
  (key, p) ∈ HARDWARE_PROFILES_items →
  HARDWARE_PROFILES !! key = Some p ∧
  (0 < hp_gpu_mem_gb p)%Q ∧ (0 <= hp_reserve_pct p <= 1)%Q ∧
  4 ≤ hp_peak_parallel p ≤ 16 ∧ hp_peak_parallel p ≤ hp_max_parallel p.
Proof.
  unfold HARDWARE_PROFILES_items. intros H.
  repeat (apply elem_of_cons in H as [[= -> ->]|H]);
    [..|by apply elem_of_nil in H];
    (split; [by vm_compute|]);
    cbn [hp_gpu_mem_gb hp_reserve_pct hp_peak_parallel hp_max_parallel
         dgx_spark evo_x2_92gb evo_x2_64gb generic_48gb generic_24gb_profile
         generic_16gb];
    (split; [unfold Qlt; simpl; lia|]);
    (split; [split; unfold Qle; simpl; lia|]); lia.
Qed.

Lemma detect_generic_from_table (pr : Probes) (k : nat) :
  (k ≤ 1)%nat → from_table pr (detect_generic pr k).
Proof.
  intros Hk. unfold detect_generic, from_table.
  destruct (detect_amd_gpu pr) as [amd|].
  { destruct (Qle_bool 120 (system_memory pr));
      eexists; (split; [cbn [d_profile of_profile]; table_entry|by left]). }
  destruct (nvidia_gpu pr k) as [nvidia|] eqn:En.
  - destruct (Qle_bool 100 (nv_memory_gb nvidia));
      [|destruct (Qle_bool 40 (nv_memory_gb nvidia));
        [|destruct (Qle_bool 20 (nv_memory_gb nvidia))]];
      eexists; (split; [cbn [d_profile of_profile]; table_entry|]);
      right; exists k, nvidia; done.
  - destruct (Qle_bool 120 (system_memory pr));
      [|destruct (Qle_bool 60 (system_memory pr))];
      eexists; (split; [cbn [d_profile of_profile]; table_entry|by left]).
Qed.

Lemma detect_hardware_from_table (pr : Probes) : from_table pr (detect_hardware pr).
Proof.
  unfold detect_hardware.
  destruct (String.eqb (system pr) "Linux");
    [|apply detect_generic_from_table; lia].
  destruct (match hostname_file pr with
            | Some content => hostname_is_dgx content
            | None => false
            end).
  { exists dgx_spark. split; [cbn [d_profile of_profile]; table_entry|by left]. }
  destruct (nvidia_gpu pr 0) as [nvidia|]; [|apply detect_generic_from_table; lia].
  destruct (contains "GB10" (nv_name nvidia)); [|apply detect_generic_from_table; lia].
  exists dgx_spark. split; [cbn [d_profile of_profile]; table_entry|by left].
Qed.

(** X12.  [detect_hardware] always answers with a profile of
    [HARDWARE_PROFILES], filed under its own key, with the name, the peak
    and maximum degrees, the reserve and the environment of that profile.
    On Linux a host name with [dgx] or [spark], or a first NVIDIA answer
    naming [GB10], gives the row [dgx_spark] unchanged.  Otherwise an AMD
    GPU gives the row [evo_x2_92gb] or [evo_x2_64gb], by the system
    memory; without one, an NVIDIA GPU gives the row chosen by the
    thresholds 100, 40 and 20 on the memory it reports, with that memory
    in place of the row's and the GPU's name as the label; without any GPU
    the system memory chooses among [evo_x2_92gb], [evo_x2_64gb] and
    [generic_24gb]. *)
Theorem detect_hardware_profile (pr : Probes) :
  let d := detect_hardware pr in
  let linux := String.eqb (system pr) "Linux" in
  let dgx_host := match hostname_file pr with
                  | Some content => hostname_is_dgx content
                  | None => false
                  end in
  let gb10 := match nvidia_gpu pr 0 with
              | Some nvidia => contains "GB10" (nv_name nvidia)
              | None => false
              end in
  let calls := if linux then 1%nat else 0%nat in
  (∃ p, HARDWARE_PROFILES !! d_profile d = Some p ∧
        hp_name (d_hw d) = hp_name p ∧
        hp_peak_parallel (d_hw d) = hp_peak_parallel p ∧
        hp_max_parallel (d_hw d) = hp_max_parallel p ∧
        hp_reserve_pct (d_hw d) = hp_reserve_pct p ∧
        hp_env (d_hw d) = hp_env p) ∧
  (linux && (dgx_host || gb10) = true →
   d_profile d = "dgx_spark"%string ∧ d_hw d = dgx_spark) ∧
  (linux && (dgx_host || gb10) = false →
   (∀ amd, detect_amd_gpu pr = Some amd →
      d = if Qle_bool 120 (system_memory pr)
          then of_profile "evo_x2_92gb" (amd_name amd) evo_x2_92gb
          else of_profile "evo_x2_64gb" (amd_name amd) evo_x2_64gb) ∧
   (∀ nvidia, detect_amd_gpu pr = None → nvidia_gpu pr calls = Some nvidia →
      d_detected d = nv_name nvidia ∧
      hp_gpu_mem_gb (d_hw d) = nv_memory_gb nvidia ∧
      d_profile d
      = (if Qle_bool 100 (nv_memory_gb nvidia) then "dgx_spark"
         else if Qle_bool 40 (nv_memory_gb nvidia) then "generic_48gb"
         else if Qle_bool 20 (nv_memory_gb nvidia) then "generic_24gb"
         else "generic_16gb")%string) ∧
   (detect_amd_gpu pr = None → nvidia_gpu pr calls = None →
      d = if Qle_bool 120 (system_memory pr)
          then of_profile "evo_x2_92gb" "Unknown (128GB RAM)" evo_x2_92gb
          else if Qle_bool 60 (system_memory pr)
          then of_profile "evo_x2_64gb" "Unknown (64GB RAM)" evo_x2_64gb
          else of_profile "generic_24gb" "Unknown" generic_24gb_profile)).
Proof.
  cbv zeta. split; [|split].
  - destruct (detect_hardware_from_table pr) as (p & Hin & Hhw).
    exists p. split; [by apply profiles_wf|].
    by destruct Hhw as [->|(k & nvidia & _ & Hn & -> & Hd)].
  - unfold detect_hardware.
    destruct (String.eqb (system pr) "Linux"); cbn [andb]; [|done].
    destruct (match hostname_file pr with
              | Some content => hostname_is_dgx content
              | None => false
              end); cbn [orb]; [done|].
    destruct (nvidia_gpu pr 0) as [nvidia|]; [|done].
    by destruct (contains "GB10" (nv_name nvidia)).
  - unfold detect_hardware.
    assert (∀ k,
      (∀ amd, detect_amd_gpu pr = Some amd →
         detect_generic pr k
         = if Qle_bool 120 (system_memory pr)
           then of_profile "evo_x2_92gb" (amd_name amd) evo_x2_92gb
           else of_profile "evo_x2_64gb" (amd_name amd) evo_x2_64gb) ∧
      (∀ nvidia, detect_amd_gpu pr = None → nvidia_gpu pr k = Some nvidia →
         d_detected (detect_generic pr k) = nv_name nvidia ∧
         hp_gpu_mem_gb (d_hw (detect_generic pr k)) = nv_memory_gb nvidia ∧
         d_profile (detect_generic pr k)
         = (if Qle_bool 100 (nv_memory_gb nvidia) then "dgx_spark"
            else if Qle_bool 40 (nv_memory_gb nvidia) then "generic_48gb"
            else if Qle_bool 20 (nv_memory_gb nvidia) then "generic_24gb"
            else "generic_16gb")%string) ∧
      (detect_amd_gpu pr = None → nvidia_gpu pr k = None →
         detect_generic pr k
         = if Qle_bool 120 (system_memory pr)
           then of_profile "evo_x2_92gb" "Unknown (128GB RAM)" evo_x2_92gb
           else if Qle_bool 60 (system_memory pr)
           then of_profile "evo_x2_64gb" "Unknown (64GB RAM)" evo_x2_64gb
           else of_profile "generic_24gb" "Unknown" generic_24gb_profile)) as Hgen.
    { intros k. unfold detect_generic. split; [|split].
      - by intros amd ->.
      - intros nvidia -> ->. cbv zeta.
        destruct (Qle_bool 100 (nv_memory_gb nvidia)); [done|].
        destruct (Qle_bool 40 (nv_memory_gb nvidia)); [done|].
        by destruct (Qle_bool 20 (nv_memory_gb nvidia)).
      - by intros -> ->. }
    destruct (String.eqb (system pr) "Linux"); cbn [andb]; [|intros _; apply Hgen].
    destruct (match hostname_file pr with
              | Some content => hostname_is_dgx content
              | None => false
              end); cbn [orb]; [done|].
    destruct (nvidia_gpu pr 0) as [nvidia|]; [|intros _; apply Hgen].
    destruct (contains "GB10" (nv_name nvidia)); [done|]. intros _. apply Hgen.
Qed.

Lemma detect_hardware_profile_witness :
  let pr := {| system := "Windows"; hostname_file := None;
               nvidia_gpu := λ _, Some {| nv_name := "NVIDIA GeForce RTX 4090";
                                          nv_memory_gb := 24564 / 1024 |};
               powershell_gpu := Some "NVIDIA GeForce RTX 4090"%string;
               rocm_smi := None; system_memory := 64 |} in
  detect_amd_gpu pr = None ∧
  d_detected (detect_hardware pr) = "NVIDIA GeForce RTX 4090"%string ∧
  hp_gpu_mem_gb (d_hw (detect_hardware pr)) = (24564 / 1024)%Q ∧
  d_profile (detect_hardware pr) = "generic_24gb"%string.
Proof.
  intros pr.
  assert (H0 : String.eqb (system pr) "Linux"
               && (match hostname_file pr with
                   | Some content => hostname_is_dgx content
                   | None => false
                   end
                   || match nvidia_gpu pr 0 with
                      | Some nvidia => contains "GB10" (nv_name nvidia)
                      | None => false
                      end) = false) by reflexivity.
  assert (H1 : detect_amd_gpu pr = None) by reflexivity.
  assert (H2 : nvidia_gpu pr 0
               = Some {| nv_name := "NVIDIA GeForce RTX 4090";
                         nv_memory_gb := 24564 / 1024 |}) by reflexivity.
  split; [exact H1|].
  exact (proj1 (proj2 (proj2 (proj2 (detect_hardware_profile pr)) H0)) _ H1 H2).
Defined.

(** X13.  [detect_amd_gpu] finds a GPU only on Windows, and only when the
    output of the PowerShell query contains [Radeon] and either [8060S] or,
    in any letter case, [MAX+]; what it then returns is always the same
    name with no memory size.  On every other system it returns nothing,
    whatever [rocm-smi] answers. *)
Theorem detect_amd_gpu_windows_only (pr : Probes) :
  (system pr ≠ "Windows"%string → detect_amd_gpu pr = None) ∧
  (∀ amd, detect_amd_gpu pr = Some amd →
     system pr = "Windows"%string ∧
     amd = {| amd_name := "AMD Radeon 8060S (Ryzen AI MAX+)"; amd_memory_gb := None |} ∧
     ∃ stdout, powershell_gpu pr = Some stdout ∧
               contains "Radeon" stdout = true ∧
               (contains "8060S" stdout = true ∨ contains "MAX+" (upper stdout) = true)).
Proof.
  unfold detect_amd_gpu. split.
  - intros Hne. apply String.eqb_neq in Hne. rewrite Hne.
    by destruct (rocm_smi pr) as [[? ?]|].
  - intros amd. destruct (String.eqb (system pr) "Windows") eqn:Es.
    + apply String.eqb_eq in Es.
      destruct (powershell_gpu pr) as [stdout|]; [|done].
      destruct (contains "Radeon" stdout) eqn:E1; [|done].
      destruct (contains "8060S" stdout) eqn:E2; cbn [orb].
      * intros [= <-]. split_and!; try done. exists stdout. auto.
      * destruct (contains "MAX+" (upper stdout)) eqn:E3; [|done].
        intros [= <-]. split_and!; try done. exists stdout. auto.
    + by destruct (rocm_smi pr) as [[? ?]|].
Qed.

Lemma detect_amd_gpu_windows_only_witness :
  let pr := {| system := "Linux"; hostname_file := Some "workstation";
               nvidia_gpu := λ _, None; powershell_gpu := None;
               rocm_smi := Some (0, "GPU[0] : VRAM Total Memory (B): 68719476736"%string);
               system_memory := 128 |} in
  system pr ≠ "Windows"%string ∧ detect_amd_gpu pr = None.
Proof.
  intros pr.
  assert (H : system pr ≠ "Windows"%string) by discriminate.
  split; [exact H|].
  exact (proj1 (detect_amd_gpu_windows_only pr) H).
Defined.

End StartupFacts.

(** ** Further facts about the coordinator *)

Module OversightExtra.
Import Oversight OversightFacts Reporting.

(** *** The records kept *)

Lemma call_logs (o : OperatorOversight) (c : Call) :
  activity_log (call o c) = activity_log o ++ option_list (event_of c) ∧
  successful_approaches (call o c)
  = successful_approaches o ++ option_list (success_of c) ∧
  failed_approaches (call o c) = failed_approaches o ++ option_list (failure_of c).
Proof.
  destruct c; cbn [call event_of success_of failure_of option_list];
    rewrite ?app_nil_r; try done.
  destruct (get_context_state o net task_id category profile group_size)
    as (_ & (-> & -> & -> & _) & _ & _).
  done.
Qed.

Lemma run_logs (o : OperatorOversight) (calls : list Call) :
  activity_log (run o calls) = activity_log o ++ omap event_of calls ∧
  successful_approaches (run o calls)
  = successful_approaches o ++ omap success_of calls ∧
  failed_approaches (run o calls) = failed_approaches o ++ omap failure_of calls.
Proof.
  revert o. induction calls as [|c calls IH]; intros o.
  { cbn. by rewrite !app_nil_r. }
  unfold run. cbn [fold_left]. fold (run (call o c) calls).
  destruct (IH (call o c)) as (-> & -> & ->).
  destruct (call_logs o c) as (-> & -> & ->).
  rewrite <- !app_assoc.
  by destruct c.
Qed.

(** X16.  The activity log, the successes and the failures only grow, by
    one record per call and in the order of the calls: after any sequence
    of calls each of them is what it was, followed by the records of the
    [observe], [record_success] and [record_failure] calls of the
    sequence, with their texts cut to the caps.  Nothing is dropped,
    merged or reordered, and [get_context] and [record_profile] add
    nothing. *)
Theorem logs_are_append_only (o : OperatorOversight) (calls : list Call) :
  activity_log (run o calls) = activity_log o ++ omap event_of calls ∧
  successful_approaches (run o calls)
  = successful_approaches o ++ omap success_of calls ∧
  failed_approaches (run o calls) = failed_approaches o ++ omap failure_of calls.
Proof. apply run_logs. Qed.

Lemma omap_length_count {A} (f : Call → option A) (test : Call → bool) calls :
  (∀ c, is_Some (f c) ↔ test c = true) →
  length (omap f calls) = count_calls test calls.
Proof.
  intros H. unfold count_calls.
  induction calls as [|c calls IH]; [done|]. cbn [omap list_omap List.filter].
  destruct (f c) as [x|] eqn:E.
  - assert (test c = true) as -> by (apply H; rewrite E; eauto).
    cbn [length]. by rewrite <- IH.
  - destruct (test c) eqn:Et; [|done].
    apply H in Et. rewrite E in Et. by destruct Et.
Qed.

Lemma run_profiles_size (o : OperatorOversight) (calls : list Call) :
  (size (active_profiles (run o calls))
   ≤ size (active_profiles o) + count_calls is_record_profile calls)%nat.
Proof.
  revert o. induction calls as [|c calls IH]; intros o.
  { cbn. lia. }
  unfold run. cbn [fold_left]. fold (run (call o c) calls).
  etrans; [apply IH|].
  assert (Hc : active_profiles (call o c)
               = match c with
                 | RecordProfile task_id profile =>
                     <[task_id := str_take 500 profile]> (active_profiles o)
                 | _ => active_profiles o
                 end).
  { destruct c; cbn [call]; try done.
    by destruct (get_context_state o net task_id category profile group_size)
      as (_ & (_ & _ & _ & ->) & _ & _). }
  rewrite Hc. unfold count_calls. cbn [List.filter].
  destruct c; cbn [is_record_profile length]; try lia.
  destruct (active_profiles o !! task_id) as [old|] eqn:E.
  - rewrite map_size_insert_Some by eauto. lia.
  - rewrite map_size_insert_None by done. lia.
Qed.

Lemma call_counters (o : OperatorOversight) (c : Call) :
  groups_processed (call o c)
  = groups_processed o + (if is_get_context c then 1 else 0) ∧
  total_suggestions_made o ≤ total_suggestions_made (call o c)
  ≤ total_suggestions_made o + (if is_get_context c then 1 else 0).
Proof.
  destruct c; cbn [call is_get_context];
    try (fields_simpl; split; lia).
  destruct (get_context_state o net task_id category profile group_size)
    as (-> & _ & Hs & _). split; lia.
Qed.

(** X17.  After any sequence of calls on a new coordinator, [summary]
    reports the calls made: the observations, successes and failures are
    the numbers of [observe], [record_success] and [record_failure] calls,
    [groups_processed] is the number of [get_context] calls, the
    suggestions lie between 0 and that number, and the cached profiles are
    at most the [record_profile] calls. *)
Theorem summary_counts_calls url model timeout (calls : list Call) :
  let s := summary (run (init url model timeout) calls) in
  sum_total_observations s = count_calls is_observe calls ∧
  sum_successful_approaches s = count_calls is_record_success calls ∧
  sum_failed_approaches s = count_calls is_record_failure calls ∧
  sum_groups_processed s = Z.of_nat (count_calls is_get_context calls) ∧
  0 ≤ sum_suggestions_generated s ≤ sum_groups_processed s ∧
  (sum_profiles_cached s ≤ count_calls is_record_profile calls)%nat.
Proof.
  cbv zeta. unfold summary.
  cbn [sum_total_observations sum_successful_approaches sum_failed_approaches
       sum_groups_processed sum_suggestions_generated sum_profiles_cached].
  destruct (run_logs (init url model timeout) calls) as (-> & -> & ->).
  assert (H : ∀ o,
    groups_processed (run o calls)
    = groups_processed o + Z.of_nat (count_calls is_get_context calls) ∧
    total_suggestions_made o ≤ total_suggestions_made (run o calls)
    ≤ total_suggestions_made o + Z.of_nat (count_calls is_get_context calls)).
  { induction calls as [|c calls IH]; intros o.
    { cbn. lia. }
    unfold run. cbn [fold_left]. fold (run (call o c) calls).
    destruct (IH (call o c)) as (-> & Hs).
    destruct (call_counters o c) as (-> & Hc).
    unfold count_calls in *. cbn [List.filter].
    destruct (is_get_context c); cbn [length]; lia. }
  destruct (H (init url model timeout)) as (-> & Hs).
  pose proof (run_profiles_size (init url model timeout) calls) as Hp.
  cbn [groups_processed total_suggestions_made activity_log successful_approaches
       failed_approaches active_profiles init] in *.
  rewrite map_size_empty in Hp. cbn [app].
  split_and!; try lia.
  - apply omap_length_count. intros c. destruct c; cbn; split;
      first [done | by eauto | by intros [? ?]].
  - apply omap_length_count. intros c. destruct c; cbn; split;
      first [done | by eauto | by intros [? ?]].
  - apply omap_length_count. intros c. destruct c; cbn; split;
      first [done | by eauto | by intros [? ?]].
Qed.

(** *** The profile cache *)

Lemma call_profiles (o : OperatorOversight) (c : Call) :
  active_profiles (call o c)
  = match c with
    | RecordProfile task_id profile =>
        <[task_id := str_take 500 profile]> (active_profiles o)
    | _ => active_profiles o
    end.
Proof.
  destruct c; cbn [call]; try done.
  by destruct (get_context_state o net task_id category profile group_size)
    as (_ & (_ & _ & _ & ->) & _ & _).
Qed.

(** X18.  The profile cache keeps, for every task, the first 500
    characters of the profile of the last [record_profile] call for that
    task; a task without such a call keeps what the cache held before.  No
    other call touches the cache, and the number of cached profiles grows by
    at most one per [record_profile] call. *)
Theorem profile_cache_last_write_wins (o : OperatorOversight) (calls : list Call)
    (task_id : string) :
  active_profiles (run o calls) !! task_id
  = match last_profile task_id calls with
    | Some profile => Some (str_take 500 profile)
    | None => active_profiles o !! task_id
    end ∧
  (size (active_profiles (run o calls))
   ≤ size (active_profiles o) + count_calls is_record_profile calls)%nat.
Proof.
  split.
  - induction calls as [|c calls IH] using rev_ind; [done|].
    unfold run, last_profile in *. rewrite fold_left_app, foldl_app.
    cbn [fold_left foldl]. rewrite call_profiles.
    destruct c; try exact IH.
    destruct (String.eqb task_id0 task_id) eqn:Et.
    + apply String.eqb_eq in Et as ->. by rewrite lookup_insert_eq.
    + apply String.eqb_neq in Et. by rewrite lookup_insert_ne.
  - apply run_profiles_size.
Qed.

(** *** Tier 1 *)

Lemma str_take_take (n m : nat) (s : string) :
  str_take n (str_take m s) = str_take (Nat.min n m) s.
Proof.
  revert m s. induction n as [|n IH]; intros [|m] [|c s]; cbn [str_take Nat.min];
    try done.
  by rewrite IH.
Qed.

Lemma mechanical_blocks (o : OperatorOversight) (category : string) :
  mechanical o category
  = success_block (successes_of o category) ++ failure_block (failures_of o category).
Proof. reflexivity. Qed.

Lemma success_block_length (l : list Success) :
  length (success_block l)
  = match l with [] => 0%nat | _ => S (Nat.min 3 (length l)) end.
Proof.
  destruct l as [|s l]; [done|]. unfold success_block.
  cbn [length]. by rewrite length_map, length_take.
Qed.

Lemma failure_block_length (l : list Failure) :
  length (failure_block l)
  = match l with [] => 0%nat | _ => S (Nat.min 3 (length l)) end.
Proof.
  destruct l as [|f l]; [done|]. unfold failure_block.
  cbn [length]. by rewrite length_map, length_take.
Qed.

Lemma success_block_app (l extra : list Success) :
  (3 ≤ length l)%nat → success_block (l ++ extra) = success_block l.
Proof.
  intros H. destruct l as [|s l]; [cbn in H; lia|].
  unfold success_block. rewrite <- app_comm_cons.
  rewrite app_comm_cons, take_app_le by done. done.
Qed.

Lemma failure_block_app (l extra : list Failure) :
  (3 ≤ length l)%nat → failure_block (l ++ extra) = failure_block l.
Proof.
  intros H. destruct l as [|f l]; [cbn in H; lia|].
  unfold failure_block. rewrite <- app_comm_cons.
  rewrite app_comm_cons, take_app_le by done. done.
Qed.

Lemma mechanical_head (o : OperatorOversight) (category : string) :
  (mechanical o category = [] ∧
   successes_of o category = [] ∧ failures_of o category = [])
  ∨ ∃ h rest, mechanical o category = h :: rest ∧ starts_nonspace h.
Proof.
  rewrite mechanical_blocks.
  destruct (successes_of o category) as [|s ss].
  - destruct (failures_of o category) as [|f fs]; [by left|].
    right. by eexists _, _.
  - right. by eexists _, _.
Qed.

Lemma join_parts_tier1_only (lines : list string) :
  join_parts (join NL lines) EmptyString
  = match lines with
    | [] => EmptyString
    | h :: _ => if nonempty (strip (join NL lines)) then join NL lines else EmptyString
    end.
Proof.
  destruct lines as [|h rest]; [done|].
  unfold join_parts. cbn [List.filter].
  destruct (nonempty (strip (join NL (h :: rest)))); done.
Qed.

(** X19.  The tier-1 part of the context is a list of at most 8 pieces,
    which [get_context] joins with newlines, however many approaches are
    recorded: a heading and at most 3 items for the successes of the
    category, and the same for its failures; a part without a record of the
    category is left out, heading included.  An item holds the recorded
    approach as it is, newlines included, so the count is one of pieces,
    not of lines of the joined text. *)
Theorem tier1_line_count (o : OperatorOversight) (category : string) :
  length (mechanical o category)
  = (match successes_of o category with
     | [] => 0
     | _ => S (Nat.min 3 (length (successes_of o category)))
     end
     + match failures_of o category with
       | [] => 0
       | _ => S (Nat.min 3 (length (failures_of o category)))
       end)%nat ∧
  (length (mechanical o category) ≤ 8)%nat.
Proof.
  rewrite mechanical_blocks, length_app, success_block_length, failure_block_length.
  split; [done|].
  destruct (successes_of o category), (failures_of o category); cbn [length]; lia.
Qed.

(** X20.  While fewer than 2 approaches are recorded, [get_context]
    returns the empty string exactly when no success and no failure is
    recorded under the very category asked for (the comparison is exact,
    letter case included); otherwise it returns the tier-1 lines joined by
    newlines. *)
Theorem get_context_tier1_only o net task_id category profile group_size :
  total_approaches o < 2 →
  let ctx := fst (fst (get_context o net task_id category profile group_size)) in
  (ctx = EmptyString
   ↔ (∀ s, s ∈ successful_approaches o → s_category s ≠ category) ∧
     (∀ f, f ∈ failed_approaches o → f_category f ≠ category)) ∧
  (ctx ≠ EmptyString → ctx = join NL (mechanical o category)).
Proof.
  intros Hlt ctx. unfold ctx. rewrite get_context_unfold. cbv zeta.
  apply Z.leb_gt in Hlt. rewrite Hlt. cbn [fst]. rewrite join_parts_tier1_only.
  assert (Hnone : (successes_of o category = [] ∧ failures_of o category = [])
            ↔ (∀ s, s ∈ successful_approaches o → s_category s ≠ category) ∧
              (∀ f, f ∈ failed_approaches o → f_category f ≠ category)).
  { unfold successes_of, failures_of. split.
    - intros [Hs Hf]. split.
      + intros s Hin Heq. apply list_elem_of_In in Hin.
        assert (In s (List.filter (λ s, String.eqb (s_category s) category)
                        (successful_approaches o))) as Hin'
          by (apply filter_In; split; [done|by apply String.eqb_eq]).
        by rewrite Hs in Hin'.
      + intros f Hin Heq. apply list_elem_of_In in Hin.
        assert (In f (List.filter (λ f, String.eqb (f_category f) category)
                        (failed_approaches o))) as Hin'
          by (apply filter_In; split; [done|by apply String.eqb_eq]).
        by rewrite Hf in Hin'.
    - intros [Hs Hf]. split.
      + destruct (List.filter _ (successful_approaches o)) as [|s l] eqn:E; [done|].
        assert (In s (s :: l)) as Hin by (by left). rewrite <- E in Hin.
        apply filter_In in Hin as [Hin Heq]. apply String.eqb_eq in Heq.
        apply list_elem_of_In in Hin. by destruct (Hs s Hin).
      + destruct (List.filter _ (failed_approaches o)) as [|f l] eqn:E; [done|].
        assert (In f (f :: l)) as Hin by (by left). rewrite <- E in Hin.
        apply filter_In in Hin as [Hin Heq]. apply String.eqb_eq in Heq.
        apply list_elem_of_In in Hin. by destruct (Hf f Hin). }
  rewrite <- Hnone.
  destruct (mechanical_head o category) as [(Hm & Hs & Hf)|(h & rest & Hm & Hh)];
    rewrite Hm.
  - split; [done|]. done.
  - pose proof (join_starts_nonspace NL h rest Hh) as Hj.
    rewrite (strip_nonempty _ Hj).
    split; [|done]. split.
    + intros E. rewrite E in Hj. done.
    + intros [Hs Hf]. exfalso.
      rewrite mechanical_blocks, Hs, Hf in Hm. done.
Qed.

Lemma get_context_tier1_only_witness :
  let o := record_failure new_operator "spatial" "BFS flood fill" in
  total_approaches o < 2 ∧
  (fst (fst (get_context o long_service "group_2" "spatial" "Similar grid rotation" 10))
   ≠ EmptyString →
   fst (fst (get_context o long_service "group_2" "spatial" "Similar grid rotation" 10))
   = join NL (mechanical o "spatial")).
Proof.
  intros o.
  assert (H : total_approaches o < 2) by (by vm_compute).
  split; [exact H|].
  exact (proj2 (get_context_tier1_only o long_service "group_2" "spatial"
                  "Similar grid rotation" 10 H)).
Defined.

Lemma successes_of_record_success o category' approach count profile category :
  successes_of (record_success o category' approach count profile) category
  = successes_of o category
    ++ (if String.eqb category' category
        then [ {| s_category := category'; s_approach := str_take 400 approach;
                  s_profile := str_take 400 profile; s_count := count |} ]
        else []).
Proof.
  unfold successes_of. fields_simpl. rewrite List.filter_app.
  cbn [List.filter s_category]. by destruct (String.eqb category' category).
Qed.

Lemma failures_of_record_failure o category' approach category :
  failures_of (record_failure o category' approach) category
  = failures_of o category
    ++ (if String.eqb category' category
        then [ {| f_category := category'; f_approach := str_take 300 approach |} ]
        else []).
Proof.
  unfold failures_of. fields_simpl. rewrite List.filter_app.
  cbn [List.filter f_category]. by destruct (String.eqb category' category).
Qed.

(** X21.  Tier 1 shows the first three records of a category, not the
    latest: once three successes of a category are recorded, recording
    further successes, of any category, leaves the tier-1 lines for that
    category as they are, and likewise for failures. *)
Theorem tier1_keeps_first_three (o : OperatorOversight) (category : string) :
  ((3 ≤ length (successes_of o category))%nat →
   ∀ category' approach count profile,
     mechanical (record_success o category' approach count profile) category
     = mechanical o category) ∧
  ((3 ≤ length (failures_of o category))%nat →
   ∀ category' approach,
     mechanical (record_failure o category' approach) category
     = mechanical o category).
Proof.
  split.
  - intros H category' approach count profile.
    rewrite !mechanical_blocks, successes_of_record_success.
    by rewrite success_block_app.
  - intros H category' approach.
    rewrite !mechanical_blocks, failures_of_record_failure.
    by rewrite failure_block_app.
Qed.

Lemma tier1_keeps_first_three_witness :
  let o := record_success
             (record_success (record_success new_operator "spatial" "rotate" 1 "")
                "spatial" "mirror" 2 "")
             "spatial" "transpose" 3 "" in
  (3 ≤ length (successes_of o "spatial"))%nat ∧
  mechanical (record_success o "spatial" "flood fill" 4 "") "spatial"
  = mechanical o "spatial".
Proof.
  intros o.
  assert (H : (3 ≤ length (successes_of o "spatial"))%nat) by (vm_compute; lia).
  split; [exact H|].
  exact (proj1 (tier1_keeps_first_three o "spatial") H "spatial"%string
           "flood fill"%string 4 EmptyString).
Defined.

(** X22.  What is recorded comes back in tier 1.  The first success
    recorded for a category puts the heading of the successes and one item
    in front of the tier-1 lines of that category; the item shows the first
    150 characters of the approach as it was passed and the count.  The
    first failure recorded for a category adds the heading of the failures
    and one item with the first 100 characters of the approach at the
    end. *)
Theorem recorded_approach_shows_in_tier1 (o : OperatorOversight) (category : string) :
  (successes_of o category = [] →
   ∀ approach count profile,
     mechanical (record_success o category approach count profile) category
     = "Prior successes for similar tasks:"%string
       :: ("  - " +:+ str_take 150 approach +:+ " (solved " +:+ pretty count +:+ ")")
       :: mechanical o category) ∧
  (failures_of o category = [] →
   ∀ approach,
     mechanical (record_failure o category approach) category
     = mechanical o category
       ++ [ "Prior failures (avoid):"%string; "  - " +:+ str_take 100 approach ]).
Proof.
  split.
  - intros H approach count profile.
    rewrite !mechanical_blocks, successes_of_record_success, H, String.eqb_refl.
    cbn [app success_block take map]. unfold success_item.
    cbn [s_approach s_count]. by rewrite str_take_take.
  - intros H approach.
    rewrite !mechanical_blocks, failures_of_record_failure, H, String.eqb_refl.
    cbn [app failure_block take map]. unfold failure_item.
    cbn [f_approach]. rewrite str_take_take. by rewrite app_nil_r.
Qed.

Lemma recorded_approach_shows_in_tier1_witness :
  failures_of new_operator "spatial" = [] ∧
  mechanical (record_failure new_operator "spatial" "BFS flood fill") "spatial"
  = mechanical new_operator "spatial"
    ++ [ "Prior failures (avoid):"%string; "  - " +:+ str_take 100 "BFS flood fill" ].
Proof.
  assert (H : failures_of new_operator "spatial" = []) by reflexivity.
  split; [exact H|].
  exact (proj2 (recorded_approach_shows_in_tier1 new_operator "spatial") H
           "BFS flood fill"%string).
Defined.

(** *** Tier 2 *)

Lemma service_fails_None o net prompt system :
  service_fails (net (make_request o prompt system)) →
  fst (_generate o net prompt system) = JNull.
Proof.
  intros H.
  destruct (_generate_failures_give_None o net prompt system)
    as (_ & Hraise & Hstatus & Hbody & Hdata).
  cbv zeta in *.
  destruct (net (make_request o prompt system)) as [e|c b] eqn:E; cbn in H.
  - by apply (Hraise e).
  - destruct (decide (c = 200)) as [->|Hc]; [|by apply (Hstatus c b)].
    destruct H as [H|H]; [done|].
    destruct b as [data|]; [|by apply Hbody].
    apply (Hdata data); [done|]. intros d ->. done.
Qed.

(** X23.  A failure of the generation service never reaches the caller of
    [get_context]: when the post raises, the status is not 200, the body
    does not decode or is not an object, the call returns the tier-1 text
    alone, counts no suggestion and still counts the group. *)
Theorem get_context_survives_service_failure
    o net task_id category profile group_size :
  service_fails
    (net (make_request o
            (briefing_prompt (_build_activity_summary o category)
               category group_size profile) briefing_system)) →
  let result := get_context o net task_id category profile group_size in
  fst (fst result) = join_parts (join NL (mechanical o category)) EmptyString ∧
  total_suggestions_made (snd (fst result)) = total_suggestions_made o ∧
  groups_processed (snd (fst result)) = groups_processed o + 1.
Proof.
  intros Hfail. cbv zeta. rewrite get_context_unfold. cbv zeta.
  destruct (2 <=? total_approaches o) eqn:E; [|done].
  apply Z.leb_le, total_approaches_ge_2 in E.
  rewrite (generate_briefing_unfold
             (set_groups_processed (groups_processed o + 1) o)) by exact E.
  cbv zeta. cbn [fst snd].
  set (o1 := set_groups_processed (groups_processed o + 1) o).
  set (prompt := briefing_prompt (_build_activity_summary o category)
                   category group_size profile) in *.
  change (briefing_prompt (_build_activity_summary o1 category)
            category group_size profile) with prompt.
  change (try_except (_generate_body o1 net (make_request o1 prompt briefing_system)) JNull)
    with (fst (_generate o net prompt briefing_system)).
  rewrite (service_fails_None o net prompt briefing_system Hfail).
  done.
Qed.

Lemma get_context_survives_service_failure_witness :
  let net : Service := λ _, PostRaises TimeoutError in
  service_fails
    (net (make_request two_failures
            (briefing_prompt (_build_activity_summary two_failures "spatial")
               "spatial" 10 "Similar grid rotation") briefing_system)) ∧
  total_suggestions_made
    (snd (fst (get_context two_failures net "group_2" "spatial"
                 "Similar grid rotation" 10)))
  = total_suggestions_made two_failures.
Proof.
  intros net.
  assert (H : service_fails
    (net (make_request two_failures
            (briefing_prompt (_build_activity_summary two_failures "spatial")
               "spatial" 10 "Similar grid rotation") briefing_system))) by exact I.
  split; [exact H|].
  exact (proj1 (proj2 (get_context_survives_service_failure two_failures net
                         "group_2" "spatial" "Similar grid rotation" 10 H))).
Defined.

(** X24.  A call of [get_context] sends at most one request, and every
    request it sends goes to [/api/generate] under the coordinator's URL,
    names the coordinator's model and timeout, carries the system
    instruction, and has both streaming and thinking switched off. *)
Theorem get_context_requests o net task_id category profile group_size :
  let sent := snd (get_context o net task_id category profile group_size) in
  (length sent ≤ 1)%nat ∧
  ∀ r, r ∈ sent →
    req_url r = ollama_url o +:+ "/api/generate" ∧
    req_model r = operator_model o ∧
    req_timeout r = operator_timeout o ∧
    req_system r = Some briefing_system ∧
    req_stream r = false ∧
    req_think r = false ∧
    req_prompt r
    = briefing_prompt (_build_activity_summary o category) category group_size profile.
Proof.
  cbv zeta. rewrite get_context_unfold. cbv zeta.
  destruct (2 <=? total_approaches o) eqn:E; cbn [snd].
  - apply Z.leb_le, total_approaches_ge_2 in E.
    rewrite (generate_briefing_unfold
               (set_groups_processed (groups_processed o + 1) o)) by exact E.
    cbv zeta. cbn [snd]. split; [cbn; lia|].
    intros r ->%list_elem_of_singleton. done.
  - split; [cbn; lia|]. intros r Hr. by apply elem_of_nil in Hr.
Qed.

Lemma notes_not_blank (text : string) :
  nonempty (strip (OPERATOR_NOTES +:+ text)) = true.
Proof.
  unfold strip, OPERATOR_NOTES.
  change (lstrip ((NL +:+ "[Operator notes] ") +:+ text))
    with (String "[" ("Operator notes] " +:+ text)).
  by destruct (rstrip_cons_nonspace "[" ("Operator notes] " +:+ text) eq_refl) as [r ->].
Qed.

(** X25.  When the briefing counts, the string returned by [get_context]
    ends with the marker line followed by the stripped briefing: it is the
    marker and the briefing alone when tier 1 has no line, and otherwise
    the tier-1 lines, a blank line, and then the marker and the
    briefing. *)
Theorem get_context_with_briefing o net task_id category profile group_size text :
  2 ≤ total_approaches o →
  fst (_generate o net
         (briefing_prompt (_build_activity_summary o category)
            category group_size profile) briefing_system) = JStr text →
  (20 < String.length (strip text))%nat →
  fst (fst (get_context o net task_id category profile group_size))
  = match mechanical o category with
    | [] => OPERATOR_NOTES +:+ strip text
    | _ => join NL (mechanical o category) +:+ (NL +:+ NL)
           +:+ (OPERATOR_NOTES +:+ strip text)
    end.
Proof.
  intros Hge Hgen Hlen. rewrite get_context_unfold. cbv zeta.
  pose proof Hge as Hne%total_approaches_ge_2.
  apply Z.leb_le in Hge. rewrite Hge.
  rewrite (generate_briefing_unfold
             (set_groups_processed (groups_processed o + 1) o)) by exact Hne.
  cbv zeta. cbn [fst snd].
  set (o1 := set_groups_processed (groups_processed o + 1) o).
  set (prompt := briefing_prompt (_build_activity_summary o category)
                   category group_size profile) in *.
  change (briefing_prompt (_build_activity_summary o1 category)
            category group_size profile) with prompt.
  change (try_except (_generate_body o1 net (make_request o1 prompt briefing_system)) JNull)
    with (fst (_generate o net prompt briefing_system)).
  rewrite Hgen.
  destruct (use_briefing_cases o1 (JStr text))
    as [(text' & [= <-] & _ & ->)|(Hall & _)];
    [|specialize (Hall text eq_refl); lia].
  cbn [fst]. unfold join_parts. cbn [List.filter].
  rewrite notes_not_blank.
  destruct (mechanical_head o category) as [(Hm & _)|(h & rest & Hm & Hh)];
    rewrite Hm.
  - done.
  - pose proof (join_starts_nonspace NL h rest Hh) as Hj.
    by rewrite (strip_nonempty _ Hj).
Qed.

Lemma get_context_with_briefing_witness :
  2 ≤ total_approaches two_failures ∧
  fst (_generate two_failures long_service
         (briefing_prompt (_build_activity_summary two_failures "spatial")
            "spatial" 10 "Similar grid rotation") briefing_system) = JStr long_reply ∧
  (20 < String.length (strip long_reply))%nat ∧
  fst (fst (get_context two_failures long_service "group_2" "spatial"
              "Similar grid rotation" 10))
  = match mechanical two_failures "spatial" with
    | [] => OPERATOR_NOTES +:+ strip long_reply
    | _ => join NL (mechanical two_failures "spatial") +:+ (NL +:+ NL)
           +:+ (OPERATOR_NOTES +:+ strip long_reply)
    end.
Proof.
  assert (H1 : 2 ≤ total_approaches two_failures) by (by vm_compute).
  assert (H2 : fst (_generate two_failures long_service
         (briefing_prompt (_build_activity_summary two_failures "spatial")
            "spatial" 10 "Similar grid rotation") briefing_system) = JStr long_reply)
    by (by vm_compute).
  assert (H3 : (20 < String.length (strip long_reply))%nat) by (vm_compute; lia).
  split; [exact H1|]. split; [exact H2|]. split; [exact H3|].
  exact (get_context_with_briefing two_failures long_service "group_2" "spatial"
           "Similar grid rotation" 10 long_reply H1 H2 H3).
Defined.

End OversightExtra.
(** ** More facts about the allocator in the code's arithmetic *)

Module Launcher64Extra.
Import Binary64 Launcher64 Binary64Facts Launcher64Facts.

(** *** The cost of one slot *)

(** On the catalogue, no step costs less than one slot, and one slot costs
    at least 2.8 GB. *)
Lemma one_slot_is_cheapest (name : string) (p : Z) :
  p ∈ PARALLEL_STEPS →
  ∃ m1 mp, model_memory name 1 = Ok m1 ∧ model_memory name p = Ok mp ∧
           fle m1 mp = true ∧ fle (decimal 28 1) m1 = true.
Proof.
  intros Hp. unfold model_memory. cbv zeta.
  pose proof (lookup_spec_in_catalogue name) as Hs.
  revert Hs. generalize (lookup_spec name). intros s Hs.
  assert (forallb (λ s : ModelSpec,
            forallb (λ p,
              match (x <- float_of_int 1 ;; Ok (fadd (base_gb s) (fmul x (kv_gb s)))),
                    (x <- float_of_int p ;; Ok (fadd (base_gb s) (fmul x (kv_gb s)))) with
              | Ok m1, Ok mp => fle m1 mp && fle (decimal 28 1) m1
              | _, _ => false
              end) PARALLEL_STEPS) catalogue_specs = true) as Hall
    by (vm_compute; reflexivity).
  rewrite forallb_forall in Hall. apply list_elem_of_In in Hs.
  specialize (Hall s Hs). rewrite forallb_forall in Hall.
  apply list_elem_of_In in Hp. specialize (Hall p Hp).
  destruct (x <- float_of_int 1 ;; Ok (fadd (base_gb s) (fmul x (kv_gb s)))) as [m1|];
    [|done].
  destruct (x <- float_of_int p ;; Ok (fadd (base_gb s) (fmul x (kv_gb s)))) as [mp|];
    [|done].
  apply andb_prop in Hall as [H1 H2]. by exists m1, mp.
Qed.

Lemma target_parallel_at_least hw minp t target :
  target_parallel hw minp t = Ok target → minp ≤ target.
Proof.
  unfold target_parallel. intros (x & _ & [= <-])%bind_Ok. lia.
Qed.

(** X5.  With the default [min_parallel] of 1 the entry written at the
    turn of a model is the skipped one exactly when not even one slot
    fits, that is, when [base_gb + 1 * kv_gb], computed in doubles, is not
    at most what is available at that turn. *)
Theorem skipped_iff_one_slot_too_much hw name st st' (one_slot : float) :
  alloc_model hw 1 st (name, lookup_spec name) = Ok st' →
  model_memory name 1 = Ok one_slot →
  ∃ e, fst st' !! name = Some e ∧
       (e = skipped_entry (lookup_spec name) ↔ fle one_slot (snd st) = false) ∧
       (parallel e = 0 ↔ fle one_slot (snd st) = false).
Proof.
  intros E Hone.
  destruct (target_parallel hw 1 (tier (lookup_spec name))) as [target|err] eqn:Ht;
    [|by rewrite (proj2 (alloc_model_Raise hw 1 st name _ err) Ht) in E].
  destruct (alloc_model_turn hw 1 st name _ target Ht) as (st2 & E2 & Hturn).
  rewrite E in E2. injection E2 as <-.
  pose proof (target_parallel_at_least hw 1 _ target Ht) as Hge.
  destruct (turn_entry _ _ _ _ _ _ Hturn) as (e & He & Hiff & Hcase).
  assert (parallel e = 0 ↔ fle one_slot (snd st) = false) as Hzero.
  { rewrite Hiff. split.
    - intros Hnone. destruct (fle one_slot (snd st)) eqn:Hfit; [|done].
      destruct (Hnone 1).
      split; [unfold PARALLEL_STEPS; repeat (first [by left | right])|].
      split; [done|]. split; [done|]. by exists one_slot.
    - intros Hno q (Hq & _ & _ & mq & Hmq & Hfq).
      destruct (one_slot_is_cheapest name q Hq) as (m1 & mq' & H1 & Hq' & Hle & _).
      rewrite Hone in H1. injection H1 as <-.
      rewrite Hmq in Hq'. injection Hq' as <-.
      by rewrite (fle_trans _ _ _ Hle Hfq) in Hno. }
  exists e. split; [done|]. split; [|done].
  rewrite <- Hzero.
  destruct Hcase as [[-> _]|(p & mem & Hp & _ & _ & -> & _)].
  - done.
  - cbn [parallel allocated_entry]. pose proof (steps_positive p Hp).
    split; [|lia]. intros Heq.
    assert (parallel (allocated_entry (lookup_spec name) p mem)
            = parallel (skipped_entry (lookup_spec name))) as Hpar by (by rewrite Heq).
    cbn [parallel allocated_entry skipped_entry] in Hpar. lia.
Qed.

Lemma skipped_iff_one_slot_too_much_witness :
  let st := (∅, decimal 27999999999999994 16) : State in
  alloc_model (profile 14 (decimal 8 1) 8 12) 1 st ("executive"%string, lookup_spec "executive")
  = Ok (<["executive"%string := skipped_entry spec_4b]> ∅, decimal 27999999999999994 16) ∧
  model_memory "executive" 1 = Ok (decimal 28 1) ∧
  fle (decimal 28 1) (decimal 27999999999999994 16) = false.
Proof.
  intros st.
  assert (H1 : alloc_model (profile 14 (decimal 8 1) 8 12) 1 st
                 ("executive"%string, lookup_spec "executive")
               = Ok (<["executive"%string := skipped_entry spec_4b]> ∅,
                     decimal 27999999999999994 16)) by (vm_compute; reflexivity).
  assert (H2 : model_memory "executive" 1 = Ok (decimal 28 1)) by (vm_compute; reflexivity).
  split; [exact H1|]. split; [exact H2|].
  destruct (skipped_iff_one_slot_too_much _ _ _ _ _ H1 H2) as (e & He & Hiff & _).
  apply Hiff. cbn [fst] in He. rewrite lookup_insert_eq in He. by injection He as <-.
Defined.

(** *** The entries of the result *)

(** X6.  Every entry of the map that [allocate_stack] returns has the tier
    and the source of the spec of its model (the default spec for an
    unknown name) and is either the skipped entry, with degree 0 and the
    integer 0 as memory, or carries a step of [PARALLEL_STEPS] with
    [memory_gb] equal to [round(base_gb + degree * kv_gb, 1)] computed in
    doubles.  The rounded figure is not always the memory that was taken
    from the budget: [coder] at degree 8 costs 15.700000000000001 and is
    reported as 15.7. *)
Theorem allocate_entries_consistent :
  (∀ models hw minp a name e,
     allocate_stack models hw minp = Ok a →
     a !! name = Some e →
     a_tier e = tier (lookup_spec name) ∧
     a_source e = source (lookup_spec name) ∧
     ((parallel e = 0 ∧ memory_gb e = Int 0 ∧ status e = Some "skipped"%string)
      ∨ (parallel e ∈ PARALLEL_STEPS ∧ status e = None ∧
         memory_gb e
         = Float (round1 (fadd (base_gb (lookup_spec name))
                               (fmul (of_Z (parallel e)) (kv_gb (lookup_spec name)))))))) ∧
  model_memory "coder" 8 = Ok (decimal 15700000000000001 15) ∧
  round1 (decimal 15700000000000001 15) = decimal 157 1 ∧
  decimal 157 1 ≠ decimal 15700000000000001 15.
Proof.
  split; [|split; [vm_compute; reflexivity|split; [vm_compute; reflexivity|]]].
  - intros models hw minp a name e (st & E & ->)%allocate_stack_Ok He.
    destruct (allocate_run_written models hw minp st E name e He)
      as [->|(p & mem & Hp & Hmem & ->)].
    + split; [done|]. split; [done|]. by left.
    + split; [done|]. split; [done|]. right.
      cbn [parallel status memory_gb allocated_entry].
      split; [done|]. split; [done|].
      rewrite (model_memory_of_step name p Hp) in Hmem.
      by rewrite <- (Ok_inj _ _ Hmem).
  - vm_compute. discriminate.
Qed.

Lemma allocate_entries_consistent_witness :
  ∃ a e,
    allocate_stack ["coder"]%string (dgx_spark 128) 1 = Ok a ∧
    a !! "coder"%string = Some e ∧
    a_tier e = tier (lookup_spec "coder") ∧
    a_source e = source (lookup_spec "coder").
Proof.
  destruct (allocate_stack ["coder"]%string (dgx_spark 128) 1) as [a|err] eqn:Ea;
    [|vm_compute in Ea; discriminate Ea].
  destruct (a !! "coder"%string) as [e|] eqn:He.
  - exists a, e. split; [reflexivity|]. split; [exact He|].
    destruct (proj1 allocate_entries_consistent _ _ _ _ _ _ Ea He) as (H1 & H2 & _).
    split; [exact H1|exact H2].
  - exfalso. revert He. generalize Ea. clear.
    intros (st & E & ->)%allocate_stack_Ok He.
    assert (is_Some (fst st !! "coder"%string)) as [e He'].
    { apply (allocate_run_dom _ _ _ _ _ E). by left. }
    rewrite He in He'. discriminate.
Defined.

(** *** A budget below the cheapest model *)

Lemma turn_tiny_budget name spec target minp st st' :
  fle (decimal 28 1) (snd st) = false →
  turn name spec target minp st st' →
  fst st' = <[name := skipped_entry spec]> (fst st) ∧ snd st' = snd st.
Proof.
  intros Hb [(p & mem & (Hp & _ & _ & mem' & Hmem' & Hfit) & _ & Hmem & _)|(_ & H)];
    [|done].
  destruct (one_slot_is_cheapest name p Hp) as (m1 & mp & _ & Hmp & Hle & H28).
  rewrite Hmem' in Hmp. injection Hmp as <-.
  by rewrite (fle_trans _ _ _ (fle_trans _ _ _ H28 Hle) Hfit) in Hb.
Qed.

Lemma run_from_tiny_budget hw minp l st st' :
  (∀ x, x ∈ l → snd x = lookup_spec (fst x)) →
  fle (decimal 28 1) (snd st) = false →
  run_from hw minp l st = Ok st' →
  snd st' = snd st ∧
  ∀ name e, fst st' !! name = Some e →
    fst st !! name = Some e ∨ e = skipped_entry (lookup_spec name).
Proof.
  revert st. induction l as [|[name spec] l IH]; intros st Hl Hb; cbn [run_from].
  { intros [= ->]. split; [done|]. intros name e He. by left. }
  intros (st1 & E1 & E2)%bind_Ok.
  assert (spec = lookup_spec name) as -> by (apply (Hl (name, spec)); by left).
  destruct (target_parallel hw minp (tier (lookup_spec name))) as [target|err] eqn:Ht;
    [|by rewrite (proj2 (alloc_model_Raise hw minp st name _ err) Ht) in E1].
  destruct (alloc_model_turn hw minp st name _ target Ht) as (st2 & E3 & Hturn).
  rewrite E1 in E3. injection E3 as <-.
  destruct (turn_tiny_budget _ _ _ _ _ _ Hb Hturn) as [Hfst Hsnd].
  destruct (IH st1) as [Hs Hall]; [intros x Hx; apply Hl; by right|by rewrite Hsnd|done|].
  split; [by rewrite Hs|].
  intros m e He. destruct (Hall m e He) as [H1|H1]; [|by right].
  rewrite Hfst in H1. destruct (decide (m = name)) as [->|Hne].
  - rewrite lookup_insert_eq in H1. injection H1 as <-. by right.
  - rewrite lookup_insert_ne in H1 by done. by left.
Qed.

(** X8.  When the budget, as the code computes it, is not at least 2.8,
    the cost of the cheapest model with one slot, every model of a run
    that completes is skipped and what is available is still the whole
    budget.  The comparison is the code's: 2.8 * (1 - 1e-17) is 2.8 in
    doubles and gives the cheapest model one slot, while 14 * (1 - 0.8) is
    2.7999999999999994 and gives it none. *)
Theorem tiny_budget_skips_everything :
  (∀ models hw minp b st,
     budget hw = Ok b → fle (decimal 28 1) b = false →
     allocate_run models hw minp = Ok st →
     snd st = b ∧
     ∀ name e, fst st !! name = Some e → e = skipped_entry (lookup_spec name)) ∧
  (let hw := {| gpu_mem_gb := Float (decimal 28 1);
                reserve_pct := Some (decimal 1 17);
                peak_parallel := Some 8; max_parallel := Some 12 |} in
   budget hw = Ok (decimal 28 1) ∧
   parallel <$> entry_of (allocate_run ["executive"]%string hw 1) "executive" = Some 1) ∧
  (let hw := profile 14 (decimal 8 1) 8 12 in
   budget hw = Ok (decimal 27999999999999994 16) ∧
   parallel <$> entry_of (allocate_run ["executive"]%string hw 1) "executive" = Some 0).
Proof.
  split; [|split].
  - intros models hw minp b st Hb Htiny E.
    unfold allocate_run, run_specs in E. rewrite Hb in E. cbn [bind] in E.
    destruct (run_from_tiny_budget hw minp (model_specs models) (∅, b) st)
      as [Hs Hall]; try done.
    { intros [name spec] [_ ->]%model_specs_pairs. done. }
    split; [done|]. intros name e He.
    destruct (Hall name e He) as [H|H]; [|done].
    cbn [fst] in H. by rewrite lookup_empty in H.
  - cbv zeta. split; vm_compute; reflexivity.
  - cbv zeta. split; vm_compute; reflexivity.
Qed.

Lemma tiny_budget_skips_everything_witness :
  let hw := profile 14 (decimal 8 1) 8 12 in
  budget hw = Ok (decimal 27999999999999994 16) ∧
  fle (decimal 28 1) (decimal 27999999999999994 16) = false ∧
  ∃ st, allocate_run ["executive"; "coder"]%string hw 1 = Ok st ∧
        snd st = decimal 27999999999999994 16.
Proof.
  intros hw.
  assert (H1 : budget hw = Ok (decimal 27999999999999994 16)) by (vm_compute; reflexivity).
  assert (H2 : fle (decimal 28 1) (decimal 27999999999999994 16) = false)
    by (vm_compute; reflexivity).
  split; [exact H1|]. split; [exact H2|].
  destruct (allocate_run ["executive"; "coder"]%string hw 1) as [st|err] eqn:E;
    [|vm_compute in E; discriminate E].
  exists st. split; [reflexivity|].
  exact (proj1 (proj1 tiny_budget_skips_everything _ hw 1 _ st H1 H2 E)).
Defined.

End Launcher64Extra.
(** ** Facts about the plan of [main] *)

Module PlanningFacts.
Import Binary64 Launcher64 Binary64Facts Launcher64Facts Planning.

(** *** Degrees and targets *)

(** With a peak degree of the table every target can be computed and is
    between [min_parallel] and the larger of the peak and [min_parallel]. *)
Lemma table_tier_target (peak t : Z) :
  peak ∈ table_peaks → ∃ x, tier_target peak t = Ok x ∧ x ≤ peak.
Proof.
  unfold table_peaks, tier_target. intros Hp.
  repeat (apply elem_of_cons in Hp as [->|Hp]); [..|by apply elem_of_nil in Hp];
    (destruct (t =? 1); [eexists; split; [reflexivity|lia]|]);
    (destruct (t =? 2); [eexists; split; [vm_compute; reflexivity|lia]|]);
    (destruct (t =? 3); eexists; (split; [vm_compute; reflexivity|lia])).
Qed.

Lemma table_target_parallel hw minp t :
  hw_peak hw ∈ table_peaks →
  ∃ target, target_parallel hw minp t = Ok target ∧
            target ≤ Z.max minp (hw_peak hw).
Proof.
  intros Hp. destruct (table_tier_target _ t Hp) as (x & Hx & Hle).
  unfold target_parallel. rewrite Hx. cbn [bind]. eexists. split; [done|]. lia.
Qed.

(** The degree of an entry is 0 or at most the target of its model. *)
Lemma run_from_degrees hw minp (bound : Z) l st st' :
  (∀ t target, target_parallel hw minp t = Ok target → target ≤ bound) →
  run_from hw minp l st = Ok st' →
  (∀ m e, fst st !! m = Some e → 0 ≤ parallel e ≤ Z.max 0 bound) →
  ∀ m e, fst st' !! m = Some e → 0 ≤ parallel e ≤ Z.max 0 bound.
Proof.
  intros Hb. revert st. induction l as [|[name spec] l IH]; intros st; cbn [run_from].
  { by intros [= ->]. }
  intros (st1 & E1 & E2)%bind_Ok Hst.
  apply (IH st1 E2).
  destruct (target_parallel hw minp (tier spec)) as [target|err] eqn:Ht;
    [|by rewrite (proj2 (alloc_model_Raise hw minp st name _ err) Ht) in E1].
  destruct (alloc_model_turn hw minp st name _ target Ht) as (st2 & E3 & Hturn).
  rewrite E1 in E3. injection E3 as <-.
  intros m e. destruct (decide (m = name)) as [->|Hne].
  - destruct Hturn as [(p & mem & (Hp & Hle & _) & _ & _ & -> & _)|(_ & -> & _)];
      rewrite lookup_insert_eq; intros [= <-];
      cbn [parallel allocated_entry skipped_entry]; [|lia].
    pose proof (steps_positive p Hp). pose proof (Hb _ _ Ht). lia.
  - rewrite (proj1 (turn_lookup _ _ _ _ _ _ Hturn) m Hne). apply Hst.
Qed.

Lemma allocate_stack_degrees models hw a name e :
  hw_peak hw ∈ table_peaks →
  allocate_stack models hw 1 = Ok a → a !! name = Some e →
  0 ≤ parallel e ≤ hw_peak hw.
Proof.
  intros Hp (st & E & ->)%allocate_stack_Ok He.
  unfold allocate_run, run_specs in E. apply bind_Ok in E as (b & _ & E).
  assert (1 ≤ hw_peak hw).
  { unfold table_peaks in Hp.
    repeat (apply elem_of_cons in Hp as [->|Hp]; [lia|]). by apply elem_of_nil in Hp. }
  assert (∀ t target, target_parallel hw 1 t = Ok target → target ≤ hw_peak hw) as Hb.
  { intros t target Ht.
    destruct (table_target_parallel hw 1 t Hp) as (target' & Ht' & Hle).
    rewrite Ht in Ht'. injection Ht' as <-. lia. }
  assert (∀ m e', fst (∅ : gmap string AllocationEntry, b) !! m = Some e' →
                  0 ≤ parallel e' ≤ Z.max 0 (hw_peak hw)) as H0.
  { intros m e' H'. cbn [fst] in H'. by rewrite lookup_empty in H'. }
  pose proof (run_from_degrees hw 1 (hw_peak hw) _ _ _ Hb E H0 name e He) as Hd.
  lia.
Qed.

Lemma allocate_stack_table_is_Ok models hw :
  hw_peak hw ∈ table_peaks → is_Ok (budget hw) →
  is_Ok (allocate_stack models hw 1).
Proof.
  intros Hp Hb. apply allocate_stack_is_Ok. split; [done|].
  intros m _. destruct (table_tier_target _ (tier (lookup_spec m)) Hp) as (x & -> & _).
  by eexists.
Qed.

(** *** The parallel setting *)

Lemma foldl_max_greatest (x : Z) (rest : list Z) :
  (foldl Z.max x rest = x ∨ foldl Z.max x rest ∈ rest) ∧
  x ≤ foldl Z.max x rest ∧ ∀ y, y ∈ rest → y ≤ foldl Z.max x rest.
Proof.
  revert x. induction rest as [|z rest IH]; intros x; cbn [foldl].
  { split; [by left|]. split; [done|]. intros y Hy. by apply elem_of_nil in Hy. }
  destruct (IH (Z.max x z)) as (Hm & Hx & Hall). split; [|split].
  - destruct Hm as [Hm|Hm]; [|right; by right].
    rewrite Hm. destruct (Z.max_spec x z) as [[_ ->]|[_ ->]]; [right; by left|by left].
  - lia.
  - intros y [->|Hy]%elem_of_cons; [lia|by apply Hall].
Qed.

Lemma max_parallel_setting_Ok (a : gmap string AllocationEntry) (m : Z) :
  max_parallel_setting a = Ok m
  ↔ (∃ name e, a !! name = Some e ∧ parallel e = m) ∧
    (∀ name e, a !! name = Some e → parallel e ≤ m).
Proof.
  unfold max_parallel_setting.
  destruct (map_to_list a) as [|[k0 e0] rest] eqn:El; cbn [fmap list_fmap Startup.py_max].
  { apply map_to_list_empty_iff in El as ->. split; [done|].
    intros [(name & e & He & _) _]. by rewrite lookup_empty in He. }
  cbn [snd].
  destruct (foldl_max_greatest (parallel e0) ((λ kv, parallel (snd kv)) <$> rest))
    as (Hm & Hx & Hall).
  assert (∀ name e, a !! name = Some e ↔ (name, e) = (k0, e0) ∨ (name, e) ∈ rest) as Hin.
  { intros name e. rewrite <- elem_of_map_to_list, El. apply elem_of_cons. }
  split.
  - intros [= <-]. split.
    + destruct Hm as [->|Hm].
      * exists k0, e0. split; [|done]. apply Hin. by left.
      * apply list_elem_of_fmap in Hm as ([k e] & -> & Hke).
        exists k, e. split; [|done]. apply Hin. by right.
    + intros name e [[= -> ->]|Hr]%Hin; [done|].
      apply Hall. apply list_elem_of_fmap. by exists (name, e).
  - intros [(name & e & He & <-) Hub]. f_equal.
    assert (foldl Z.max (parallel e0) ((λ kv, parallel (snd kv)) <$> rest) ≤ parallel e).
    { destruct Hm as [->|Hm].
      - apply (Hub k0). apply Hin. by left.
      - apply list_elem_of_fmap in Hm as ([k e'] & -> & Hke).
        apply (Hub k). apply Hin. by right. }
    assert (parallel e ≤ foldl Z.max (parallel e0) ((λ kv, parallel (snd kv)) <$> rest)).
    { apply Hin in He as [[= -> ->]|Hr]; [done|].
      apply Hall. apply list_elem_of_fmap. by exists (name, e). }
    lia.
Qed.

Lemma max_parallel_setting_is_Ok (a : gmap string AllocationEntry) :
  a ≠ ∅ → is_Ok (max_parallel_setting a).
Proof.
  intros Hne. unfold max_parallel_setting.
  destruct (map_to_list a) as [|[k0 e0] rest] eqn:El.
  - by apply map_to_list_empty_iff in El.
  - by eexists.
Qed.

(** *** The hardware of the plan *)

Lemma main_models_not_empty (args : Args) : main_models args ≠ [].
Proof. unfold main_models. by destruct (arg_models args) as [[|m rest]|]. Qed.

Lemma profile_peak (key : string) (p : Startup.HardwareProfile) :
  (key, p) ∈ Startup.HARDWARE_PROFILES_items →
  Startup.hp_peak_parallel p ∈ table_peaks.
Proof.
  unfold Startup.HARDWARE_PROFILES_items, table_peaks. intros H.
  repeat (apply elem_of_cons in H as [[= -> ->]|H]); [..|by apply elem_of_nil in H];
    cbn; repeat (first [by left | right]).
Qed.

Lemma detected_peak (pr : Startup.Probes) :
  Startup.hp_peak_parallel (Startup.d_hw (Startup.detect_hardware pr)) ∈ table_peaks.
Proof.
  destruct (StartupFacts.detect_hardware_from_table pr) as (p & Hin & Hhw).
  pose proof (profile_peak _ p Hin) as Hp.
  by destruct Hhw as [->|(k & nvidia & _ & _ & -> & _)].
Qed.

Lemma main_hardware_peak (args : Args) (pr : Startup.Probes) (hw : Hardware) :
  main_hardware args pr = Some hw → hw_peak hw ∈ table_peaks.
Proof.
  unfold main_hardware.
  assert (∀ hw0, match arg_gpu_mem args with
                 | Some g => if g =? 0 then Some hw0 else Some (with_gpu_mem g hw0)
                 | None => Some hw0
                 end = Some hw → hw_peak hw = hw_peak hw0) as Hover.
  { intros hw0. destruct (arg_gpu_mem args) as [g|]; [destruct (g =? 0)|];
      by intros [= <-]. }
  destruct (arg_profile args) as [key|].
  - destruct (Startup.HARDWARE_PROFILES !! key) as [p|] eqn:Ek; cbn [fmap option_fmap option_map];
      [|done].
    intros ->%Hover. unfold hw_peak, hardware_of. cbn [peak_parallel from_option id].
    apply (profile_peak key). unfold Startup.HARDWARE_PROFILES in Ek.
    by apply elem_of_list_to_map_2.
  - intros ->%Hover. unfold hw_peak, hardware_of. cbn [peak_parallel from_option id].
    apply detected_peak.
Qed.

Lemma float_of_int_Raise (n : Z) (err : error) :
  float_of_int n = Raise err → err = OverflowError.
Proof. unfold float_of_int. by destruct (of_Z n); intros [= <-]. Qed.

Lemma main_hardware_budget (args : Args) (pr : Startup.Probes) (hw : Hardware) :
  main_hardware args pr = Some hw →
  (is_Ok (budget hw) ↔ ∀ g, arg_gpu_mem args = Some g → g ≠ 0 → is_Ok (float_of_int g)) ∧
  ∀ err, budget hw = Raise err →
         err = OverflowError ∧
         ∃ g, arg_gpu_mem args = Some g ∧ float_of_int g = Raise OverflowError.
Proof.
  unfold main_hardware.
  assert (∀ hw0, (∃ x, gpu_mem_gb hw0 = Float x) →
            match arg_gpu_mem args with
            | Some g => if g =? 0 then Some hw0 else Some (with_gpu_mem g hw0)
            | None => Some hw0
            end = Some hw →
            (is_Ok (budget hw)
             ↔ ∀ g, arg_gpu_mem args = Some g → g ≠ 0 → is_Ok (float_of_int g)) ∧
            ∀ err, budget hw = Raise err →
                   err = OverflowError ∧
                   ∃ g, arg_gpu_mem args = Some g ∧ float_of_int g = Raise OverflowError)
    as Hover.
  { intros hw0 [x Hx].
    assert (is_Ok (budget hw0) ∧ ∀ err, budget hw0 ≠ Raise err) as [Hok0 Hno0].
    { unfold budget. rewrite Hx. cbn [to_float bind]. split; [by eexists|done]. }
    destruct (arg_gpu_mem args) as [g|]; [destruct (g =? 0) eqn:Eg|]; intros [= <-].
    - apply Z.eqb_eq in Eg as ->. split; [|intros err H; by destruct (Hno0 err)].
      split; [|done]. intros _ g [= <-] Hg. done.
    - apply Z.eqb_neq in Eg. unfold budget. cbn [gpu_mem_gb with_gpu_mem to_float].
      split.
      + rewrite is_Ok_bind. split.
        * intros (y & Hy & _) g' [= <-] _. by eexists.
        * intros H. destruct (H g eq_refl Eg) as [y Hy]. exists y. split; [done|].
          by eexists.
      + intros err Hr.
        destruct (float_of_int g) as [y|err'] eqn:Ef; cbn [bind] in Hr; [done|].
        injection Hr as <-. pose proof (float_of_int_Raise g err' Ef) as ->.
        split; [done|]. by exists g.
    - split; [|intros err H; by destruct (Hno0 err)]. split; [|done]. done. }
  destruct (arg_profile args) as [key|].
  - destruct (Startup.HARDWARE_PROFILES !! key) as [p|]; cbn [fmap option_fmap option_map];
      [|done].
    apply Hover. by eexists.
  - apply Hover. by eexists.
Qed.

(** X14.  Whatever the probes answer, [allocate_stack] returns on the
    hardware that [detect_hardware] finds: the memory is a float, the peak
    degree is one of the table's, so that neither the budget nor a target
    raises.  Every model of the list has an entry, with a degree between 0
    and the peak degree of the profile. *)
Theorem detected_hardware_allocates (pr : Startup.Probes) (models : list string) :
  let hw := hardware_of (Startup.d_hw (Startup.detect_hardware pr)) in
  ∃ a, allocate_stack models hw 1 = Ok a ∧
       (∀ name, name ∈ models ↔ is_Some (a !! name)) ∧
       ∀ name e, a !! name = Some e →
         0 ≤ parallel e ≤ Startup.hp_peak_parallel (Startup.d_hw (Startup.detect_hardware pr)) ∧
         Startup.hp_peak_parallel (Startup.d_hw (Startup.detect_hardware pr)) ≤ 16.
Proof.
  intros hw.
  assert (hw_peak hw ∈ table_peaks) as Hp by apply detected_peak.
  destruct (allocate_stack_table_is_Ok models hw Hp) as [a Ha].
  { unfold budget, hw, hardware_of. cbn [gpu_mem_gb to_float bind]. by eexists. }
  exists a. split; [done|]. split.
  - intros name. apply allocate_stack_Ok in Ha as (st & E & ->).
    by rewrite (allocate_run_dom models hw 1 st name E).
  - intros name e He. split; [apply (allocate_stack_degrees models hw a name e Hp Ha He)|].
    change (hw_peak hw ≤ 16). unfold table_peaks in Hp.
    repeat (apply elem_of_cons in Hp as [->|Hp]; [lia|]). by apply elem_of_nil in Hp.
Qed.

(** X15.  [main] has no plan exactly when [--profile] is not a key of
    [HARDWARE_PROFILES], the empty string included: the argument parser
    exits.  Otherwise the plan raises only [OverflowError], and exactly
    when [--gpu-mem] is an [int], not 0, too large to convert to a float.
    When it does not raise, the allocation has an entry for every model of
    the list, which is never empty, and the parallel setting is the degree
    of one of the entries, bounds all the others and lies between 0
    and 16. *)
Theorem main_plan_setting (args : Args) (pr : Startup.Probes) :
  (main_plan args pr = None
   ↔ ∃ key, arg_profile args = Some key ∧ Startup.HARDWARE_PROFILES !! key = None) ∧
  (∀ r, main_plan args pr = Some r →
     (∀ err, r = Raise err →
        err = OverflowError ∧
        ∃ g, arg_gpu_mem args = Some g ∧ float_of_int g = Raise OverflowError) ∧
     ((∀ g, arg_gpu_mem args = Some g → g ≠ 0 → is_Ok (float_of_int g)) →
      ∃ a m, r = Ok (a, m) ∧
             (∀ name, name ∈ main_models args ↔ is_Some (a !! name)) ∧
             (∃ name e, a !! name = Some e ∧ parallel e = m) ∧
             (∀ name e, a !! name = Some e → parallel e ≤ m) ∧
             0 ≤ m ≤ 16)).
Proof.
  split.
  - unfold main_plan, main_hardware.
    destruct (arg_profile args) as [key|].
    + destruct (Startup.HARDWARE_PROFILES !! key) as [p|] eqn:Ek;
        cbn [fmap option_fmap option_map].
      * split; [by destruct (arg_gpu_mem args) as [g|]; [destruct (g =? 0)|]|].
        intros (key' & [= <-] & H). congruence.
      * split; [|done]. intros _. by exists key.
    + split; [by destruct (arg_gpu_mem args) as [g|]; [destruct (g =? 0)|]|].
      by intros (key' & [=] & _).
  - intros r. unfold main_plan.
    destruct (main_hardware args pr) as [hw|] eqn:Eh; [|done]. intros [= <-].
    pose proof (main_hardware_peak args pr hw Eh) as Hp.
    destruct (main_hardware_budget args pr hw Eh) as [Hbok Hberr].
    assert (is_Ok (budget hw) →
            ∃ a m, (allocation <- allocate_stack (main_models args) hw 1 ;;
                    setting <- max_parallel_setting allocation ;;
                    Ok (allocation, setting)) = Ok (a, m) ∧
                   (∀ name, name ∈ main_models args ↔ is_Some (a !! name)) ∧
                   (∃ name e, a !! name = Some e ∧ parallel e = m) ∧
                   (∀ name e, a !! name = Some e → parallel e ≤ m) ∧
                   0 ≤ m ≤ 16) as Hplan.
    { intros Hb.
      destruct (allocate_stack_table_is_Ok (main_models args) hw Hp Hb) as [a Ha].
      assert (∀ name, name ∈ main_models args ↔ is_Some (a !! name)) as Hdom.
      { intros name. pose proof Ha as (st & E & ->)%allocate_stack_Ok.
        by rewrite (allocate_run_dom _ hw 1 st name E). }
      destruct (max_parallel_setting_is_Ok a) as [m Hm].
      { intros ->. pose proof (main_models_not_empty args) as Hne.
        destruct (main_models args) as [|m0 rest]; [done|].
        destruct (proj1 (Hdom m0)) as [e He]; [by left|]. by rewrite lookup_empty in He. }
      exists a, m. rewrite Ha. cbn [bind]. rewrite Hm. cbn [bind].
      split; [done|]. split; [done|].
      apply max_parallel_setting_Ok in Hm as [(name & e & He & Hpar) Hub].
      split; [by exists name, e|]. split; [done|].
      pose proof (allocate_stack_degrees _ hw a name e Hp Ha He) as Hd.
      assert (hw_peak hw ≤ 16).
      { unfold table_peaks in Hp.
        repeat (apply elem_of_cons in Hp as [->|Hp]; [lia|]). by apply elem_of_nil in Hp. }
      lia. }
    split.
    + intros err Hr.
      destruct (budget hw) as [b|err'] eqn:Eb.
      * destruct Hplan as (a & m & Hok & _); [by eexists|]. rewrite Hok in Hr. done.
      * assert (allocate_stack (main_models args) hw 1 = Raise err') as Hraise.
        { unfold allocate_stack, allocate_run, run_specs. by rewrite Eb. }
        rewrite Hraise in Hr. cbn [bind] in Hr. injection Hr as <-.
        by apply Hberr.
    + intros Hg. apply Hplan. by apply Hbok.
Qed.

Lemma main_plan_setting_witness :
  let args := {| arg_profile := Some "generic_24gb"%string; arg_models := None;
                 arg_gpu_mem := Some 20 |} in
  let pr := {| Startup.system := "Linux"; Startup.hostname_file := None;
               Startup.nvidia_gpu := λ _, None; Startup.powershell_gpu := None;
               Startup.rocm_smi := None; Startup.system_memory := 64 |} in
  let hw := with_gpu_mem 20 (hardware_of Startup.generic_24gb_profile) in
  let r := (allocation <- allocate_stack default_models hw 1 ;;
            setting <- max_parallel_setting allocation ;;
            Ok (allocation, setting)) in
  main_plan args pr = Some r ∧
  (∀ g, arg_gpu_mem args = Some g → g ≠ 0 → is_Ok (float_of_int g)) ∧
  ∃ a m, r = Ok (a, m) ∧ 0 ≤ m ≤ 16.
Proof.
  intros args pr hw r.
  assert (E : main_plan args pr = Some r).
  { unfold main_plan.
    assert (main_hardware args pr = Some hw) as -> by (vm_compute; reflexivity).
    reflexivity. }
  assert (H : ∀ g, arg_gpu_mem args = Some g → g ≠ 0 → is_Ok (float_of_int g)).
  { intros g [= <-] _. eexists. vm_compute. reflexivity. }
  split; [exact E|]. split; [exact H|].
  destruct (proj2 (proj2 (main_plan_setting args pr) r E) H) as (a & m & Hr & _ & _ & _ & Hm).
  exists a, m. split; [exact Hr|exact Hm].
Defined.

End PlanningFacts.
